(** * Projet-JCM: school timetable encoding, validation and occupancy report

    Shallow embedding of [src/main.py].  Python dictionaries are association
    lists in insertion order (iteration order matters for the program),
    Python sets are [gset]s, exceptions are values of [result], and the
    lines written by [print] that carry data are structured messages. *)

From stdpp Require Import gmap strings list sorting.
From Stdlib Require Import QArith.

Local Open Scope Z_scope.
Local Open Scope nat_scope.

(** ** Python dictionaries and exceptions *)

Module PyDict.

(** [d[k]] and [k in d]: the first binding of [k]. *)
Fixpoint get {V : Type} (d : list (string * V)) (k : string) : option V :=
  match d with
  | [] => None
  | (k', v) :: d' => if decide (k = k') then Some v else get d' k
  end.

(** [d.keys()] *)
Definition keys {V : Type} (d : list (string * V)) : list string := d.*1.

(** [collections.defaultdict]: [d[k] = f(d[k])], a missing key starts from
    [dflt] and is appended at the end of the iteration order. *)
Fixpoint update {K V : Type} `{EqDecision K}
    (dflt : V) (f : V → V) (k : K) (d : list (K * V)) : list (K * V) :=
  match d with
  | [] => [(k, f dflt)]
  | (k', v) :: d' =>
      if decide (k = k') then (k', f v) :: d'
      else (k', v) :: update dflt f k d'
  end.

(** [d.get(k, dflt)] on a dictionary with keys of any type. *)
Fixpoint find {K V : Type} `{EqDecision K}
    (dflt : V) (d : list (K * V)) (k : K) : V :=
  match d with
  | [] => dflt
  | (k', v) :: d' => if decide (k = k') then v else find dflt d' k
  end.

End PyDict.

Inductive exn : Type :=
| KeyError (k : string)
| ZeroDivisionError.

Inductive result (A : Type) : Type :=
| Ok (a : A)
| Raise (e : exn).
Arguments Ok {A} a.
Arguments Raise {A} e.

#[global] Instance result_ret : MRet result := λ _ a, Ok a.

#[global] Instance result_bind : MBind result := λ _ _ f m,
  match m with
  | Ok a => f a
  | Raise e => Raise e
  end.

(** [d[k]] where a missing key raises. *)
Definition getitem {V : Type} (d : list (string * V)) (k : string) : result V :=
  match PyDict.get d k with
  | Some v => Ok v
  | None => Raise (KeyError k)
  end.

(** A [for] loop whose body may raise: the state is threaded left to right
    and the first exception ends the loop.  A loop that only appends one
    item per iteration to a list is [mapM]. *)
Fixpoint for_each {A S : Type} (body : S → A → result S) (l : list A) (s : S)
    : result S :=
  match l with
  | [] => Ok s
  | x :: l' => s' ← body s x; for_each body l' s'
  end.

(** ** Configuration (the JSON document read by [load_config]) *)

Record GroupeInfo := { nom : string; niveau : string }.

Record CurriculumInfo := { matieres_obligatoires : list (string * Z) }.

Record MatiereInfo := { salle_requise : string; emoji : option string }.

Record Contraintes := {
  jours_indisponibles : list string;
  heures_indisponibles : list string }.

Record ProfInfo := {
  matieres_enseignees : list string;
  contraintes : Contraintes }.

Record SalleInfo := {
  type : string;
  capacite : option Z;
  equipements : list string }.

Record Planning := { jours : list string; heures : list string }.

Record ParametresSolveur := {
  temps_max_seconds : Z;
  log_progression : bool }.

Record Config := {
  groupes_eleves : list GroupeInfo;
  matieres : list (string * MatiereInfo);
  professeurs : list (string * ProfInfo);
  salles : list (string * SalleInfo);
  curriculum : list (string * CurriculumInfo);
  planning : Planning;
  parametres_solveur : ParametresSolveur }.

Definition with_groupes (config : Config) (gs : list GroupeInfo) : Config :=
  {| groupes_eleves := gs;
     matieres := matieres config;
     professeurs := professeurs config;
     salles := salles config;
     curriculum := curriculum config;
     planning := planning config;
     parametres_solveur := parametres_solveur config |}.

(** ** [generate_cours_from_config] *)

(** A course to plan: [(groupe_nom, matiere, cours_id)]. *)
Definition Cours : Type := string * string * nat.

Definition cours_groupe (c : Cours) : string := c.1.1.
Definition cours_matiere (c : Cours) : string := c.1.2.
Definition cours_ident (c : Cours) : nat := c.2.

(** The two mutable locals [cours_a_planifier] and [cours_id]. *)
Definition GenState : Type := list Cours * nat.

(** [for i in range(nb_cours): append; cours_id += 1] *)
Definition gen_occurrences (groupe_nom matiere : string) (nb_cours : Z)
    (st : GenState) : GenState :=
  fold_left (λ (st : GenState) (_ : nat), (st.1 ++ [(groupe_nom, matiere, st.2)], S st.2))
            (seq 0 (Z.to_nat nb_cours)) st.

(** [for matiere, nb_cours in matieres_obligatoires.items(): ...] *)
Definition gen_matieres (groupe_nom : string) (mo : list (string * Z))
    (st : GenState) : GenState :=
  fold_left (λ (st : GenState) (mn : string * Z), gen_occurrences groupe_nom mn.1 mn.2 st) mo st.

(** The body of the loop over [config["groupes_eleves"]]. *)
Definition gen_groupe (config : Config) (st : GenState)
    (groupe_info : GroupeInfo) : GenState :=
  match PyDict.get (curriculum config) (niveau groupe_info) with
  | Some cur => gen_matieres (nom groupe_info) (matieres_obligatoires cur) st
  | None => st
  end.

Definition generate_cours_from_config (config : Config) : list Cours :=
  (fold_left (gen_groupe config) (groupes_eleves config) ([], 0)).1.

(** The expansion order in the words of the specification: groups in
    configuration order, then the subjects of the group's level in their
    order, then the occurrences of the subject. *)
Definition groupe_order (config : Config) (g : GroupeInfo)
    : list (string * string) :=
  match PyDict.get (curriculum config) (niveau g) with
  | Some cur =>
      flat_map (λ mn : string * Z, replicate (Z.to_nat mn.2) (nom g, mn.1))
               (matieres_obligatoires cur)
  | None => []
  end.

Definition expansion_order (config : Config) : list (string * string) :=
  flat_map (groupe_order config) (groupes_eleves config).

(** Sequence ids handed out along a list, starting from [n]. *)
Definition number_from (n : nat) (l : list (string * string)) : list Cours :=
  imap (λ i gm, (gm, n + i)) l.

(** ** [validate_config] *)

(** One constructor per message appended to [errors], with the values the
    message interpolates. *)
Inductive ConfigError : Type :=
| MatiereInconnue (prof_nom matiere : string)
| AucunProfesseur (matiere niveau : string)
| AucuneSalle (matiere salle_requise : string).

Definition profs_competents (config : Config) (matiere : string)
    : list (string * ProfInfo) :=
  filter (λ p, matiere ∈ matieres_enseignees p.2) (professeurs config).

Definition validate_config (config : Config) : list ConfigError :=
  let matieres_existantes : gset string :=
    list_to_set (PyDict.keys (matieres config)) in
  let types_salles_disponibles : gset string :=
    list_to_set ((λ s, type s.2) <$> salles config) in
  flat_map (λ p,
      flat_map (λ matiere,
          if decide (matiere ∉ matieres_existantes)
          then [MatiereInconnue p.1 matiere] else [])
        (matieres_enseignees p.2))
    (professeurs config)
  ++ flat_map (λ nc,
      flat_map (λ matiere,
          match profs_competents config matiere with
          | [] => [AucunProfesseur matiere nc.1]
          | _ :: _ => []
          end)
        (PyDict.keys (matieres_obligatoires nc.2)))
    (curriculum config)
  ++ flat_map (λ m,
      if decide (salle_requise m.2 ∉ types_salles_disponibles)
      then [AucuneSalle m.1 (salle_requise m.2)] else [])
    (matieres config).

(** ** The constraint model handed to the solver *)

(** The key of [assignments]:
    [(groupe, matiere, cours_id, prof, salle, jour, heure)].  A decision
    variable is identified with its key. *)
Record Key := {
  k_groupe : string;
  k_matiere : string;
  k_cours_id : nat;
  k_prof : string;
  k_salle : string;
  k_jour : string;
  k_heure : string }.

#[global] Instance Key_eq_dec : EqDecision Key.
Proof. solve_decision. Defined.

(** [assignments[key] = ...]: a key already present keeps its place. *)
Definition add_key (key : Key) (assignments : list Key) : list Key :=
  if decide (key ∈ assignments) then assignments else assignments ++ [key].

Inductive Constraint : Type :=
| AddExactlyOne (vars : list Key)
| AddAtMostOne (vars : list Key).

Record CpModel := {
  variables : list Key;
  constraints : list Constraint }.

Inductive Status : Type :=
| UNKNOWN | MODEL_INVALID | FEASIBLE | INFEASIBLE | OPTIMAL.

#[global] Instance Status_eq_dec : EqDecision Status.
Proof. solve_decision. Defined.

(** [professeurs = {p: pinfo["matieres_enseignees"] ...}] *)
Definition professeurs_of (config : Config) : list (string * list string) :=
  (λ p, (p.1, matieres_enseignees p.2)) <$> professeurs config.

(** [infos_matieres = {m: {"salle_requise": ...} ...}]; the one-entry inner
    dictionary is represented by its value. *)
Definition infos_matieres_of (config : Config) : list (string * string) :=
  (λ m, (m.1, salle_requise m.2)) <$> matieres config.

Section Encoding.
Context (config : Config).
Let infos_matieres := infos_matieres_of config.

(** Loops over the keys of a dictionary that read the dictionary at the
    loop variable ([professeurs[prof]], [salles[salle]]) are loops over
    its items. *)

Definition vars_heures (prof_info : ProfInfo) (mk : string → Key)
    (assignments : list Key) : list Key :=
  fold_left (λ acc heure,
      if decide (heure ∈ heures_indisponibles (contraintes prof_info))
      then acc else add_key (mk heure) acc)
    (heures (planning config)) assignments.

Definition vars_jours (prof_info : ProfInfo) (mk : string → string → Key)
    (assignments : list Key) : list Key :=
  fold_left (λ acc jour,
      if decide (jour ∈ jours_indisponibles (contraintes prof_info))
      then acc else vars_heures prof_info (mk jour) acc)
    (jours (planning config)) assignments.

Definition vars_salles (c : Cours) (prof : string * ProfInfo)
    (assignments : list Key) : result (list Key) :=
  for_each (λ acc (salle : string * SalleInfo),
      type_salle_requis ← getitem infos_matieres (cours_matiere c);
      if decide (type salle.2 ≠ type_salle_requis) then Ok acc
      else Ok (vars_jours prof.2
                 (λ jour heure,
                    {| k_groupe := cours_groupe c;
                       k_matiere := cours_matiere c;
                       k_cours_id := cours_ident c;
                       k_prof := prof.1;
                       k_salle := salle.1;
                       k_jour := jour;
                       k_heure := heure |}) acc))
    (salles config) assignments.

Definition vars_profs (c : Cours) (assignments : list Key)
    : result (list Key) :=
  for_each (λ acc (prof : string * ProfInfo),
      if decide (cours_matiere c ∉ matieres_enseignees prof.2) then Ok acc
      else vars_salles c prof acc)
    (professeurs config) assignments.

Definition create_variables (cours_a_planifier : list Cours)
    : result (list Key) :=
  for_each (λ acc c, vars_profs c acc) cours_a_planifier [].

(** A constraint is added only for a non-empty list of variables. *)
Definition add_if_any (mk : list Key → Constraint) (vars : list Key)
    : list Constraint :=
  match vars with [] => [] | _ :: _ => [mk vars] end.

(** C1: every course takes place exactly once. *)
Definition contraintes_cours (cours_a_planifier : list Cours)
    (assignments : list Key) : list Constraint :=
  flat_map (λ c,
      add_if_any AddExactlyOne
        (filter (λ key, k_cours_id key = cours_ident c) assignments))
    cours_a_planifier.

(** C2, C3, C4: a teacher, a room, a group has one course at a time. *)
Definition contraintes_ressource (proj : Key → string)
    (ressources : list string) (assignments : list Key) : list Constraint :=
  flat_map (λ r,
      flat_map (λ jour,
          flat_map (λ heure,
              add_if_any AddAtMostOne
                (filter (λ key, proj key = r ∧ k_jour key = jour
                                ∧ k_heure key = heure) assignments))
            (heures (planning config)))
        (jours (planning config)))
    ressources.

Definition build_model (cours_a_planifier : list Cours)
    : result CpModel :=
  assignments ← create_variables cours_a_planifier;
  Ok {| variables := assignments;
        constraints :=
          contraintes_cours cours_a_planifier assignments
          ++ contraintes_ressource k_prof
               (PyDict.keys (professeurs config)) assignments
          ++ contraintes_ressource k_salle
               (PyDict.keys (salles config)) assignments
          ++ contraintes_ressource k_groupe
               (nom <$> groupes_eleves config) assignments |}.

End Encoding.

(** The four eligibility rules of a key, re-checked on the configuration. *)
Definition eligible (config : Config) (key : Key) : Prop :=
  ∃ prof_info salle_info matiere_info,
    (k_prof key, prof_info) ∈ professeurs config
    ∧ (k_salle key, salle_info) ∈ salles config
    ∧ PyDict.get (matieres config) (k_matiere key) = Some matiere_info
    ∧ k_matiere key ∈ matieres_enseignees prof_info
    ∧ type salle_info = salle_requise matiere_info
    ∧ (k_jour key ∉ jours_indisponibles (contraintes prof_info))
    ∧ (k_heure key ∉ heures_indisponibles (contraintes prof_info)).

(** ** Decoding the solver's answer *)

(** A time slot [(jour, heure)]. *)
Definition Creneau : Type := string * string.

(** An entry of the schedule: [(jour, heure, matiere, prof, salle)]. *)
Record Entry := {
  e_jour : string;
  e_heure : string;
  e_matiere : string;
  e_prof : string;
  e_salle : string }.

#[global] Instance Entry_eq_dec : EqDecision Entry.
Proof. solve_decision. Defined.

Definition e_creneau (e : Entry) : Creneau := (e_jour e, e_heure e).

(** [solution]: group name to the list of its entries. *)
Definition Solution : Type := list (string * list Entry).

Definition entry_of_key (key : Key) : Entry :=
  {| e_jour := k_jour key; e_heure := k_heure key;
     e_matiere := k_matiere key; e_prof := k_prof key;
     e_salle := k_salle key |}.

(** [solution[groupe].append(...)] for every key whose variable is 1. *)
Definition decode (value : Key → bool) (assignments : list Key) : Solution :=
  fold_left (λ (solution : Solution) key,
      if value key
      then PyDict.update [] (λ l, l ++ [entry_of_key key])
                         (k_groupe key) solution
      else solution)
    assignments [].

(** The entries of a schedule in traversal order ([solution.items()], then
    each list), with their group. *)
Definition entries (solution : Solution) : list (string * Entry) :=
  flat_map (λ ge : string * list Entry, (λ e, (ge.1, e)) <$> ge.2) solution.

(** ** The diagnostic pass *)

(** One printed line:
    [{matiere}: {cours_matiere} cours, {n} prof(s), {n} salle(s)]. *)
Record DiagLine := {
  d_matiere : string;
  d_cours : nat;
  d_profs : nat;
  d_salles : nat }.

(** A comprehension whose condition may raise. *)
Fixpoint filter_r {A : Type} (p : A → result bool) (l : list A)
    : result (list A) :=
  match l with
  | [] => Ok []
  | x :: l' =>
      b ← p x;
      r ← filter_r p l';
      Ok (if b : bool then x :: r else r)
  end.

Definition diagnostic_matiere (config : Config)
    (cours_a_planifier : list Cours) (matiere : string) : result DiagLine :=
  let profs_competents :=
    filter (λ p : string * list string, matiere ∈ p.2)
           (professeurs_of config) in
  let cours_matiere_n :=
    length (filter (λ c, cours_matiere c = matiere) cours_a_planifier) in
  salles_compatibles ← filter_r (λ s : string * SalleInfo,
      requis ← getitem (infos_matieres_of config) matiere;
      Ok (bool_decide (type s.2 = requis))) (salles config);
  Ok {| d_matiere := matiere;
        d_cours := cours_matiere_n;
        d_profs := length profs_competents;
        d_salles := length salles_compatibles |}.

(** [for matiere in set(c[1] for c in cours_a_planifier)]: the set is
    visited in the order of [elements], which like Python's is fixed but
    unspecified. *)
Definition diagnostic (config : Config) (cours_a_planifier : list Cours)
    : result (list DiagLine) :=
  mapM (diagnostic_matiere config cours_a_planifier)
       (elements (list_to_set (cours_matiere <$> cours_a_planifier)
                    : gset string)).

(** ** [verifier_solution] *)

Inductive ResourceName : Type := Professeur | Salle | Groupe.

#[global] Instance ResourceName_eq_dec : EqDecision ResourceName.
Proof. solve_decision. Defined.

(** The lines printed by the validator, with the values they interpolate. *)
Inductive Message : Type :=
| ErreurCompetence (prof matiere : string)
| ErreurSalle (matiere salle_requise salle : string)
| ErreurNombre (nb_planifies nb_assignes : nat)
| ErreurConflit (resource_name : ResourceName) (resource : string)
                (count : nat) (slot : Creneau)
| SolutionValide (cours_assignes : nat).

#[global] Instance Message_eq_dec : EqDecision Message.
Proof. solve_decision. Defined.

Definition is_erreur (m : Message) : bool :=
  match m with SolutionValide _ => false | _ => true end.

(** The locals of [verifier_solution]; [sortie] is what has been printed. *)
Record VState := {
  is_valid : bool;
  cours_assignes : nat;
  conflits_prof : list (string * list Creneau);
  conflits_salle : list (string * list Creneau);
  conflits_groupe : list (string * list Creneau);
  sortie : list Message }.

Definition fail_with (m : Message) (st : VState) : VState :=
  {| is_valid := false;
     cours_assignes := cours_assignes st;
     conflits_prof := conflits_prof st;
     conflits_salle := conflits_salle st;
     conflits_groupe := conflits_groupe st;
     sortie := sortie st ++ [m] |}.

Definition record_entry (groupe : string) (e : Entry) (st : VState) : VState :=
  let push r := PyDict.update [] (λ l, l ++ [e_creneau e]) r in
  {| is_valid := is_valid st;
     cours_assignes := S (cours_assignes st);
     conflits_prof := push (e_prof e) (conflits_prof st);
     conflits_salle := push (e_salle e) (conflits_salle st);
     conflits_groupe := push groupe (conflits_groupe st);
     sortie := sortie st |}.

(** [collections.Counter(slots)] *)
Definition Counter (slots : list Creneau) : list (Creneau * nat) :=
  fold_left (λ c slot, PyDict.update 0 S slot c) slots [].

Definition conflits_messages (resource_name : ResourceName)
    (conflicts_dict : list (string * list Creneau)) : list Message :=
  flat_map (λ rs : string * list Creneau,
      flat_map (λ sc : Creneau * nat,
          if decide (1 < sc.2)
          then [ErreurConflit resource_name rs.1 sc.2 sc.1] else [])
        (Counter rs.2))
    conflicts_dict.

Section Verifier.
Context (professeurs : list (string * list string))
        (salles : list (string * SalleInfo))
        (infos_matieres : list (string * string)).

Definition verifier_entry (st : VState) (ge : string * Entry)
    : result VState :=
  let st := record_entry ge.1 ge.2 st in
  enseignees ← getitem professeurs (e_prof ge.2);
  let st :=
    if decide (e_matiere ge.2 ∉ enseignees)
    then fail_with (ErreurCompetence (e_prof ge.2) (e_matiere ge.2)) st
    else st in
  salle_requise ← getitem infos_matieres (e_matiere ge.2);
  salle_info ← getitem salles (e_salle ge.2);
  Ok (if decide (type salle_info ≠ salle_requise)
      then fail_with (ErreurSalle (e_matiere ge.2) salle_requise
                                  (e_salle ge.2)) st
      else st).

(** The returned flag together with the printed lines.  Tests 4 to 6
      clear [is_valid] exactly when they print a line. *)
Definition verifier_solution (solution : Solution)
    (cours_planifies : list Cours) : result (bool * list Message) :=
  st ← for_each verifier_entry (entries solution)
        {| is_valid := true; cours_assignes := 0; conflits_prof := [];
           conflits_salle := []; conflits_groupe := []; sortie := [] |};
  let st :=
    if decide (cours_assignes st ≠ length cours_planifies)
    then fail_with (ErreurNombre (length cours_planifies)
                                 (cours_assignes st)) st
    else st in
  let conflits :=
    conflits_messages Professeur (conflits_prof st)
    ++ conflits_messages Salle (conflits_salle st)
    ++ conflits_messages Groupe (conflits_groupe st) in
  let valid := bool_decide (is_valid st = true ∧ conflits = []) in
  Ok (valid,
      sortie st ++ conflits
      ++ (if valid then [SolutionValide (cours_assignes st)] else [])).

End Verifier.

(** ** [afficher_salles_libres] *)

(** [salles_occupees[(jour, heure)].add(salle)] for every entry of [es],
    from the dictionary [d]. *)
Definition occuper (es : list (string * Entry))
    (d : list (Creneau * gset string)) : list (Creneau * gset string) :=
  fold_left (λ d (ge : string * Entry),
      PyDict.update ∅ (λ s, s ∪ {[e_salle ge.2]}) (e_creneau ge.2) d)
    es d.

Definition salles_occupees (solution : Solution)
    : list (Creneau * gset string) :=
  occuper (entries solution) [].

(** [sorted] on strings: code-point order. *)
Definition sorted (l : list string) : list string :=
  merge_sort (λ a b : string, String.leb a b) l.

(** The first entry found in the room at the slot:
    [(groupe, matiere, prof)]. *)
Definition occupant (solution : Solution) (creneau : Creneau) (salle : string)
    : option (string * string * string) :=
  (λ ge : string * Entry, (ge.1, e_matiere ge.2, e_prof ge.2)) <$>
  head (filter (λ ge : string * Entry,
                  e_creneau ge.2 = creneau ∧ e_salle ge.2 = salle)
               (entries solution)).

Record OccupeeLine := {
  o_salle : string;
  o_type : string;
  o_capacite : option Z;
  o_occupant : option (string * string * string) }.

(** What is shown for one slot.  The lines of the free rooms only read
    [salles] at rooms taken from its own keys and are not kept. *)
Record CreneauReport := {
  c_creneau : Creneau;
  c_salles_occupees : gset string;
  c_lignes_occupees : list OccupeeLine;
  c_salles_libres : gset string }.

Definition rapport_creneau (solution : Solution)
    (salles : list (string * SalleInfo))
    (occupees : list (Creneau * gset string)) (creneau : Creneau)
    : result CreneauReport :=
  let salles_occupees_creneau := PyDict.find ∅ occupees creneau in
  let salles_libres : gset string :=
    list_to_set (PyDict.keys salles) ∖ salles_occupees_creneau in
  lignes ← mapM (λ salle,
      salle_info ← getitem salles salle;
      Ok {| o_salle := salle;
            o_type := type salle_info;
            o_capacite := capacite salle_info;
            o_occupant := occupant solution creneau salle |})
    (sorted (elements salles_occupees_creneau));
  Ok {| c_creneau := creneau;
        c_salles_occupees := salles_occupees_creneau;
        c_lignes_occupees := lignes;
        c_salles_libres := salles_libres |}.

(** The time-slot grid in display order: days, then hours. *)
Definition grille (p : Planning) : list Creneau :=
  flat_map (λ jour, (λ heure, (jour, heure)) <$> heures p) (jours p).

(** [occupation_par_salle[salle] += 1] for every slot and room of it. *)
Definition occupation_par_salle (occupees : list (Creneau * gset string))
    : list (string * nat) :=
  fold_left (λ acc (cs : Creneau * gset string),
      fold_left (λ acc salle, PyDict.update 0 S salle acc)
                (elements cs.2) acc)
    occupees [].

(** [(a / b) * 100] on the exact quotient (the program rounds it to a
    float); division by zero raises. *)
Definition pourcentage (a b : nat) : result Q :=
  if decide (b = 0) then Raise ZeroDivisionError
  else Ok ((inject_Z (Z.of_nat a) / inject_Z (Z.of_nat b)) * 100)%Q.

(** [max(items, key=...)] and [min(items, key=...)]: the first extremal
    item in iteration order. *)
Fixpoint py_max_from {A : Type} (key : A → nat) (best : A) (l : list A) : A :=
  match l with
  | [] => best
  | x :: l' => py_max_from key (if decide (key best < key x) then x else best) l'
  end.

Fixpoint py_min_from {A : Type} (key : A → nat) (best : A) (l : list A) : A :=
  match l with
  | [] => best
  | x :: l' => py_min_from key (if decide (key x < key best) then x else best) l'
  end.

(** [None] when the dictionary is empty (nothing is printed). *)
Definition py_max {A : Type} (key : A → nat) (l : list A) : option A :=
  match l with [] => None | x :: l' => Some (py_max_from key x l') end.

Definition py_min {A : Type} (key : A → nat) (l : list A) : option A :=
  match l with [] => None | x :: l' => Some (py_min_from key x l') end.

Definition occupation_par_creneau (occupees : list (Creneau * gset string))
    : list (Creneau * nat) :=
  (λ cs : Creneau * gset string, (cs.1, size cs.2)) <$> occupees.

Definition total_occupations (occupees : list (Creneau * gset string)) : nat :=
  sum_list ((λ cs : Creneau * gset string, size cs.2) <$> occupees).

Record SalleStat := {
  s_salle : string;
  s_nb_occupations : nat;
  s_taux : Q }.

Record Rapport := {
  r_creneaux : list CreneauReport;
  r_salles : list SalleStat;
  r_total_occupations : nat;
  r_taux_global : Q;
  r_creneau_max : option (Creneau * nat);
  r_creneau_min : option (Creneau * nat) }.

Definition afficher_salles_libres (solution : Solution) (config : Config)
    : result Rapport :=
  let jours := jours (planning config) in
  let heures := heures (planning config) in
  let salles := salles config in
  let occupees := salles_occupees solution in
  creneaux ← mapM (rapport_creneau solution salles occupees)
                  (grille (planning config));
  let total_creneaux := length jours * length heures in
  let total_salles := length salles in
  let total_creneaux_salles := total_creneaux * total_salles in
  let par_salle := occupation_par_salle occupees in
  stats ← mapM (λ salle,
      let nb_occupations := PyDict.find 0 par_salle salle in
      taux ← pourcentage nb_occupations total_creneaux;
      Ok {| s_salle := salle;
            s_nb_occupations := nb_occupations;
            s_taux := taux |})
    (sorted (PyDict.keys salles));
  taux_global ← pourcentage (total_occupations occupees) total_creneaux_salles;
  Ok {| r_creneaux := creneaux;
        r_salles := stats;
        r_total_occupations := total_occupations occupees;
        r_taux_global := taux_global;
        r_creneau_max := py_max snd (occupation_par_creneau occupees);
        r_creneau_min := py_min snd (occupation_par_creneau occupees) |}.

(** ** [export_salles_libres_to_json] *)

(** [d[k] = v] on a dictionary keyed by strings. *)
Definition setitem {V : Type} (k : string) (v : V) (d : list (string * V))
    : list (string * V) :=
  PyDict.update v (λ _, v) k d.

(** The key [f"{jour} {heure}"]. *)
Definition creneau_str (creneau : Creneau) : string :=
  String.append creneau.1 (String.append " " creneau.2).

(** [occupation_details[creneau][salle] = {groupe, matiere, professeur}] *)
Definition occupation_details (solution : Solution)
    : list (string * list (string * (string * string * string))) :=
  fold_left (λ d (ge : string * Entry),
      PyDict.update [] (setitem (e_salle ge.2)
                          (ge.1, e_matiere ge.2, e_prof ge.2))
                    (creneau_str (e_creneau ge.2)) d)
    (entries solution) [].

Record ExportOccupee := {
  xo_nom : string;
  xo_type : string;
  xo_capacite : option Z;
  xo_occupe_par : option (string * string * string) }.

Record ExportLibre := {
  xl_nom : string;
  xl_type : string;
  xl_capacite : option Z;
  xl_equipements : list string }.

Record ExportCreneau := {
  x_jour : string;
  x_heure : string;
  x_salles_occupees : list ExportOccupee;
  x_salles_libres : list ExportLibre }.

(** The exported document without the pass-through metadata; the rounded
    rate of a room is left out of [x_occupation_par_salle]. *)
Record ExportData := {
  x_disponibilite_salles : list (string * ExportCreneau);
  x_total_salles : nat;
  x_total_creneaux : nat;
  x_occupation_par_salle : list (string * nat) }.

Definition export_creneau (salles : list (string * SalleInfo))
    (occupees : list (Creneau * gset string))
    (details : list (string * list (string * (string * string * string))))
    (creneau : Creneau) : result ExportCreneau :=
  let salles_occupees_creneau := PyDict.find ∅ occupees creneau in
  let salles_libres : gset string :=
    list_to_set (PyDict.keys salles) ∖ salles_occupees_creneau in
  occ ← mapM (λ salle,
      salle_info ← getitem salles salle;
      Ok {| xo_nom := salle;
            xo_type := type salle_info;
            xo_capacite := capacite salle_info;
            xo_occupe_par :=
              PyDict.get (PyDict.find [] details (creneau_str creneau))
                         salle |})
    (sorted (elements salles_occupees_creneau));
  libres ← mapM (λ salle,
      salle_info ← getitem salles salle;
      Ok {| xl_nom := salle;
            xl_type := type salle_info;
            xl_capacite := capacite salle_info;
            xl_equipements := equipements salle_info |})
    (sorted (elements salles_libres));
  Ok {| x_jour := creneau.1; x_heure := creneau.2;
        x_salles_occupees := occ; x_salles_libres := libres |}.

(** [None] is the early [return] on an empty schedule. *)
Definition export_salles_libres_to_json (solution : Solution) (config : Config)
    : result (option ExportData) :=
  match solution with
  | [] => Ok None
  | _ :: _ =>
      let salles := salles config in
      let occupees := salles_occupees solution in
      let details := occupation_details solution in
      let total_creneaux :=
        length (jours (planning config)) * length (heures (planning config)) in
      dispo ← for_each (λ acc creneau,
          r ← export_creneau salles occupees details creneau;
          Ok (setitem (creneau_str creneau) r acc))
        (grille (planning config)) [];
      stats ← for_each (λ acc salle,
          let nb_occupations :=
            length (filter (λ cs : Creneau * gset string, salle ∈ cs.2)
                           occupees) in
          _ ← pourcentage nb_occupations total_creneaux;
          Ok (setitem salle nb_occupations acc))
        (PyDict.keys salles) [];
      Ok (Some {| x_disponibilite_salles := dispo;
                  x_total_salles := length salles;
                  x_total_creneaux := total_creneaux;
                  x_occupation_par_salle := stats |})
  end.

(** ** [create_schedule_from_config] *)

(** The external solver: parameters and model to a status and the value of
    every variable ([solver.Value(var) == 1]). *)
Definition Solver : Type := ParametresSolveur → CpModel → Status * (Key → bool).

Inductive Outcome : Type :=
| NonCharge
| ConfigInvalide (errors : list ConfigError)
| SansSolution (status : Status) (diag : list DiagLine)
| Planifie (solution : Solution) (rapport : Rapport)
           (valide : bool) (messages : list Message).

(** The value returned to the caller. *)
Definition returned (o : Outcome) : option Solution :=
  match o with
  | Planifie solution _ _ _ => Some solution
  | _ => None
  end.

(** The printing of the schedule class by class reads only keys that were
    checked when the variables were created and is left out. *)
Definition create_schedule_from_config (solve : Solver)
    (loaded : option Config) : result Outcome :=
  match loaded with
  | None => Ok NonCharge
  | Some config =>
      let errors := validate_config config in
      match errors with
      | _ :: _ => Ok (ConfigInvalide errors)
      | [] =>
          let cours_a_planifier := generate_cours_from_config config in
          model ← build_model config cours_a_planifier;
          let sv := solve (parametres_solveur config) model in
          if decide (sv.1 = OPTIMAL ∨ sv.1 = FEASIBLE) then
            let solution := decode sv.2 (variables model) in
            rapport ← afficher_salles_libres solution config;
            vm ← verifier_solution (professeurs_of config) (salles config)
                   (infos_matieres_of config) solution cours_a_planifier;
            Ok (Planifie solution rapport vm.1 vm.2)
          else
            diag ← diagnostic config cours_a_planifier;
            Ok (SansSolution sv.1 diag)
      end
  end.

(** ** Notions used to state the properties *)

(** The invariant of the loops that fill [assignments]. *)
Definition admis (config : Config) (cours_a_planifier : list Cours)
    (keys : list Key) : Prop :=
  ∀ key, key ∈ keys →
    (k_groupe key, k_matiere key, k_cours_id key) ∈ cours_a_planifier
    ∧ k_jour key ∈ jours (planning config)
    ∧ k_heure key ∈ heures (planning config)
    ∧ eligible config key.

(** The fail-fast reading of the specification: a course of the list without
    any candidate key makes the encoding raise. *)
Definition raises_without_candidate (config : Config) : Prop :=
  ∀ keys c,
    create_variables config (generate_cours_from_config config) = Ok keys →
    c ∈ generate_cours_from_config config →
    filter (λ key, k_cours_id key = cours_ident c) keys = [] →
    ∃ e, build_model config (generate_cours_from_config config) = Raise e.

(** The distinct elements of a list in the order of their first
    occurrence: the iteration order of a dictionary filled along it. *)
Fixpoint first_occurrences {A : Type} `{EqDecision A} (l : list A) : list A :=
  match l with
  | [] => []
  | x :: l' => x :: filter (λ y, y ≠ x) (first_occurrences l')
  end.

(** The rooms of the entries of a slot. *)
Definition salles_du_creneau (solution : Solution) (creneau : Creneau)
    : gset string :=
  list_to_set
    (e_salle ∘ snd <$>
       filter (λ ge : string * Entry, e_creneau ge.2 = creneau)
              (entries solution)).

(** The occupied (slot, room) pairs of a schedule. *)
Definition paires_occupees (solution : Solution) : gset (Creneau * string) :=
  list_to_set ((λ ge : string * Entry, (e_creneau ge.2, e_salle ge.2))
                 <$> entries solution).

(** The busiest and the quietest slot as the specification words them:
    chosen over the grid, the first extremal slot in (day, hour) order. *)
Definition occupation_grille (solution : Solution) (config : Config)
    : list (Creneau * nat) :=
  (λ creneau, (creneau, size (salles_du_creneau solution creneau)))
    <$> grille (planning config).

Definition creneau_max_grille (solution : Solution) (config : Config)
    : option (Creneau * nat) :=
  py_max snd (occupation_grille solution config).

Definition creneau_min_grille (solution : Solution) (config : Config)
    : option (Creneau * nat) :=
  py_min snd (occupation_grille solution config).

(** Every entry of the schedule lies on the planning grid and in a room of
    the configuration. *)
Definition sur_la_grille (solution : Solution) (config : Config) : Prop :=
  ∀ ge, ge ∈ entries solution →
    e_jour ge.2 ∈ jours (planning config)
    ∧ e_heure ge.2 ∈ heures (planning config)
    ∧ e_salle ge.2 ∈ PyDict.keys (salles config).

(** A rate is a percentage. *)
Definition est_pourcentage (q : Q) : Prop := (0 <= q)%Q ∧ (q <= 100)%Q.

(** [best] is the first item of [l] with the largest (smallest) count:
    nothing before it reaches its count, nothing after it passes it. *)
Definition first_max (l : list (Creneau * nat)) (best : Creneau * nat) : Prop :=
  ∃ l1 l2, l = l1 ++ best :: l2
    ∧ (∀ x, x ∈ l1 → x.2 < best.2) ∧ (∀ x, x ∈ l2 → x.2 ≤ best.2).

Definition first_min (l : list (Creneau * nat)) (best : Creneau * nat) : Prop :=
  ∃ l1 l2, l = l1 ++ best :: l2
    ∧ (∀ x, x ∈ l1 → best.2 < x.2) ∧ (∀ x, x ∈ l2 → best.2 ≤ x.2).

(** The occupied and the free rooms of a slot split the rooms of the
    configuration. *)
Definition partition_salles (config : Config) (occupees libres : gset string)
    : Prop :=
  libres = list_to_set (PyDict.keys (salles config)) ∖ occupees
  ∧ occupees ## libres
  ∧ occupees ∪ libres = list_to_set (PyDict.keys (salles config)).

(** What an exported slot says of the schedule. *)
Definition export_creneau_ok (solution : Solution) (config : Config)
    (kx : string * ExportCreneau) : Prop :=
  (x_jour kx.2, x_heure kx.2) ∈ grille (planning config)
  ∧ kx.1 = creneau_str (x_jour kx.2, x_heure kx.2)
  ∧ list_to_set (xo_nom <$> x_salles_occupees kx.2)
    = salles_du_creneau solution (x_jour kx.2, x_heure kx.2)
  ∧ partition_salles config
      (list_to_set (xo_nom <$> x_salles_occupees kx.2))
      (list_to_set (xl_nom <$> x_salles_libres kx.2)).

(** ** What the validator reports *)

(** The resource of an entry for each of the three conflict tests. *)
Definition ressource (name : ResourceName) (ge : string * Entry) : string :=
  match name with
  | Professeur => e_prof ge.2
  | Salle => e_salle ge.2
  | Groupe => ge.1
  end.

(** The entries of a resource at a slot. *)
Definition simultanes (solution : Solution) (name : ResourceName)
    (resource : string) (slot : Creneau) : list (string * Entry) :=
  filter (λ ge, ressource name ge = resource ∧ e_creneau ge.2 = slot)
         (entries solution).

(** [conflits_prof], [conflits_salle] and [conflits_groupe] after the
    entries [es]: the slots of every resource, in traversal order. *)
Definition grouper (name : ResourceName) (es : list (string * Entry))
    : list (string * list Creneau) :=
  fold_left (λ d ge,
      PyDict.update [] (λ l, l ++ [e_creneau ge.2]) (ressource name ge) d)
    es [].

(** Every teacher, subject and room of the schedule is a key of the
    dictionaries given to the validator. *)
Definition references_connues (professeurs : list (string * list string))
    (salles : list (string * SalleInfo))
    (infos_matieres : list (string * string)) (solution : Solution) : Prop :=
  ∀ ge, ge ∈ entries solution →
    e_prof ge.2 ∈ PyDict.keys professeurs
    ∧ e_matiere ge.2 ∈ PyDict.keys infos_matieres
    ∧ e_salle ge.2 ∈ PyDict.keys salles.

(** The entries of a schedule that share their room and slot with another
    entry, by group and subject. *)
Definition en_conflit_de_salle (solution : Solution) : list (string * string) :=
  (λ ge : string * Entry, (ge.1, e_matiere ge.2)) <$>
  filter (λ ge : string * Entry,
            1 < length (simultanes solution Salle (e_salle ge.2)
                                   (e_creneau ge.2)))
         (entries solution).

(** The reading of the specification: the groups and subjects of the
    entries in a room conflict can be read off what the validator returns
    and prints. *)
Definition nomme_les_entrees
    (lire : bool * list Message → list (string * string)) : Prop :=
  ∀ professeurs salles infos_matieres solution cours_planifies out,
    verifier_solution professeurs salles infos_matieres solution
                      cours_planifies = Ok out →
    lire out = en_conflit_de_salle solution.

(** The lines printed for one entry by tests 1 and 2. *)
Definition erreurs_entree (professeurs : list (string * list string))
    (salles : list (string * SalleInfo))
    (infos_matieres : list (string * string)) (ge : string * Entry)
    : list Message :=
  match PyDict.get professeurs (e_prof ge.2) with
  | Some enseignees =>
      if decide (e_matiere ge.2 ∉ enseignees)
      then [ErreurCompetence (e_prof ge.2) (e_matiere ge.2)] else []
  | None => []
  end
  ++ match PyDict.get infos_matieres (e_matiere ge.2),
           PyDict.get salles (e_salle ge.2) with
     | Some salle_requise, Some salle_info =>
         if decide (type salle_info ≠ salle_requise)
         then [ErreurSalle (e_matiere ge.2) salle_requise (e_salle ge.2)]
         else []
     | _, _ => []
     end.

(** The state of the validator after the entries [es]. *)
Definition verifier_inv (professeurs : list (string * list string))
    (salles : list (string * SalleInfo))
    (infos_matieres : list (string * string))
    (es : list (string * Entry)) (st : VState) : Prop :=
  cours_assignes st = length es
  ∧ conflits_prof st = grouper Professeur es
  ∧ conflits_salle st = grouper Salle es
  ∧ conflits_groupe st = grouper Groupe es
  ∧ sortie st = flat_map (erreurs_entree professeurs salles infos_matieres) es
  ∧ is_valid st = bool_decide (sortie st = []).

(** ** [export_schedule_to_json] *)

(** One exported course: the entry and the emoji of its subject. *)
Record ExportCours := {
  xc_jour : string;
  xc_heure : string;
  xc_matiere : string;
  xc_professeur : string;
  xc_salle : string;
  xc_emoji : string }.

Definition export_cours (config : Config) (e : Entry) : result ExportCours :=
  matiere_info ← getitem (matieres config) (e_matiere e);
  Ok {| xc_jour := e_jour e; xc_heure := e_heure e;
        xc_matiere := e_matiere e; xc_professeur := e_prof e;
        xc_salle := e_salle e;
        xc_emoji := default EmptyString (emoji matiere_info) |}.

(** The ["emploi_du_temps"] part of the exported document; [None] is the
    early [return] on an empty schedule. *)
Definition export_schedule_to_json (solution : Solution) (config : Config)
    : result (option (list (string * list ExportCours))) :=
  match solution with
  | [] => Ok None
  | _ :: _ =>
      emploi ← for_each (λ acc (gl : string * list Entry),
          for_each (λ acc e,
              x ← export_cours config e;
              Ok (PyDict.update [] (λ l, l ++ [x]) gl.1 acc))
            gl.2 (setitem gl.1 [] acc))
        solution [];
      Ok (Some emploi)
  end.

(** The entry an exported course was made from. *)
Definition entry_of_export (x : ExportCours) : Entry :=
  {| e_jour := xc_jour x; e_heure := xc_heure x; e_matiere := xc_matiere x;
     e_prof := xc_professeur x; e_salle := xc_salle x |}.

(** ** Notions used to state further properties *)

(** What the solver promises for a constraint: [AddExactlyOne] and
    [AddAtMostOne] count the variables at 1. *)
Definition satisfait (value : Key → bool) (c : Constraint) : Prop :=
  match c with
  | AddExactlyOne vars => length (filter (λ key, value key = true) vars) = 1
  | AddAtMostOne vars => length (filter (λ key, value key = true) vars) ≤ 1
  end.

(** The key of a course, a teacher, a room and a slot. *)
Definition key_of (c : Cours) (prof salle jour heure : string) : Key :=
  {| k_groupe := cours_groupe c; k_matiere := cours_matiere c;
     k_cours_id := cours_ident c; k_prof := prof; k_salle := salle;
     k_jour := jour; k_heure := heure |}.

(** The three families of exclusivity constraints. *)
Definition key_ressource (name : ResourceName) (key : Key) : string :=
  match name with
  | Professeur => k_prof key
  | Salle => k_salle key
  | Groupe => k_groupe key
  end.

Definition liste_ressources (config : Config) (name : ResourceName)
    : list string :=
  match name with
  | Professeur => PyDict.keys (professeurs config)
  | Salle => PyDict.keys (salles config)
  | Groupe => nom <$> groupes_eleves config
  end.

(** What the validator tests, entry by entry and resource by resource. *)
Definition entree_conforme (professeurs : list (string * list string))
    (salles : list (string * SalleInfo))
    (infos_matieres : list (string * string)) (ge : string * Entry) : Prop :=
  ∃ enseignees salle_requise salle_info,
    PyDict.get professeurs (e_prof ge.2) = Some enseignees
    ∧ PyDict.get infos_matieres (e_matiere ge.2) = Some salle_requise
    ∧ PyDict.get salles (e_salle ge.2) = Some salle_info
    ∧ e_matiere ge.2 ∈ enseignees
    ∧ type salle_info = salle_requise.

Definition sans_conflit (solution : Solution) : Prop :=
  ∀ name resource slot, length (simultanes solution name resource slot) ≤ 1.

#[global] Instance satisfait_dec value c : Decision (satisfait value c).
Proof. destruct c; simpl; apply _. Defined.

(** ** Example configurations *)

Module Examples.

Definition toujours : Contraintes :=
  {| jours_indisponibles := []; heures_indisponibles := [] |}.

(** Two levels with a curriculum and a third group, ["4A"], whose level
    has none. *)
Definition college : Config :=
  {| groupes_eleves :=
       [ {| nom := "6A"; niveau := "6" |};
         {| nom := "4A"; niveau := "4" |};
         {| nom := "5A"; niveau := "5" |} ];
     matieres :=
       [ ("Math", {| salle_requise := "standard"; emoji := None |});
         ("Info", {| salle_requise := "computer_lab"; emoji := None |}) ];
     professeurs :=
       [ ("Dupont",
          {| matieres_enseignees := ["Math"];
             contraintes := {| jours_indisponibles := ["Mardi"];
                               heures_indisponibles := [] |} |});
         ("Martin",
          {| matieres_enseignees := ["Info"; "Math"];
             contraintes := {| jours_indisponibles := [];
                               heures_indisponibles := ["9h"] |} |}) ];
     salles :=
       [ ("S1", {| type := "standard"; capacite := Some 30%Z;
                   equipements := [] |});
         ("Labo", {| type := "computer_lab"; capacite := Some 20%Z;
                     equipements := ["PC"] |}) ];
     curriculum :=
       [ ("6", {| matieres_obligatoires := [("Math", 2%Z); ("Info", 1%Z)] |});
         ("5", {| matieres_obligatoires := [("Math", 1%Z)] |}) ];
     planning := {| jours := ["Lundi"; "Mardi"]; heures := ["8h"; "9h"] |};
     parametres_solveur :=
       {| temps_max_seconds := 10%Z; log_progression := false |} |}.

(** One course whose only competent teacher is never available. *)
Definition sans_candidat : Config :=
  {| groupes_eleves := [ {| nom := "6A"; niveau := "6" |} ];
     matieres :=
       [ ("Math", {| salle_requise := "standard"; emoji := None |}) ];
     professeurs :=
       [ ("Dupont",
          {| matieres_enseignees := ["Math"];
             contraintes := {| jours_indisponibles := ["Lundi"];
                               heures_indisponibles := [] |} |}) ];
     salles :=
       [ ("S1", {| type := "standard"; capacite := None;
                   equipements := [] |}) ];
     curriculum := [ ("6", {| matieres_obligatoires := [("Math", 1%Z)] |}) ];
     planning := {| jours := ["Lundi"]; heures := ["8h"] |};
     parametres_solveur :=
       {| temps_max_seconds := 10%Z; log_progression := false |} |}.

(** Two courses of one group, one teacher, one room, two days. *)
Definition deux_jours : Config :=
  {| groupes_eleves := [ {| nom := "6A"; niveau := "6" |} ];
     matieres :=
       [ ("Math", {| salle_requise := "standard"; emoji := None |}) ];
     professeurs :=
       [ ("Dupont",
          {| matieres_enseignees := ["Math"]; contraintes := toujours |}) ];
     salles :=
       [ ("S1", {| type := "standard"; capacite := None;
                   equipements := [] |}) ];
     curriculum := [ ("6", {| matieres_obligatoires := [("Math", 2%Z)] |}) ];
     planning := {| jours := ["Lundi"; "Mardi"]; heures := ["8h"] |};
     parametres_solveur :=
       {| temps_max_seconds := 10%Z; log_progression := false |} |}.

(** The schedule decoded from [mardi_d_abord]: Tuesday comes first. *)
Definition emploi_inverse : Solution :=
  [ ("6A",
     [ {| e_jour := "Mardi"; e_heure := "8h"; e_matiere := "Math";
          e_prof := "Dupont"; e_salle := "S1" |};
       {| e_jour := "Lundi"; e_heure := "8h"; e_matiere := "Math";
          e_prof := "Dupont"; e_salle := "S1" |} ]) ].

(** A schedule for [college]: room S1 is taken in three slots, the
    laboratory in one, and Tuesday 9h is empty. *)
Definition emploi_college : Solution :=
  [ ("6A",
     [ {| e_jour := "Lundi"; e_heure := "8h"; e_matiere := "Info";
          e_prof := "Martin"; e_salle := "Labo" |};
       {| e_jour := "Lundi"; e_heure := "9h"; e_matiere := "Math";
          e_prof := "Dupont"; e_salle := "S1" |};
       {| e_jour := "Mardi"; e_heure := "8h"; e_matiere := "Math";
          e_prof := "Martin"; e_salle := "S1" |} ]);
    ("5A",
     [ {| e_jour := "Lundi"; e_heure := "8h"; e_matiere := "Math";
          e_prof := "Dupont"; e_salle := "S1" |} ]) ].

(** A solver that puts course 0 on Tuesday and course 1 on Monday. *)
Definition mardi_d_abord : Solver := λ _ _,
  (OPTIMAL,
   λ key, bool_decide (k_cours_id key = 0 ∧ k_jour key = "Mardi"
                       ∨ k_cours_id key = 1 ∧ k_jour key = "Lundi")).

(** Two hand-made schedules with two entries in room S1 on Monday 8h:
    groups 6A and 6B in Math, groups 5A and 5B in Physique. *)
Definition deux_profs : list (string * list string) :=
  [ ("Dupont", ["Math"; "Physique"]); ("Martin", ["Math"; "Physique"]) ].

Definition une_salle : list (string * SalleInfo) :=
  [ ("S1", {| type := "standard"; capacite := None; equipements := [] |}) ].

Definition deux_matieres : list (string * string) :=
  [ ("Math", "standard"); ("Physique", "standard") ].

Definition conflit_math : Solution :=
  [ ("6A", [ {| e_jour := "Lundi"; e_heure := "8h"; e_matiere := "Math";
                e_prof := "Dupont"; e_salle := "S1" |} ]);
    ("6B", [ {| e_jour := "Lundi"; e_heure := "8h"; e_matiere := "Math";
                e_prof := "Martin"; e_salle := "S1" |} ]) ].

Definition conflit_physique : Solution :=
  [ ("5A", [ {| e_jour := "Lundi"; e_heure := "8h"; e_matiere := "Physique";
                e_prof := "Dupont"; e_salle := "S1" |} ]);
    ("5B", [ {| e_jour := "Lundi"; e_heure := "8h"; e_matiere := "Physique";
                e_prof := "Martin"; e_salle := "S1" |} ]) ].

Definition deux_cours : list Cours := [ ("x", "y", 0); ("x", "y", 1) ].

(** The configuration [deux_jours] with no hour in the planning. *)
Definition sans_heures : Config :=
  {| groupes_eleves := groupes_eleves deux_jours;
     matieres := matieres deux_jours;
     professeurs := professeurs deux_jours;
     salles := salles deux_jours;
     curriculum := curriculum deux_jours;
     planning := {| jours := ["Lundi"; "Mardi"]; heures := [] |};
     parametres_solveur := parametres_solveur deux_jours |}.

(** A solver that reports no solution, and one that reports a feasible
    assignment with every variable at 0. *)
Definition infaisable : Solver := λ _ _, (INFEASIBLE, λ _, false).
Definition tout_a_zero : Solver := λ _ _, (FEASIBLE, λ _, false).

End Examples.

(** * Properties *)

(** Closes a decidable goal on concrete data by evaluation. *)
Ltac decide_by_compute :=
  apply (bool_decide_unpack _); vm_compute; exact I.

(** ** Curriculum expansion *)

Section Expansion.
Implicit Types (st : GenState) (l : list (string * string)).

Lemma number_from_app n l1 l2 :
  number_from n (l1 ++ l2)
  = number_from n l1 ++ number_from (n + length l1) l2.
Proof.
  unfold number_from. rewrite imap_app. f_equal.
  apply imap_ext; intros i x _; simpl. f_equal; lia.
Qed.

Lemma number_from_length n l : length (number_from n l) = length l.
Proof. apply length_imap. Qed.

Lemma number_from_ids n l : (number_from n l).*2 = seq n (length l).
Proof.
  revert n; induction l as [|x l IH]; intros n; [done|].
  change (x :: l) with ([x] ++ l). rewrite number_from_app; simpl.
  rewrite IH. f_equal; [lia | f_equal; lia].
Qed.

Lemma number_from_pairs n l : (number_from n l).*1 = l.
Proof.
  revert n; induction l as [|x l IH]; intros n; [done|].
  change (x :: l) with ([x] ++ l). rewrite number_from_app; simpl.
  by rewrite IH.
Qed.

(** The inner [range] loop appends the occurrences and advances the
    counter by their number. *)
Lemma gen_occurrences_spec g m nb st :
  gen_occurrences g m nb st
  = (st.1 ++ number_from st.2 (replicate (Z.to_nat nb) (g, m)),
     st.2 + Z.to_nat nb).
Proof.
  unfold gen_occurrences. generalize (Z.to_nat nb) as k; clear nb.
  intros k. generalize 0 as start. revert st.
  induction k as [|k IH]; intros [cs id] start; simpl.
  - rewrite app_nil_r. f_equal; lia.
  - rewrite IH; simpl.
    change ((g, m) :: replicate k (g, m)) with ([(g, m)] ++ replicate k (g, m)).
    rewrite number_from_app; simpl. rewrite <- app_assoc; simpl.
    f_equal; [|lia]. do 2 f_equal.
    + f_equal; lia.
    + f_equal; lia.
Qed.

Lemma gen_matieres_spec g mo st :
  let l := flat_map (λ mn : string * Z, replicate (Z.to_nat mn.2) (g, mn.1)) mo in
  gen_matieres g mo st = (st.1 ++ number_from st.2 l, st.2 + length l).
Proof.
  unfold gen_matieres. revert st.
  induction mo as [|[m nb] mo IH]; intros [cs id]; simpl.
  - rewrite app_nil_r. f_equal; lia.
  - rewrite IH, gen_occurrences_spec; simpl.
    rewrite number_from_app, length_app, length_replicate, <- app_assoc.
    f_equal; lia.
Qed.

Lemma gen_groupe_spec config st g :
  gen_groupe config st g
  = (st.1 ++ number_from st.2 (groupe_order config g),
     st.2 + length (groupe_order config g)).
Proof.
  unfold gen_groupe, groupe_order.
  destruct (PyDict.get _ _) as [cur|].
  - apply gen_matieres_spec.
  - destruct st; simpl. rewrite app_nil_r. f_equal; lia.
Qed.

Lemma gen_groupes_spec config gs st :
  let l := flat_map (groupe_order config) gs in
  fold_left (gen_groupe config) gs st
  = (st.1 ++ number_from st.2 l, st.2 + length l).
Proof.
  revert st. induction gs as [|g gs IH]; intros [cs id]; simpl.
  - rewrite app_nil_r. f_equal; lia.
  - rewrite IH, gen_groupe_spec; simpl.
    rewrite number_from_app, length_app, <- app_assoc. f_equal; lia.
Qed.

Lemma generate_cours_spec config :
  generate_cours_from_config config
  = number_from 0 (expansion_order config).
Proof.
  unfold generate_cours_from_config. by rewrite gen_groupes_spec.
Qed.

End Expansion.

(** C5. Curriculum expansion returns the course instances in group order,
    then subject order, then occurrence index, numbered in that order, and
    the list depends on nothing but the groups and the curriculum: two runs
    on configurations that agree on them return the same list with the same
    ids. *)
Theorem generate_cours_order config :
  generate_cours_from_config config = number_from 0 (expansion_order config)
  ∧ ∀ config',
      groupes_eleves config' = groupes_eleves config →
      curriculum config' = curriculum config →
      generate_cours_from_config config' = generate_cours_from_config config.
Proof.
  split; [apply generate_cours_spec|].
  intros config' Hg Hc. rewrite !generate_cours_spec.
  unfold expansion_order, groupe_order. by rewrite Hg, Hc.
Qed.

Lemma generate_cours_order_witness :
  generate_cours_from_config Examples.college
  = [("6A", "Math", 0); ("6A", "Math", 1); ("6A", "Info", 2);
     ("5A", "Math", 3)]
  ∧ generate_cours_from_config
      (with_groupes Examples.college (groupes_eleves Examples.college))
    = generate_cours_from_config Examples.college.
Proof.
  split; [reflexivity|].
  by apply (generate_cours_order Examples.college).
Defined.

(** C9. The sequence ids of the returned course instances are exactly
    0, 1, ..., n-1, and the i-th element of the list carries id i. *)
Theorem generate_cours_ids config :
  (generate_cours_from_config config).*2
  = seq 0 (length (generate_cours_from_config config))
  ∧ ∀ i c, generate_cours_from_config config !! i = Some c →
           cours_ident c = i.
Proof.
  rewrite generate_cours_spec, number_from_length, number_from_ids.
  split; [done|]. intros i [gm id] H.
  apply (f_equal (fmap snd)) in H. rewrite <- list_lookup_fmap in H.
  rewrite number_from_ids in H. simpl in H.
  apply lookup_seq in H as [-> _]. done.
Qed.

Lemma generate_cours_ids_witness :
  cours_ident ("6A", "Info", 2) = 2.
Proof.
  apply (proj2 (generate_cours_ids Examples.college) 2 ("6A", "Info", 2)).
  reflexivity.
Defined.

(** C8. A group whose level has no entry in the curriculum makes the
    expansion emit nothing for it and changes nothing for the other groups:
    the result is the one obtained without that group. *)
Theorem generate_cours_niveau_absent config gs1 g gs2 :
  groupes_eleves config = gs1 ++ g :: gs2 →
  PyDict.get (curriculum config) (niveau g) = None →
  generate_cours_from_config (with_groupes config [g]) = []
  ∧ generate_cours_from_config config
    = generate_cours_from_config (with_groupes config (gs1 ++ gs2)).
Proof.
  intros Hgs Hniv. rewrite !generate_cours_spec.
  unfold expansion_order; simpl. rewrite Hgs.
  rewrite !flat_map_app; simpl.
  replace (groupe_order (with_groupes config [g]) g) with (@nil (string * string))
    by (unfold groupe_order; simpl; by rewrite Hniv).
  replace (groupe_order config g) with (@nil (string * string))
    by (unfold groupe_order; by rewrite Hniv).
  done.
Qed.

Lemma generate_cours_niveau_absent_witness :
  generate_cours_from_config
    (with_groupes Examples.college [ {| nom := "4A"; niveau := "4" |} ]) = []
  ∧ generate_cours_from_config Examples.college
    = generate_cours_from_config
        (with_groupes Examples.college
           ([ {| nom := "6A"; niveau := "6" |} ]
            ++ [ {| nom := "5A"; niveau := "5" |} ])).
Proof.
  apply (generate_cours_niveau_absent Examples.college
           [ {| nom := "6A"; niveau := "6" |} ]
           {| nom := "4A"; niveau := "4" |}
           [ {| nom := "5A"; niveau := "5" |} ]); reflexivity.
Defined.

(** ** Loops that may raise *)

Lemma bind_Ok {A B : Type} (m : result A) (f : A → result B) b :
  (m ≫= f) = Ok b ↔ ∃ a, m = Ok a ∧ f a = Ok b.
Proof.
  destruct m as [a|e]; simpl; split.
  - intros H; by exists a.
  - by intros (a' & [= ->] & H).
  - done.
  - by intros (? & ? & ?).
Qed.

Lemma for_each_inv {A S : Type} (P : S → Prop) (body : S → A → result S) l s s' :
  P s →
  (∀ s x s', x ∈ l → P s → body s x = Ok s' → P s') →
  for_each body l s = Ok s' → P s'.
Proof.
  revert s. induction l as [|x l IH]; intros s Hs Hbody; simpl.
  - by intros [= <-].
  - intros (s1 & H1 & H2)%bind_Ok.
    apply (IH s1); [| |done].
    + eapply Hbody; [|done..]. by left.
    + intros ??? Hin. apply Hbody. by right.
Qed.

Lemma for_each_prefix {A S : Type} (P : list A → S → Prop)
    (body : S → A → result S) l s s' :
  P [] s →
  (∀ pre x s s', P pre s → body s x = Ok s' → P (pre ++ [x]) s') →
  for_each body l s = Ok s' → P l s'.
Proof.
  intros H0 Hstep. change l with ([] ++ l) at 2.
  revert H0. generalize (@nil A) as pre. revert s.
  induction l as [|x l IH]; intros s pre Hpre; simpl.
  - intros [= <-]. by rewrite app_nil_r.
  - intros (s1 & H1 & H2)%bind_Ok.
    rewrite (cons_middle x pre l), app_assoc. eapply IH; [|done].
    by eapply Hstep.
Qed.

Lemma for_each_total {A S : Type} (body : S → A → result S) l s :
  (∀ s x, x ∈ l → ∃ s', body s x = Ok s') →
  ∃ s', for_each body l s = Ok s'.
Proof.
  revert s. induction l as [|x l IH]; intros s Hbody; simpl; [by eexists|].
  destruct (Hbody s x) as [s1 ->]; [by left|]. simpl.
  apply IH. intros ?? Hin. apply Hbody. by right.
Qed.

Lemma getitem_Ok {V : Type} (d : list (string * V)) k v :
  getitem d k = Ok v ↔ PyDict.get d k = Some v.
Proof. unfold getitem. destruct (PyDict.get d k); naive_solver. Qed.

Lemma get_elem_of {V : Type} (d : list (string * V)) k v :
  PyDict.get d k = Some v → (k, v) ∈ d.
Proof.
  induction d as [|[k' v'] d IH]; simpl; [done|].
  case_decide as Hk.
  - intros [= ->]. subst. by left.
  - intros H. right. by apply IH.
Qed.

Lemma get_is_Some {V : Type} (d : list (string * V)) k :
  is_Some (PyDict.get d k) ↔ k ∈ PyDict.keys d.
Proof.
  unfold PyDict.keys. induction d as [|[k' v'] d IH]; simpl.
  - split; [by intros [? ?]|by intros ?%elem_of_nil].
  - case_decide as Hk.
    + subst. split; [intros _; by left|by eexists].
    + rewrite IH, elem_of_cons. naive_solver.
Qed.

Lemma get_fmap {V W : Type} (f : V → W) (d : list (string * V)) k :
  PyDict.get ((λ p, (p.1, f p.2)) <$> d) k = f <$> PyDict.get d k.
Proof.
  induction d as [|[k' v'] d IH]; simpl; [done|]. by case_decide.
Qed.

(** ** The feasibility filter *)

Section Filter.
Context (config : Config).

Lemma elem_of_add_key key k acc :
  key ∈ add_key k acc ↔ key ∈ acc ∨ key = k.
Proof.
  unfold add_key. case_decide.
  - naive_solver.
  - rewrite elem_of_app, list_elem_of_singleton. done.
Qed.

Lemma vars_heures_elem prof_info mk acc key :
  key ∈ vars_heures config prof_info mk acc →
  key ∈ acc
  ∨ ∃ heure, heure ∈ heures (planning config)
      ∧ (heure ∉ heures_indisponibles (contraintes prof_info))
      ∧ key = mk heure.
Proof.
  unfold vars_heures. generalize (heures (planning config)) as l.
  intros l; revert acc.
  induction l as [|h l IH]; intros acc; simpl; [by left|].
  intros H. destruct (IH _ H) as [Hacc|(h' & ? & ? & ?)].
  - case_decide; [by left|].
    apply elem_of_add_key in Hacc as [?| ->]; [by left|].
    right. exists h. split; [by left|done].
  - right. exists h'. split; [by right|done].
Qed.

Lemma vars_jours_elem prof_info mk acc key :
  key ∈ vars_jours config prof_info mk acc →
  key ∈ acc
  ∨ ∃ jour heure,
      jour ∈ jours (planning config)
      ∧ heure ∈ heures (planning config)
      ∧ (jour ∉ jours_indisponibles (contraintes prof_info))
      ∧ (heure ∉ heures_indisponibles (contraintes prof_info))
      ∧ key = mk jour heure.
Proof.
  unfold vars_jours. generalize (jours (planning config)) as l.
  intros l; revert acc.
  induction l as [|j l IH]; intros acc; simpl; [by left|].
  intros H. destruct (IH _ H) as [Hacc|(j' & h' & ? & ?)].
  - case_decide; [by left|].
    destruct (vars_heures_elem _ _ _ _ Hacc) as [?|(h & ? & ? & ?)];
      [by left|].
    right. exists j, h. split; [by left|done].
  - right. exists j', h'. split; [by right|done].
Qed.

Lemma vars_profs_admis cs c acc acc' :
  c ∈ cs → admis config cs acc →
  vars_profs config c acc = Ok acc' → admis config cs acc'.
Proof.
  intros Hc Hacc. unfold vars_profs.
  apply (for_each_inv (admis config cs)); [done|].
  intros acc1 prof acc2 Hprof Hacc1.
  case_decide as Hcomp; [by intros [= <-]|].
  unfold vars_salles.
  apply (for_each_inv (admis config cs)); [done|].
  intros acc3 salle acc4 Hsalle Hacc3.
  intros (requis & Hreq & Hbody)%bind_Ok.
  apply getitem_Ok in Hreq. unfold infos_matieres_of in Hreq.
  rewrite get_fmap in Hreq.
  destruct (PyDict.get (matieres config) (cours_matiere c))
    as [matiere_info|] eqn:Hmi; [|done].
  injection Hreq as <-.
  case_decide as Htype; injection Hbody as <-; [done|].
  intros key Hkey.
  destruct (vars_jours_elem _ _ _ _ Hkey)
    as [?|(j & h & Hj & Hh & Hnj & Hnh & ->)]; [by apply Hacc3|]. simpl.
  destruct c as [[g m] id]; simpl in *.
  split; [done|]. split; [done|]. split; [done|].
  exists prof.2, salle.2, matiere_info; simpl.
  destruct prof, salle; simpl in *. done.
Qed.

Lemma create_variables_admis cs keys :
  create_variables config cs = Ok keys → admis config cs keys.
Proof.
  unfold create_variables. apply (for_each_inv (admis config cs)).
  - intros key Hkey. by apply elem_of_nil in Hkey.
  - intros acc c acc' Hc Hacc. by apply vars_profs_admis.
Qed.

End Filter.

(** C1. Every key for which a decision variable is created belongs to a
    course of the list and satisfies the four eligibility rules: its teacher
    teaches the subject, its room has the type the subject requires, its
    day is not an unavailable day of the teacher and its hour is not an
    unavailable hour of the teacher. *)
Theorem create_variables_sound config keys key :
  create_variables config (generate_cours_from_config config) = Ok keys →
  key ∈ keys →
  (k_groupe key, k_matiere key, k_cours_id key)
    ∈ generate_cours_from_config config
  ∧ eligible config key.
Proof.
  intros Hkeys Hkey.
  destruct (create_variables_admis config _ _ Hkeys key Hkey) as (?&?&?&?).
  done.
Qed.

Lemma create_variables_sound_witness :
  eligible Examples.college
    {| k_groupe := "6A"; k_matiere := "Info"; k_cours_id := 2;
       k_prof := "Martin"; k_salle := "Labo";
       k_jour := "Mardi"; k_heure := "8h" |}.
Proof.
  refine (proj2 (create_variables_sound Examples.college
    (match create_variables Examples.college
             (generate_cours_from_config Examples.college) with
     | Ok keys => keys | Raise _ => [] end) _ _ _)).
  - vm_compute. reflexivity.
  - decide_by_compute.
Defined.

Lemma mapM_Ok {A B : Type} (f : A → result B) l ys :
  mapM f l = Ok ys ↔ Forall2 (λ x y, f x = Ok y) l ys.
Proof.
  revert ys. induction l as [|x l IH]; intros ys; simpl.
  - split; [intros [= <-]; constructor | by inversion 1].
  - split.
    + intros (y & Hy & (k & Hk & [= <-])%bind_Ok)%bind_Ok.
      constructor; [done|]. by apply IH.
    + inversion 1 as [|? y ? k Hy Hk]; subst.
      rewrite Hy; simpl. apply IH in Hk. by rewrite Hk.
Qed.


Lemma filter_r_total {A : Type} (p : A → result bool) (P : A → Prop)
    `{∀ x, Decision (P x)} l :
  (∀ x, x ∈ l → p x = Ok (bool_decide (P x))) →
  filter_r p l = Ok (filter P l).
Proof.
  induction l as [|x l IH]; intros Hp; simpl; [done|].
  rewrite Hp by (by left). simpl.
  rewrite IH by (intros ??; apply Hp; by right). simpl.
  rewrite filter_cons. by case_bool_decide; case_decide.
Qed.

Lemma flat_map_nil {A B : Type} (f : A → list B) l :
  flat_map f l = [] → ∀ x, x ∈ l → f x = [].
Proof.
  induction l as [|y l IH]; simpl; intros H x Hx.
  - by apply elem_of_nil in Hx.
  - apply app_eq_nil in H as [H1 H2].
    apply elem_of_cons in Hx as [->|Hx]; [done|by apply IH].
Qed.

(** ** Validated configurations *)

Section Validated.
Context (config : Config) (Hvalid : validate_config config = []).

(** What a teacher teaches is a declared subject. *)
Lemma valid_enseignee p matiere :
  p ∈ professeurs config → matiere ∈ matieres_enseignees p.2 →
  is_Some (PyDict.get (matieres config) matiere).
Proof.
  intros Hp Hm. unfold validate_config in Hvalid.
  apply app_eq_nil in Hvalid as [H1 _].
  pose proof (flat_map_nil _ _ (flat_map_nil _ _ H1 p Hp) matiere Hm) as H.
  simpl in H. case_decide as Hin; [done|].
  apply elem_of_list_to_set in Hin.
  by apply get_is_Some.
Qed.

(** A subject of the curriculum has a competent teacher. *)
Lemma valid_curriculum nc matiere :
  nc ∈ curriculum config →
  matiere ∈ PyDict.keys (matieres_obligatoires nc.2) →
  ∃ p, p ∈ professeurs config ∧ matiere ∈ matieres_enseignees p.2.
Proof.
  intros Hnc Hm. unfold validate_config in Hvalid.
  apply app_eq_nil in Hvalid as [_ [H2 _]%app_eq_nil].
  pose proof (flat_map_nil _ _ (flat_map_nil _ _ H2 nc Hnc) matiere Hm) as H.
  simpl in H.
  destruct (profs_competents config matiere) as [|p ps] eqn:Hps; [done|].
  assert (p ∈ profs_competents config matiere) as Hp by (rewrite Hps; by left).
  apply list_elem_of_filter in Hp as [? ?]. by exists p.
Qed.

Lemma vars_profs_total c acc :
  ∃ acc', vars_profs config c acc = Ok acc'.
Proof.
  unfold vars_profs. apply for_each_total. intros acc1 prof Hprof.
  case_decide as Hcomp; [by eexists|].
  unfold vars_salles. apply for_each_total. intros acc2 salle _.
  destruct (valid_enseignee prof (cours_matiere c)) as [mi Hmi]; [done..|].
  unfold getitem, infos_matieres_of. rewrite get_fmap, Hmi; simpl.
  case_decide; by eexists.
Qed.

Lemma create_variables_total cs :
  ∃ keys, create_variables config cs = Ok keys.
Proof.
  unfold create_variables. apply for_each_total.
  intros acc c _. apply vars_profs_total.
Qed.

Lemma build_model_total cs :
  ∃ model, build_model config cs = Ok model
    ∧ create_variables config cs = Ok (variables model).
Proof.
  unfold build_model. destruct (create_variables_total cs) as [keys ->].
  simpl. by eexists.
Qed.

End Validated.

Lemma mapM_total_ex {A B : Type} (f : A → result B) l :
  (∀ x, x ∈ l → ∃ y, f x = Ok y) → ∃ ys, mapM f l = Ok ys.
Proof.
  induction l as [|x l IH]; intros H; simpl; [by eexists|].
  destruct (H x) as [y ->]; [by left|].
  destruct IH as [ys ->]; [intros ??; apply H; by right|].
  by eexists.
Qed.

Lemma elem_of_flat_map {A B : Type} (f : A → list B) l y :
  y ∈ flat_map f l ↔ ∃ x, x ∈ l ∧ y ∈ f x.
Proof.
  rewrite list_elem_of_In, in_flat_map.
  by setoid_rewrite list_elem_of_In.
Qed.

(** ** The diagnostic pass *)

Section Diagnostic.
Context (config : Config).

(** A subject of a generated course is required by the curriculum. *)
Lemma generate_cours_matiere c :
  c ∈ generate_cours_from_config config →
  ∃ nc, nc ∈ curriculum config
    ∧ cours_matiere c ∈ PyDict.keys (matieres_obligatoires nc.2).
Proof.
  intros Hc. apply (list_elem_of_fmap_2 fst) in Hc.
  rewrite generate_cours_spec, number_from_pairs in Hc.
  apply elem_of_flat_map in Hc as (g & _ & Hc). unfold groupe_order in Hc.
  destruct (PyDict.get _ _) as [cur|] eqn:Hcur;
    [|by apply elem_of_nil in Hc].
  apply elem_of_flat_map in Hc as (mn & Hmn & Hc).
  apply elem_of_replicate in Hc as [Hc _].
  exists (niveau g, cur). split; [by apply get_elem_of|]. simpl.
  unfold cours_matiere. rewrite Hc. simpl.
  unfold PyDict.keys. by apply list_elem_of_fmap_2.
Qed.

Lemma professeurs_of_competents matiere :
  length (filter (λ p : string * list string, matiere ∈ p.2)
                 (professeurs_of config))
  = length (profs_competents config matiere).
Proof.
  unfold professeurs_of, profs_competents.
  induction (professeurs config) as [|p ps IH]; simpl; [done|].
  rewrite !filter_cons; simpl. case_decide; cbn [length]; [f_equal|]; exact IH.
Qed.

Lemma diagnostic_matiere_Ok cs matiere matiere_info :
  PyDict.get (matieres config) matiere = Some matiere_info →
  diagnostic_matiere config cs matiere
  = Ok {| d_matiere := matiere;
          d_cours := length (filter (λ c, cours_matiere c = matiere) cs);
          d_profs := length (profs_competents config matiere);
          d_salles :=
            length (filter (λ s : string * SalleInfo,
                              type s.2 = salle_requise matiere_info)
                           (salles config)) |}.
Proof.
  intros Hmi. unfold diagnostic_matiere.
  rewrite (filter_r_total _
    (λ s : string * SalleInfo, type s.2 = salle_requise matiere_info)).
  - simpl. by rewrite professeurs_of_competents.
  - intros s _. unfold getitem, infos_matieres_of.
    by rewrite get_fmap, Hmi.
Qed.

End Diagnostic.

(** C4. On a validated configuration the model is built, and when the
    solver's status is neither OPTIMAL nor FEASIBLE the run returns no
    schedule and prints one diagnostic line for every subject of the course
    list, with the number of its courses, of the teachers competent in it
    and of the rooms of the type it requires. *)
Theorem create_schedule_no_solution (solve : Solver) config :
  validate_config config = [] →
  ∃ model,
    build_model config (generate_cours_from_config config) = Ok model
    ∧ ((solve (parametres_solveur config) model).1 ≠ OPTIMAL →
       (solve (parametres_solveur config) model).1 ≠ FEASIBLE →
       ∃ diag,
         create_schedule_from_config solve (Some config)
         = Ok (SansSolution (solve (parametres_solveur config) model).1 diag)
         ∧ returned
             (SansSolution (solve (parametres_solveur config) model).1 diag)
           = None
         ∧ NoDup (d_matiere <$> diag)
         ∧ (∀ matiere,
              matiere ∈ d_matiere <$> diag
              ↔ matiere ∈ cours_matiere <$> generate_cours_from_config config)
         ∧ ∀ line, line ∈ diag →
             d_cours line
             = length (filter (λ c, cours_matiere c = d_matiere line)
                              (generate_cours_from_config config))
             ∧ d_profs line
               = length (profs_competents config (d_matiere line))
             ∧ ∃ matiere_info,
                 PyDict.get (matieres config) (d_matiere line)
                 = Some matiere_info
                 ∧ d_salles line
                   = length (filter (λ s : string * SalleInfo,
                                       type s.2 = salle_requise matiere_info)
                                    (salles config))).
Proof.
  intros Hvalid.
  destruct (build_model_total config Hvalid (generate_cours_from_config config))
    as (model & Hmodel & _).
  exists model. split; [done|]. intros Hopt Hfeas.
  set (cs := generate_cours_from_config config) in *.
  set (subjects := elements (list_to_set (cours_matiere <$> cs) : gset string)).
  assert (∀ m, m ∈ subjects → is_Some (PyDict.get (matieres config) m)) as Hsub.
  { intros m Hm. apply elem_of_elements, elem_of_list_to_set in Hm.
    apply list_elem_of_fmap in Hm as (c & -> & Hc).
    destruct (generate_cours_matiere config c Hc) as (nc & Hnc & Hm).
    destruct (valid_curriculum config Hvalid nc _ Hnc Hm) as (p & Hp & Hens).
    by eapply valid_enseignee. }
  destruct (mapM_total_ex (diagnostic_matiere config cs) subjects) as [diag Hdiag].
  { intros m [mi Hmi]%Hsub. eexists. by apply diagnostic_matiere_Ok. }
  exists diag.
  assert (Forall2 (λ m line, ∃ mi, PyDict.get (matieres config) m = Some mi
            ∧ line = {| d_matiere := m;
                 d_cours := length (filter (λ c, cours_matiere c = m) cs);
                 d_profs := length (profs_competents config m);
                 d_salles := length (filter (λ s : string * SalleInfo,
                                type s.2 = salle_requise mi) (salles config)) |})
            subjects diag) as Hlines.
  { apply mapM_Ok in Hdiag. revert Hsub Hdiag. generalize subjects.
    intros l Hl Hd. induction Hd as [|m line l diag Hm Hd IH]; constructor.
    - destruct (Hl m) as [mi Hmi]; [by left|]. exists mi. split; [done|].
      rewrite (diagnostic_matiere_Ok _ _ _ _ Hmi) in Hm. congruence.
    - apply IH. intros ??. apply Hl. by right. }
  assert (d_matiere <$> diag = subjects) as Hnames.
  { clear -Hlines. induction Hlines as [|m line l diag (mi & _ & ->) _ IH];
      [done|]. rewrite fmap_cons. by f_equal. }
  split; [|split; [done|split; [|split]]].
  - unfold create_schedule_from_config. rewrite Hvalid.
    fold cs. rewrite Hmodel. simpl.
    case_decide as Hst; [by destruct Hst|].
    unfold diagnostic. fold cs. fold subjects. by rewrite Hdiag.
  - rewrite Hnames. apply NoDup_elements.
  - intros m. rewrite Hnames. unfold subjects.
    by rewrite elem_of_elements, elem_of_list_to_set.
  - intros line Hline.
    apply list_elem_of_lookup in Hline as [i Hi].
    destruct (Forall2_lookup_r _ _ _ _ _ Hlines Hi) as (m & _ & mi & Hmi & ->).
    simpl.
    split; [done|]. split; [done|]. by exists mi.
Qed.

Lemma create_schedule_no_solution_witness :
  ∃ diag,
    create_schedule_from_config Examples.infaisable (Some Examples.college)
    = Ok (SansSolution INFEASIBLE diag)
    ∧ NoDup (d_matiere <$> diag).
Proof.
  destruct (create_schedule_no_solution Examples.infaisable Examples.college)
    as (model & _ & H); [vm_compute; reflexivity|].
  destruct H as (diag & Hrun & _ & Hnd & _); [simpl; discriminate..|].
  exists diag. split; [exact Hrun|exact Hnd].
Defined.

(** ** The coverage constraints *)

Section Coverage.
Context (config : Config).

Lemma elem_of_add_if_any mk vars (k : Constraint) :
  k ∈ add_if_any mk vars ↔ vars ≠ [] ∧ k = mk vars.
Proof.
  destruct vars as [|v vars]; simpl.
  - split; [by intros ?%elem_of_nil|by intros [? _]].
  - rewrite list_elem_of_singleton. split; [by intros ->|by intros [_ ->]].
Qed.

Lemma contraintes_ressource_at_most proj rs keys vars :
  AddExactlyOne vars ∉ contraintes_ressource config proj rs keys.
Proof.
  unfold contraintes_ressource.
  intros (r & _ & (j & _ & (h & _ & [_ H]%elem_of_add_if_any)
    %elem_of_flat_map)%elem_of_flat_map)%elem_of_flat_map.
  discriminate.
Qed.

Lemma build_model_coverage cs model vars :
  build_model config cs = Ok model →
  AddExactlyOne vars ∈ constraints model
  ↔ vars ≠ []
    ∧ ∃ c, c ∈ cs
        ∧ vars = filter (λ key, k_cours_id key = cours_ident c)
                        (variables model).
Proof.
  unfold build_model. intros (keys & Hkeys & [= <-])%bind_Ok. simpl.
  rewrite !elem_of_app. unfold contraintes_cours.
  rewrite elem_of_flat_map. setoid_rewrite elem_of_add_if_any. split.
  - intros [(c & Hc & Hne & [= ->])|[H|[H|H]]];
      [|by apply contraintes_ressource_at_most in H..].
    split; [done|]. by exists c.
  - intros (Hne & c & Hc & ->). left. by exists c.
Qed.

End Coverage.

(** C2, as the program has it.  On a validated configuration the model is
    always built, whatever the candidate sets; it holds an exactly-one
    constraint over a list of variables exactly when that list is not empty
    and is the list of all variables of some course.  A course without
    candidates gets no coverage constraint and raises nothing. *)
Theorem coverage_constraints config :
  validate_config config = [] →
  ∃ model,
    build_model config (generate_cours_from_config config) = Ok model
    ∧ ∀ vars,
        AddExactlyOne vars ∈ constraints model
        ↔ vars ≠ []
          ∧ ∃ c, c ∈ generate_cours_from_config config
              ∧ vars = filter (λ key, k_cours_id key = cours_ident c)
                              (variables model).
Proof.
  intros Hvalid.
  destruct (build_model_total config Hvalid (generate_cours_from_config config))
    as (model & Hmodel & _).
  exists model. split; [done|]. intros vars.
  apply (build_model_coverage config _ _ _ Hmodel).
Qed.

Lemma coverage_constraints_witness :
  ∃ model,
    build_model Examples.sans_candidat
      (generate_cours_from_config Examples.sans_candidat) = Ok model
    ∧ ∀ vars, AddExactlyOne vars ∈ constraints model → vars ≠ [].
Proof.
  destruct (coverage_constraints Examples.sans_candidat)
    as (model & Hmodel & H); [vm_compute; reflexivity|].
  exists model. split; [exact Hmodel|].
  intros vars Hvars. exact (proj1 (proj1 (H vars) Hvars)).
Defined.

(** C2, as the specification has it, fails: the only course of
    [sans_candidat] has no candidate, the model is built without error and
    without constraint, and the solver's answer on it decides the run. *)
Lemma no_candidate_goes_unnoticed :
  ¬ raises_without_candidate Examples.sans_candidat
  ∧ build_model Examples.sans_candidat
      (generate_cours_from_config Examples.sans_candidat)
    = Ok {| variables := []; constraints := [] |}
  ∧ create_schedule_from_config Examples.infaisable
      (Some Examples.sans_candidat)
    = Ok (SansSolution INFEASIBLE
            [ {| d_matiere := "Math"; d_cours := 1;
                 d_profs := 1; d_salles := 1 |} ])
  ∧ (o ← create_schedule_from_config Examples.tout_a_zero
            (Some Examples.sans_candidat);
     Ok (returned o))
    = Ok (Some []).
Proof.
  split; [|split; [|split]]; [|vm_compute; reflexivity..].
  intros H.
  destruct (H [] ("6A", "Math", 0)) as [e He];
    [vm_compute; reflexivity|decide_by_compute|vm_compute; reflexivity|].
  vm_compute in He. discriminate.
Qed.

(** ** Dictionaries filled by a loop *)

Section Update.
Context {K V : Type} `{EqDecision K}.
Implicit Types (d : list (K * V)) (k : K) (f : V → V).

Lemma find_update dflt f k d k' :
  PyDict.find dflt (PyDict.update dflt f k d) k'
  = if decide (k' = k) then f (PyDict.find dflt d k)
    else PyDict.find dflt d k'.
Proof.
  induction d as [|[k0 v0] d IH]; simpl.
  - repeat case_decide; congruence.
  - destruct (decide (k = k0)) as [->|Hk]; simpl.
    + repeat case_decide; congruence.
    + rewrite IH. repeat case_decide; congruence.
Qed.

Lemma update_keys dflt f k d :
  (PyDict.update dflt f k d).*1
  = if decide (k ∈ d.*1) then d.*1 else d.*1 ++ [k].
Proof.
  induction d as [|[k0 v0] d IH].
  - cbn [PyDict.update fmap list_fmap].
    destruct (decide (k ∈ [])) as [H|]; [by apply elem_of_nil in H|done].
  - cbn [PyDict.update]. destruct (decide (k = k0)) as [->|Hk].
    + rewrite decide_True by (rewrite fmap_cons; by left). done.
    + rewrite !fmap_cons, IH. cbn [fst].
      destruct (decide (k ∈ d.*1)) as [H1|H1].
      * rewrite decide_True by (by right). done.
      * rewrite decide_False; [done|].
        intros [?|?]%elem_of_cons; congruence.
Qed.

Lemma update_keys_NoDup dflt f k d :
  NoDup d.*1 → NoDup (PyDict.update dflt f k d).*1.
Proof.
  intros Hd. rewrite update_keys. case_decide as Hk; [done|].
  apply NoDup_app. split; [done|]. split; [|apply NoDup_singleton].
  intros x Hx ->%list_elem_of_singleton. done.
Qed.

Lemma update_Forall (P : K * V → Prop) dflt f k d :
  Forall P d → P (k, f dflt) → (∀ v, P (k, v) → P (k, f v)) →
  Forall P (PyDict.update dflt f k d).
Proof.
  intros Hd H0 Hf. induction Hd as [|[k0 v0] d Hx Hd IH]; simpl.
  - by repeat constructor.
  - case_decide as Hk; constructor; try done. subst. by apply Hf.
Qed.

Lemma find_Forall (P : K * V → Prop) dflt d k :
  Forall P d → P (k, dflt) → P (k, PyDict.find dflt d k).
Proof.
  intros Hd H0. induction Hd as [|[k0 v0] d Hx Hd IH]; simpl; [done|].
  case_decide; by subst.
Qed.

Lemma find_elem_of dflt d k v :
  NoDup d.*1 → (k, v) ∈ d → PyDict.find dflt d k = v.
Proof.
  induction d as [|[k0 v0] d IH]; simpl; intros Hd Hin.
  - by apply elem_of_nil in Hin.
  - apply NoDup_cons in Hd as [Hk0 Hd].
    apply elem_of_cons in Hin as [[= -> ->]|Hin].
    + by case_decide.
    + case_decide as Hk; [|by apply IH]. subst.
      destruct Hk0. by apply (list_elem_of_fmap_2 fst) in Hin.
Qed.

End Update.

Lemma filter_all {A : Type} (P : A → Prop) `{∀ x, Decision (P x)}
    (l : list A) :
  (∀ x, x ∈ l → P x) → filter P l = l.
Proof.
  induction l as [|x l IH]; intros HP; [done|].
  rewrite filter_cons_True by (apply HP; by left).
  f_equal. apply IH. intros ??. apply HP. by right.
Qed.

Lemma first_occurrences_filter {A : Type} `{EqDecision A} (ks l : list A) x :
  filter (λ y, y ∉ ks ++ [x]) l
  = filter (λ y, y ∉ ks) (filter (λ y, y ≠ x) l).
Proof.
  rewrite list_filter_filter. apply list_filter_iff. intros y.
  rewrite elem_of_app, list_elem_of_singleton. tauto.
Qed.

Lemma filter_absorb {A : Type} `{EqDecision A} (ks l : list A) x :
  x ∈ ks →
  filter (λ y, y ∉ ks) (filter (λ y, y ≠ x) l) = filter (λ y, y ∉ ks) l.
Proof.
  intros Hx. rewrite list_filter_filter. apply list_filter_iff. intros y.
  split; [tauto|]. intros Hy. split; [done|]. by intros ->.
Qed.

(** Filling a dictionary along a list of keys visits them in the order of
    their first occurrence. *)
Lemma fold_update_keys {K V E : Type} `{EqDecision K}
    (dflt : V) (g : E → V → V) (key : E → K) (es : list E) (d : list (K * V)) :
  (fold_left (λ d e, PyDict.update dflt (g e) (key e) d) es d).*1
  = d.*1 ++ filter (λ k, k ∉ d.*1) (first_occurrences (key <$> es)).
Proof.
  revert d. induction es as [|e es IH]; intros d; simpl.
  - by rewrite app_nil_r.
  - rewrite IH, update_keys. rewrite filter_cons.
    destruct (decide (key e ∈ d.*1)) as [Hin|Hin].
    + rewrite decide_False by tauto. by rewrite filter_absorb.
    + rewrite decide_True by done.
      rewrite <- app_assoc. simpl. by rewrite first_occurrences_filter.
Qed.

(** ** Occupancy of the rooms *)

Section Occupancy.
Implicit Types (d : list (Creneau * gset string)) (es : list (string * Entry)).

Lemma occuper_find es d creneau :
  PyDict.find ∅ (occuper es d) creneau
  = PyDict.find ∅ d creneau
    ∪ list_to_set (e_salle ∘ snd <$>
        filter (λ ge : string * Entry, e_creneau ge.2 = creneau) es).
Proof.
  unfold occuper. revert d. induction es as [|e es IH]; intros d; simpl.
  - set_solver.
  - rewrite IH, find_update, filter_cons.
    destruct (decide (creneau = e_creneau e.2)) as [->|Hne].
    + rewrite decide_True by done. rewrite fmap_cons; simpl. set_solver.
    + rewrite decide_False by congruence. done.
Qed.

Lemma salles_occupees_find solution creneau :
  PyDict.find ∅ (salles_occupees solution) creneau
  = salles_du_creneau solution creneau.
Proof.
  unfold salles_occupees, salles_du_creneau. rewrite occuper_find. simpl.
  set_solver.
Qed.

Lemma salles_occupees_keys solution :
  (salles_occupees solution).*1
  = first_occurrences (e_creneau ∘ snd <$> entries solution).
Proof.
  unfold salles_occupees, occuper.
  rewrite (fold_update_keys ∅ (λ (ge : string * Entry) (s : gset string),
             s ∪ {[e_salle ge.2]}) (λ ge, e_creneau ge.2)).
  simpl. rewrite filter_all; [done|].
  intros k _. apply not_elem_of_nil.
Qed.

Lemma occuper_NoDup es d : NoDup d.*1 → NoDup (occuper es d).*1.
Proof.
  unfold occuper. revert d.
  induction es as [|e es IH]; intros d Hd; simpl; [done|].
  by apply IH, update_keys_NoDup.
Qed.

Lemma salles_occupees_NoDup solution : NoDup (salles_occupees solution).*1.
Proof. apply occuper_NoDup. constructor. Qed.

Lemma occuper_Forall (P : Creneau * gset string → Prop) es d :
  Forall P d →
  (∀ ge, ge ∈ es → P (e_creneau ge.2, {[e_salle ge.2]})) →
  (∀ k s1 s2, P (k, s1) → P (k, s2) → P (k, s1 ∪ s2)) →
  Forall P (occuper es d).
Proof.
  intros Hd Hes Hunion. unfold occuper. revert d Hd.
  induction es as [|e es IH]; intros d Hd; simpl; [done|].
  apply IH; [intros ??; apply Hes; by right|].
  apply update_Forall; [done| |].
  - rewrite (left_id_L ∅ (∪)). apply Hes. by left.
  - intros v Hv. apply Hunion; [done|]. apply Hes. by left.
Qed.

Lemma total_occupations_cons k (s : gset string) d :
  total_occupations ((k, s) :: d) = size s + total_occupations d.
Proof. reflexivity. Qed.

(** Adding a room to a slot raises the total by one exactly when the room
    was not yet in the slot. *)
Lemma total_occupations_update d creneau salle :
  total_occupations
    (PyDict.update ∅ (λ s : gset string, s ∪ {[salle]}) creneau d)
  = total_occupations d
    + (if decide (salle ∈ PyDict.find ∅ d creneau) then 0 else 1).
Proof.
  induction d as [|[k0 s0] d IH]; cbn [PyDict.update PyDict.find].
  - rewrite total_occupations_cons, (left_id_L ∅ (∪)), size_singleton.
    rewrite decide_False by set_solver. done.
  - destruct (decide (creneau = k0)) as [->|Hne].
    + rewrite !total_occupations_cons.
      destruct (decide (salle ∈ s0)) as [Hin|Hin].
      * replace (s0 ∪ {[salle]}) with s0 by set_solver. lia.
      * rewrite size_union by set_solver. rewrite size_singleton. lia.
    + rewrite !total_occupations_cons, IH. lia.
Qed.

Lemma occuper_total es d (P : gset (Creneau * string)) :
  (∀ k s, (k, s) ∈ P ↔ s ∈ PyDict.find ∅ d k) →
  total_occupations d = size P →
  total_occupations (occuper es d)
  = size (P ∪ list_to_set
            ((λ ge : string * Entry, (e_creneau ge.2, e_salle ge.2)) <$> es)).
Proof.
  unfold occuper. revert d P.
  induction es as [|e es IH]; intros d P HP Hsize; simpl.
  - by rewrite (right_id_L ∅ (∪)).
  - rewrite (IH _ (P ∪ {[(e_creneau e.2, e_salle e.2)]})).
    + f_equal. set_solver.
    + intros k s. rewrite find_update, elem_of_union, elem_of_singleton, HP.
      case_decide as Hk.
      * subst. rewrite elem_of_union, elem_of_singleton. naive_solver.
      * naive_solver.
    + rewrite total_occupations_update, Hsize.
      destruct (decide (e_salle e.2 ∈ PyDict.find ∅ d (e_creneau e.2)))
        as [Hin|Hin].
      * apply HP in Hin.
        replace (P ∪ {[(e_creneau e.2, e_salle e.2)]}) with P by set_solver.
        lia.
      * rewrite size_union, size_singleton; [lia|].
        rewrite <- HP in Hin. set_solver.
Qed.

Lemma salles_occupees_total solution :
  total_occupations (salles_occupees solution) = size (paires_occupees solution).
Proof.
  unfold salles_occupees, paires_occupees.
  rewrite (occuper_total _ _ ∅); [by rewrite (left_id_L ∅ (∪))| |done].
  intros k s. cbn [PyDict.find]. by rewrite !elem_of_empty.
Qed.

End Occupancy.

Lemma sorted_elem_of l x : x ∈ sorted l ↔ x ∈ l.
Proof. unfold sorted. by rewrite merge_sort_Permutation. Qed.

Lemma list_to_set_sorted_elements (s : gset string) :
  list_to_set (sorted (elements s)) = s.
Proof.
  apply set_eq. intros x.
  by rewrite elem_of_list_to_set, sorted_elem_of, elem_of_elements.
Qed.


(** The lines of the occupied rooms are printed only for rooms of the
    configuration; the names are the rooms in sorted order. *)
Lemma lignes_Ok {B : Type} (salles : list (string * SalleInfo))
    (mk : string → SalleInfo → B) (nom_de : B → string) l lignes :
  (∀ salle info, nom_de (mk salle info) = salle) →
  mapM (λ salle, salle_info ← getitem salles salle; Ok (mk salle salle_info)) l
  = Ok lignes →
  nom_de <$> lignes = l ∧ ∀ salle, salle ∈ l → salle ∈ PyDict.keys salles.
Proof.
  intros Hnom H%mapM_Ok.
  induction H as [|salle ligne l lignes Hl _ [IH1 IH2]].
  - split; [done|]. by intros ? ?%elem_of_nil.
  - apply bind_Ok in Hl as (info & Hinfo%getitem_Ok & [= <-]).
    split; [by rewrite fmap_cons, Hnom, IH1|].
    intros s [->|Hs]%elem_of_cons; [|by apply IH2].
    apply get_is_Some. by eexists.
Qed.

Lemma get_setitem {V : Type} (d : list (string * V)) k v k' :
  PyDict.get (setitem k v d) k'
  = if decide (k' = k) then Some v else PyDict.get d k'.
Proof.
  unfold setitem. induction d as [|[k0 v0] d IH]; simpl.
  - by case_decide.
  - destruct (decide (k = k0)) as [->|Hne]; simpl.
    + by repeat case_decide.
    + rewrite IH. repeat case_decide; congruence.
Qed.

Section FreeRooms.
Context (solution : Solution) (config : Config).

Lemma partition_salles_intro (occupees : gset string) :
  (∀ salle, salle ∈ occupees → salle ∈ PyDict.keys (salles config)) →
  partition_salles config occupees
    (list_to_set (PyDict.keys (salles config)) ∖ occupees).
Proof.
  intros Hocc. split; [done|]. split; [set_solver|].
  apply set_eq. intros x.
  rewrite elem_of_union, elem_of_difference, elem_of_list_to_set.
  split; [intros [?|[? _]]; auto|].
  intros Hx. destruct (decide (x ∈ occupees)); auto.
Qed.

Lemma rapport_creneau_Ok creneau r :
  rapport_creneau solution (salles config) (salles_occupees solution) creneau
  = Ok r →
  c_creneau r = creneau
  ∧ c_salles_occupees r = salles_du_creneau solution creneau
  ∧ partition_salles config (c_salles_occupees r) (c_salles_libres r).
Proof.
  unfold rapport_creneau. intros (lignes & Hl & [= <-])%bind_Ok. simpl.
  split; [done|]. split; [apply salles_occupees_find|].
  apply partition_salles_intro. intros salle Hs.
  apply (lignes_Ok _ (λ salle salle_info,
           {| o_salle := salle; o_type := type salle_info;
              o_capacite := capacite salle_info;
              o_occupant := occupant solution creneau salle |}) o_salle)
    in Hl as [_ Hl]; [|done].
  apply Hl. by rewrite sorted_elem_of, elem_of_elements.
Qed.

Lemma export_creneau_Ok creneau x :
  creneau ∈ grille (planning config) →
  export_creneau (salles config) (salles_occupees solution)
    (occupation_details solution) creneau = Ok x →
  export_creneau_ok solution config (creneau_str creneau, x).
Proof.
  unfold export_creneau.
  intros Hgrille (occ & Hocc & (libres & Hlibres & [= <-])%bind_Ok)%bind_Ok.
  apply (lignes_Ok _ (λ salle salle_info,
           {| xo_nom := salle; xo_type := type salle_info;
              xo_capacite := capacite salle_info;
              xo_occupe_par :=
                PyDict.get (PyDict.find [] (occupation_details solution)
                              (creneau_str creneau)) salle |}) xo_nom)
    in Hocc as [Hocc1 Hocc2]; [|done].
  apply (lignes_Ok _ (λ salle salle_info,
           {| xl_nom := salle; xl_type := type salle_info;
              xl_capacite := capacite salle_info;
              xl_equipements := equipements salle_info |}) xl_nom)
    in Hlibres as [Hlibres1 _]; [|done].
  unfold export_creneau_ok; simpl. destruct creneau as [jour heure]; simpl.
  rewrite Hocc1, Hlibres1, !list_to_set_sorted_elements.
  split; [done|]. split; [done|]. split; [apply salles_occupees_find|].
  apply partition_salles_intro. intros salle Hs.
  apply Hocc2. by rewrite sorted_elem_of, elem_of_elements.
Qed.

(** After the loop over the grid, the exported dictionary has an entry
    under the key of every slot: the record computed for the last slot of
    the grid with that key. *)
Lemma export_dispo_get l dispo :
  for_each (λ acc creneau,
      r ← export_creneau (salles config) (salles_occupees solution)
            (occupation_details solution) creneau;
      Ok (setitem (creneau_str creneau) r acc)) l [] = Ok dispo →
  ∀ creneau, creneau ∈ l →
    ∃ x autre,
      PyDict.get dispo (creneau_str creneau) = Some x
      ∧ autre ∈ l
      ∧ creneau_str autre = creneau_str creneau
      ∧ export_creneau (salles config) (salles_occupees solution)
          (occupation_details solution) autre = Ok x.
Proof.
  apply (for_each_prefix (λ pre acc,
           ∀ creneau, creneau ∈ pre →
             ∃ x autre,
               PyDict.get acc (creneau_str creneau) = Some x
               ∧ autre ∈ pre
               ∧ creneau_str autre = creneau_str creneau
               ∧ export_creneau (salles config) (salles_occupees solution)
                   (occupation_details solution) autre = Ok x)).
  - by intros creneau ?%elem_of_nil.
  - intros pre c acc acc' IH (r & Hr & [= <-])%bind_Ok creneau Hin.
    rewrite get_setitem.
    destruct (decide (creneau_str creneau = creneau_str c)) as [Heq|Hne].
    + exists r, c. split; [done|]. split; [|done].
      apply elem_of_app. right. by apply list_elem_of_singleton.
    + apply elem_of_app in Hin as [Hin|Hin%list_elem_of_singleton];
        [|by subst].
      destruct (IH creneau Hin) as (x & autre & Hx & Hautre & Hkey & Hrun).
      exists x, autre. split; [done|]. split; [|done].
      apply elem_of_app. by left.
Qed.

End FreeRooms.

(** C10. In the report and in the export, the free rooms of every slot are
    the rooms of the configuration minus the rooms occupied in the slot:
    the two sets are disjoint and their union is the set of all rooms.
    The report has one record per slot of the grid, in grid order.  The
    export has, for every slot of the grid, an entry under the key of the
    slot, and every entry is the record of a slot of the grid with that
    key: the slot itself when no other slot of the grid has its key. *)
Theorem salles_libres_partition solution config :
  (∀ rapport,
     afficher_salles_libres solution config = Ok rapport →
     Forall2 (λ creneau r,
         c_creneau r = creneau
         ∧ c_salles_occupees r = salles_du_creneau solution creneau
         ∧ partition_salles config (c_salles_occupees r) (c_salles_libres r))
       (grille (planning config)) (r_creneaux rapport))
  ∧ (∀ data,
       export_salles_libres_to_json solution config = Ok (Some data) →
       Forall (export_creneau_ok solution config)
              (x_disponibilite_salles data)
       ∧ ∀ creneau, creneau ∈ grille (planning config) →
           ∃ x,
             PyDict.get (x_disponibilite_salles data) (creneau_str creneau)
             = Some x
             ∧ export_creneau_ok solution config (creneau_str creneau, x)
             ∧ ((∀ autre, autre ∈ grille (planning config) →
                   creneau_str autre = creneau_str creneau →
                   autre = creneau) →
                x_jour x = creneau.1
                ∧ x_heure x = creneau.2
                ∧ list_to_set (xo_nom <$> x_salles_occupees x)
                  = salles_du_creneau solution creneau
                ∧ list_to_set (xl_nom <$> x_salles_libres x)
                  = list_to_set (PyDict.keys (salles config))
                    ∖ salles_du_creneau solution creneau)).
Proof.
  split.
  - intros rapport. unfold afficher_salles_libres.
    intros (creneaux & Hc%mapM_Ok & (stats & _ & (tg & _ & [= <-])
      %bind_Ok)%bind_Ok)%bind_Ok. simpl.
    eapply Forall2_impl; [exact Hc|].
    intros creneau r. apply rapport_creneau_Ok.
  - intros data. unfold export_salles_libres_to_json.
    destruct solution as [|ge solution'] eqn:Hsol; [done|]. rewrite <- Hsol.
    intros (dispo & Hd & (stats & _ & [= <-])%bind_Ok)%bind_Ok. simpl.
    split.
    + revert Hd.
      apply (for_each_inv (Forall (export_creneau_ok solution config)));
        [constructor|].
      intros acc creneau acc' Hin Hacc (x & Hx & [= <-])%bind_Ok.
      unfold setitem. apply update_Forall; [done| |].
      * by apply export_creneau_Ok.
      * intros _ _. by apply export_creneau_Ok.
    + intros creneau Hin.
      destruct (export_dispo_get solution config _ _ Hd creneau Hin)
        as (x & autre & Hx & Hautre & Hkey & Hrun).
      exists x. split; [done|].
      pose proof (export_creneau_Ok solution config autre x Hautre Hrun)
        as Hok.
      rewrite Hkey in Hok. split; [done|]. intros Hseul.
      destruct Hok as (Hgrille & Hstr & Hocc & Hlibres & _). simpl in *.
      assert ((x_jour x, x_heure x) = creneau) as Hslot
        by (by apply Hseul).
      rewrite Hocc, Hslot in Hlibres. rewrite Hocc, Hslot.
      by destruct creneau; injection Hslot as -> ->.
Qed.

(** ** Occupancy rates *)

Lemma pourcentage_Ok a b :
  b ≠ 0 → a ≤ b → ∃ q, pourcentage a b = Ok q ∧ est_pourcentage q.
Proof.
  intros Hb Hab. unfold pourcentage. rewrite decide_False by done.
  eexists. split; [done|].
  assert (0 <= inject_Z (Z.of_nat a))%Q as Ha
    by (change 0%Q with (inject_Z 0); rewrite <- Zle_Qle; lia).
  assert (0 < inject_Z (Z.of_nat b))%Q as Hb'
    by (change 0%Q with (inject_Z 0); rewrite <- Zlt_Qlt; lia).
  split.
  - apply Qmult_le_0_compat; [|done].
    apply Qmult_le_0_compat; [done|].
    apply Qinv_le_0_compat, Qlt_le_weak, Hb'.
  - apply (Qle_trans _ (1 * 100)%Q); [|done].
    apply Qmult_le_compat_r; [|done].
    apply Qle_shift_div_r; [done|].
    rewrite Qmult_1_l, <- Zle_Qle. lia.
Qed.

Lemma elem_of_grille p creneau :
  creneau ∈ grille p ↔ creneau.1 ∈ jours p ∧ creneau.2 ∈ heures p.
Proof.
  unfold grille. rewrite elem_of_flat_map. destruct creneau as [j h]; simpl.
  split.
  - intros (j' & Hj & (h' & [= -> ->] & Hh)%list_elem_of_fmap). done.
  - intros [Hj Hh]. exists j. split; [done|]. by apply list_elem_of_fmap_2.
Qed.

Lemma length_grille p : length (grille p) = length (jours p) * length (heures p).
Proof.
  unfold grille. induction (jours p) as [|j js IH]; simpl; [done|].
  by rewrite length_app, length_fmap, IH.
Qed.

Lemma size_le_length (s : gset string) (l : list string) :
  (∀ x, x ∈ s → x ∈ l) → size s ≤ length l.
Proof.
  intros Hs. unfold size, set_size; simpl.
  apply submseteq_length, NoDup_submseteq; [apply NoDup_elements|].
  intros x Hx. by apply Hs, elem_of_elements.
Qed.

Section Rates.
Implicit Types (d : list (Creneau * gset string)).

Lemma compter_find (l : list string) (acc : list (string * nat)) salle :
  NoDup l →
  PyDict.find 0 (fold_left (λ acc s, PyDict.update 0 S s acc) l acc) salle
  = PyDict.find 0 acc salle + (if decide (salle ∈ l) then 1 else 0).
Proof.
  intros Hl. revert acc.
  induction Hl as [|x l Hx Hl IH]; intros acc; cbn [fold_left].
  - rewrite decide_False by apply not_elem_of_nil. lia.
  - rewrite IH, find_update.
    destruct (decide (salle = x)) as [->|Hne].
    + rewrite decide_False by done.
      rewrite decide_True by (by left). lia.
    + destruct (decide (salle ∈ l)) as [Hin|Hin].
      * rewrite decide_True by (by right). done.
      * rewrite decide_False; [done|].
        intros [?|?]%elem_of_cons; congruence.
Qed.

Lemma occupation_par_salle_find d salle :
  PyDict.find 0 (occupation_par_salle d) salle
  = length (filter (λ cs : Creneau * gset string, salle ∈ cs.2) d).
Proof.
  unfold occupation_par_salle.
  change (length (filter (λ cs : Creneau * gset string, salle ∈ cs.2) d))
    with (PyDict.find 0 (@nil (string * nat)) salle
          + length (filter (λ cs : Creneau * gset string, salle ∈ cs.2) d)).
  generalize (@nil (string * nat)) as acc.
  induction d as [|[k s] d IH]; intros acc; simpl; [lia|].
  rewrite IH, compter_find by apply NoDup_elements.
  rewrite filter_cons; simpl.
  destruct (decide (salle ∈ s)) as [Hin|Hin].
  - rewrite decide_True by (by apply elem_of_elements). simpl. lia.
  - rewrite decide_False by (by rewrite elem_of_elements). lia.
Qed.

Lemma total_occupations_le d n :
  Forall (λ cs : Creneau * gset string, size cs.2 ≤ n) d →
  total_occupations d ≤ length d * n.
Proof.
  induction 1 as [|[k s] d Hs _ IH]; [done|].
  rewrite total_occupations_cons. simpl in *. lia.
Qed.

Context (solution : Solution) (config : Config).
Context (Hgrille : sur_la_grille solution config).

Lemma salles_occupees_sur_la_grille :
  Forall (λ cs : Creneau * gset string,
            cs.1 ∈ grille (planning config)
            ∧ ∀ salle, salle ∈ cs.2 → salle ∈ PyDict.keys (salles config))
         (salles_occupees solution).
Proof.
  apply occuper_Forall; [constructor| |].
  - intros ge (Hj & Hh & Hs)%Hgrille. simpl. split.
    + by apply elem_of_grille.
    + by intros salle ->%elem_of_singleton.
  - intros k s1 s2 [Hk H1] [_ H2]. split; [done|].
    intros salle Hs. cbn [snd] in *.
    apply elem_of_union in Hs as [?|?]; auto.
Qed.

Lemma salles_occupees_length :
  length (salles_occupees solution)
  ≤ length (jours (planning config)) * length (heures (planning config)).
Proof.
  rewrite <- length_grille.
  rewrite <- (length_fmap fst (salles_occupees solution)).
  apply submseteq_length, NoDup_submseteq; [apply salles_occupees_NoDup|].
  intros k (cs & -> & Hcs)%list_elem_of_fmap.
  pose proof salles_occupees_sur_la_grille as H.
  rewrite Forall_forall in H. by apply H.
Qed.

Lemma salles_occupees_total_le :
  total_occupations (salles_occupees solution)
  ≤ length (jours (planning config)) * length (heures (planning config))
    * length (salles config).
Proof.
  etrans; [apply (total_occupations_le _ (length (salles config)))|].
  - eapply Forall_impl; [apply salles_occupees_sur_la_grille|].
    intros [k s] [_ Hs]. simpl in *.
    rewrite <- (length_fmap fst (salles config)). by apply size_le_length.
  - apply Nat.mul_le_mono_r, salles_occupees_length.
Qed.

End Rates.

Lemma mapM_Forall {A B : Type} (f : A → result B) (P : B → Prop) l ys :
  mapM f l = Ok ys → (∀ x y, x ∈ l → f x = Ok y → P y) → Forall P ys.
Proof.
  intros H%mapM_Ok HP. induction H as [|x y l ys Hxy _ IH]; constructor.
  - eapply HP; [|done]. by left.
  - apply IH. intros ?? Hin. apply HP. by right.
Qed.

Lemma rapport_creneau_total solution salles occupees creneau :
  (∀ salle, salle ∈ PyDict.find ∅ occupees creneau →
            salle ∈ PyDict.keys salles) →
  ∃ r, rapport_creneau solution salles occupees creneau = Ok r.
Proof.
  intros Hocc. unfold rapport_creneau.
  destruct (mapM_total_ex (λ salle,
      salle_info ← getitem salles salle;
      Ok {| o_salle := salle; o_type := type salle_info;
            o_capacite := capacite salle_info;
            o_occupant := occupant solution creneau salle |})
    (sorted (elements (PyDict.find ∅ occupees creneau)))) as [lignes ->].
  - intros salle Hs. rewrite sorted_elem_of, elem_of_elements in Hs.
    apply Hocc, get_is_Some in Hs as [info Hinfo].
    unfold getitem. rewrite Hinfo. by eexists.
  - by eexists.
Qed.

(** C6.  The numerator of the global rate, the sum over the occupied slots
    of the number of rooms in them, is the number of distinct occupied
    (slot, room) pairs.  For a schedule of the configuration (every entry
    at a slot of the planning grid and in a room of the configuration),
    with at least one day, one hour and one room, the report is produced
    and every room's rate and the global rate are between 0 and 100. *)
Theorem occupancy_rates solution config :
  total_occupations (salles_occupees solution) = size (paires_occupees solution)
  ∧ (sur_la_grille solution config →
     jours (planning config) ≠ [] →
     heures (planning config) ≠ [] →
     salles config ≠ [] →
     ∃ rapport,
       afficher_salles_libres solution config = Ok rapport
       ∧ r_total_occupations rapport = size (paires_occupees solution)
       ∧ s_salle <$> r_salles rapport = sorted (PyDict.keys (salles config))
       ∧ Forall (λ s, est_pourcentage (s_taux s)) (r_salles rapport)
       ∧ est_pourcentage (r_taux_global rapport)).
Proof.
  split; [apply salles_occupees_total|].
  intros Hgrille Hjours Hheures Hsalles.
  pose proof (salles_occupees_sur_la_grille solution config Hgrille) as Hocc.
  pose proof (salles_occupees_length solution config Hgrille) as Hlen.
  pose proof (salles_occupees_total_le solution config Hgrille) as Htot.
  set (total_creneaux :=
         length (jours (planning config)) * length (heures (planning config)))
    in *.
  assert (total_creneaux ≠ 0) as Hnz.
  { unfold total_creneaux. clear -Hjours Hheures.
    destruct (jours (planning config)) as [|j js]; [by destruct Hjours|].
    destruct (heures (planning config)) as [|h hs]; [by destruct Hheures|].
    simpl. lia. }
  assert (length (salles config) ≠ 0) as Hnz' by (by destruct (salles config)).
  unfold afficher_salles_libres. fold total_creneaux.
  destruct (mapM_total_ex
              (rapport_creneau solution (salles config)
                 (salles_occupees solution))
              (grille (planning config))) as [creneaux ->].
  { intros creneau _. apply rapport_creneau_total.
    refine (find_Forall (λ cs : Creneau * gset string,
             ∀ salle, salle ∈ cs.2 → salle ∈ PyDict.keys (salles config))
             ∅ _ creneau _ _).
    - eapply Forall_impl; [exact Hocc|]. intros cs [_ H]. exact H.
    - intros salle Hs. by apply elem_of_empty in Hs. }
  cbn [mbind result_bind].
  set (stat := λ salle : string,
         taux ← pourcentage
            (PyDict.find 0 (occupation_par_salle (salles_occupees solution))
               salle) total_creneaux;
         Ok {| s_salle := salle;
               s_nb_occupations :=
                 PyDict.find 0
                   (occupation_par_salle (salles_occupees solution)) salle;
               s_taux := taux |}).
  assert (∀ salle, ∃ s, stat salle = Ok s ∧ s_salle s = salle
                        ∧ est_pourcentage (s_taux s)) as Hstat.
  { intros salle. unfold stat.
    destruct (pourcentage_Ok
                (PyDict.find 0
                   (occupation_par_salle (salles_occupees solution)) salle)
                total_creneaux) as (q & -> & Hq); [done| |by eexists].
    rewrite occupation_par_salle_find.
    etrans; [apply length_filter|done]. }
  destruct (mapM_total_ex stat (sorted (PyDict.keys (salles config))))
    as [stats Hstats].
  { intros salle _. destruct (Hstat salle) as (s & ? & _). by exists s. }
  rewrite Hstats. cbn [mbind result_bind].
  destruct (pourcentage_Ok (total_occupations (salles_occupees solution))
              (total_creneaux * length (salles config)))
    as (tg & -> & Htg); [by apply Nat.neq_mul_0|done|].
  eexists. split; [done|]. simpl.
  split; [apply salles_occupees_total|]. split; [|split; [|done]].
  - apply mapM_Ok in Hstats. clear -Hstats Hstat.
    induction Hstats as [|salle s l stats Hs _ IH]; [done|].
    rewrite fmap_cons, IH. f_equal.
    destruct (Hstat salle) as (s' & Hs' & Hnom & _). congruence.
  - eapply mapM_Forall; [exact Hstats|].
    intros salle s _ Hs. destruct (Hstat salle) as (s' & Hs' & _ & Hq).
    congruence.
Qed.

Lemma sur_la_grille_Forall solution config :
  Forall (λ ge : string * Entry,
            e_jour ge.2 ∈ jours (planning config)
            ∧ e_heure ge.2 ∈ heures (planning config)
            ∧ e_salle ge.2 ∈ PyDict.keys (salles config))
         (entries solution) →
  sur_la_grille solution config.
Proof. intros H ge Hge. rewrite Forall_forall in H. by apply H. Defined.

Lemma occupancy_rates_witness :
  ∃ rapport,
    afficher_salles_libres Examples.emploi_inverse Examples.deux_jours
    = Ok rapport
    ∧ Forall (λ s, est_pourcentage (s_taux s)) (r_salles rapport)
    ∧ est_pourcentage (r_taux_global rapport).
Proof.
  destruct (proj2 (occupancy_rates Examples.emploi_inverse Examples.deux_jours))
    as (rapport & Hrun & _ & _ & Hsalles & Hglobal).
  - apply sur_la_grille_Forall. decide_by_compute.
  - simpl. discriminate.
  - simpl. discriminate.
  - simpl. discriminate.
  - exists rapport. split; [exact Hrun|]. split; [exact Hsalles|exact Hglobal].
Defined.

Lemma salles_libres_partition_witness :
  ∃ rapport data,
    afficher_salles_libres Examples.emploi_college Examples.college
    = Ok rapport
    ∧ export_salles_libres_to_json Examples.emploi_college Examples.college
      = Ok (Some data)
    ∧ Forall2 (λ creneau r,
          c_creneau r = creneau
          ∧ c_salles_occupees r
            = salles_du_creneau Examples.emploi_college creneau
          ∧ partition_salles Examples.college
              (c_salles_occupees r) (c_salles_libres r))
        (grille (planning Examples.college)) (r_creneaux rapport)
    ∧ Forall (export_creneau_ok Examples.emploi_college Examples.college)
             (x_disponibilite_salles data)
    ∧ ∃ x,
        PyDict.get (x_disponibilite_salles data) "Lundi 9h" = Some x
        ∧ x_jour x = "Lundi" ∧ x_heure x = "9h"
        ∧ list_to_set (xl_nom <$> x_salles_libres x)
          = list_to_set (PyDict.keys (salles Examples.college))
            ∖ salles_du_creneau Examples.emploi_college ("Lundi", "9h")
        ∧ xo_nom <$> x_salles_occupees x = ["S1"]
        ∧ xl_nom <$> x_salles_libres x = ["Labo"].
Proof.
  destruct (afficher_salles_libres Examples.emploi_college Examples.college)
    as [rapport|e] eqn:Hrun; [|vm_compute in Hrun; discriminate].
  destruct (export_salles_libres_to_json Examples.emploi_college
              Examples.college)
    as [[data|]|e] eqn:Hexp; [|vm_compute in Hexp; discriminate..].
  exists rapport, data. split; [reflexivity|]. split; [reflexivity|].
  destruct (salles_libres_partition Examples.emploi_college Examples.college)
    as [H1 H2].
  destruct (H2 data Hexp) as [Hall Hget].
  split; [exact (H1 rapport Hrun)|]. split; [exact Hall|].
  destruct (Hget ("Lundi", "9h")) as (x & Hx & _ & Hseul);
    [decide_by_compute|].
  destruct Hseul as (Hjour & Hheure & _ & Hlibres).
  { apply (proj1 (Forall_forall
             (λ autre : Creneau,
                creneau_str autre = creneau_str ("Lundi", "9h") →
                autre = ("Lundi", "9h")) _)).
    decide_by_compute. }
  exists x. split; [exact Hx|]. split; [exact Hjour|].
  split; [exact Hheure|]. split; [exact Hlibres|].
  vm_compute in Hexp. injection Hexp as <-.
  vm_compute in Hx. injection Hx as <-. split; reflexivity.
Defined.

(** ** The busiest and the quietest slot *)

Section Extremes.
Context {A : Type} (key : A → nat).

Lemma py_max_from_first p1 best p2 l :
  (∀ x, x ∈ p1 → key x < key best) →
  (∀ x, x ∈ p2 → key x ≤ key best) →
  ∃ l1 l2,
    p1 ++ best :: p2 ++ l = l1 ++ py_max_from key best l :: l2
    ∧ (∀ x, x ∈ l1 → key x < key (py_max_from key best l))
    ∧ (∀ x, x ∈ l2 → key x ≤ key (py_max_from key best l)).
Proof.
  revert p1 best p2. induction l as [|x l IH]; intros p1 best p2 H1 H2; simpl.
  - exists p1, p2. by rewrite app_nil_r.
  - case_decide as Hlt.
    + destruct (IH (p1 ++ best :: p2) x []) as (l1 & l2 & Heq & Hl1 & Hl2).
      * intros y [Hy|[->|Hy]%elem_of_cons]%elem_of_app;
          [specialize (H1 y Hy)|done|specialize (H2 y Hy)]; lia.
      * by intros y ?%elem_of_nil.
      * exists l1, l2. split; [|done].
        rewrite <- Heq, <- !app_assoc. done.
    + destruct (IH p1 best (p2 ++ [x])) as (l1 & l2 & Heq & Hl1 & Hl2).
      * done.
      * intros y [Hy| ->%list_elem_of_singleton]%elem_of_app; [auto|lia].
      * exists l1, l2. split; [|done].
        rewrite <- Heq, <- !app_assoc. done.
Qed.

Lemma py_min_from_first p1 best p2 l :
  (∀ x, x ∈ p1 → key best < key x) →
  (∀ x, x ∈ p2 → key best ≤ key x) →
  ∃ l1 l2,
    p1 ++ best :: p2 ++ l = l1 ++ py_min_from key best l :: l2
    ∧ (∀ x, x ∈ l1 → key (py_min_from key best l) < key x)
    ∧ (∀ x, x ∈ l2 → key (py_min_from key best l) ≤ key x).
Proof.
  revert p1 best p2. induction l as [|x l IH]; intros p1 best p2 H1 H2; simpl.
  - exists p1, p2. by rewrite app_nil_r.
  - case_decide as Hlt.
    + destruct (IH (p1 ++ best :: p2) x []) as (l1 & l2 & Heq & Hl1 & Hl2).
      * intros y [Hy|[->|Hy]%elem_of_cons]%elem_of_app;
          [specialize (H1 y Hy)|done|specialize (H2 y Hy)]; lia.
      * by intros y ?%elem_of_nil.
      * exists l1, l2. split; [|done].
        rewrite <- Heq, <- !app_assoc. done.
    + destruct (IH p1 best (p2 ++ [x])) as (l1 & l2 & Heq & Hl1 & Hl2).
      * done.
      * intros y [Hy| ->%list_elem_of_singleton]%elem_of_app; [auto|lia].
      * exists l1, l2. split; [|done].
        rewrite <- Heq, <- !app_assoc. done.
Qed.

End Extremes.

Lemma py_max_first_max l :
  match py_max snd l with
  | Some best => first_max l best
  | None => l = []
  end.
Proof.
  destruct l as [|x l]; simpl; [done|].
  destruct (py_max_from_first snd [] x [] l) as (l1 & l2 & Heq & H1 & H2);
    [by intros ? ?%elem_of_nil..|].
  by exists l1, l2.
Qed.

Lemma py_min_first_min l :
  match py_min snd l with
  | Some best => first_min l best
  | None => l = []
  end.
Proof.
  destruct l as [|x l]; simpl; [done|].
  destruct (py_min_from_first snd [] x [] l) as (l1 & l2 & Heq & H1 & H2);
    [by intros ? ?%elem_of_nil..|].
  by exists l1, l2.
Qed.

Lemma occupation_par_creneau_keys d :
  (occupation_par_creneau d).*1 = d.*1.
Proof.
  unfold occupation_par_creneau. rewrite <- list_fmap_compose.
  by apply list_fmap_ext.
Qed.

Lemma salles_occupees_nil solution :
  salles_occupees solution = [] → entries solution = [].
Proof.
  intros H. apply (f_equal (fmap fst)) in H.
  rewrite salles_occupees_keys in H.
  by destruct (entries solution).
Qed.

(** C7, as the program has it.  The busiest and the quietest slot are
    chosen among the slots that hold at least one entry, by the number of
    distinct rooms occupied in the slot; the slots are compared in the order
    in which the schedule first mentions them (groups in schedule order,
    then the entries of each group), and the first extremal slot in that
    order is reported.  Nothing is reported for an empty schedule. *)
Theorem creneaux_extremes solution config rapport :
  afficher_salles_libres solution config = Ok rapport →
  (occupation_par_creneau (salles_occupees solution)).*1
  = first_occurrences (e_creneau ∘ snd <$> entries solution)
  ∧ (∀ cn, cn ∈ occupation_par_creneau (salles_occupees solution) →
           cn.2 = size (salles_du_creneau solution cn.1))
  ∧ match r_creneau_max rapport with
    | Some best =>
        first_max (occupation_par_creneau (salles_occupees solution)) best
    | None => entries solution = []
    end
  ∧ match r_creneau_min rapport with
    | Some best =>
        first_min (occupation_par_creneau (salles_occupees solution)) best
    | None => entries solution = []
    end.
Proof.
  unfold afficher_salles_libres.
  intros (creneaux & _ & (stats & _ & (tg & _ & [= <-])%bind_Ok)%bind_Ok)
    %bind_Ok.
  cbn [r_creneau_max r_creneau_min].
  split; [by rewrite occupation_par_creneau_keys, salles_occupees_keys|].
  split.
  - intros cn (cs & -> & Hcs)%list_elem_of_fmap. cbn [fst snd].
    rewrite <- salles_occupees_find. f_equal. symmetry.
    destruct cs as [k s]. apply find_elem_of; [|done].
    apply salles_occupees_NoDup.
  - pose proof (py_max_first_max
                  (occupation_par_creneau (salles_occupees solution))) as Hmax.
    pose proof (py_min_first_min
                  (occupation_par_creneau (salles_occupees solution))) as Hmin.
    split.
    + destruct (py_max snd _); [done|].
      apply salles_occupees_nil. by eapply fmap_nil_inv.
    + destruct (py_min snd _); [done|].
      apply salles_occupees_nil. by eapply fmap_nil_inv.
Qed.

Lemma creneaux_extremes_witness :
  ∃ rapport,
    afficher_salles_libres Examples.emploi_inverse Examples.deux_jours
    = Ok rapport
    ∧ r_creneau_max rapport = Some ("Mardi", "8h", 1)
    ∧ first_max
        (occupation_par_creneau (salles_occupees Examples.emploi_inverse))
        ("Mardi", "8h", 1).
Proof.
  destruct (afficher_salles_libres Examples.emploi_inverse Examples.deux_jours)
    as [rapport|e] eqn:Hrun; [|vm_compute in Hrun; discriminate].
  exists rapport. split; [reflexivity|].
  pose proof (creneaux_extremes _ _ _ Hrun) as (_ & _ & Hmax & _).
  assert (r_creneau_max rapport = Some ("Mardi", "8h", 1)) as Hbest.
  { vm_compute in Hrun. by injection Hrun as <-. }
  split; [exact Hbest|]. by rewrite Hbest in Hmax.
Defined.

(** C7, as the specification has it, fails: the program's schedule for
    [deux_jours] under [mardi_d_abord] has one room occupied on each of the
    two slots; the grid order names Monday, the program names Tuesday, both
    as the busiest and as the quietest slot. *)
Lemma tie_not_in_grid_order :
  (o ← create_schedule_from_config Examples.mardi_d_abord
         (Some Examples.deux_jours);
   Ok (returned o)) = Ok (Some Examples.emploi_inverse)
  ∧ (r ← afficher_salles_libres Examples.emploi_inverse Examples.deux_jours;
     Ok (r_creneau_max r, r_creneau_min r))
    = Ok (Some ("Mardi", "8h", 1), Some ("Mardi", "8h", 1))
  ∧ creneau_max_grille Examples.emploi_inverse Examples.deux_jours
    = Some ("Lundi", "8h", 1)
  ∧ creneau_min_grille Examples.emploi_inverse Examples.deux_jours
    = Some ("Lundi", "8h", 1).
Proof. repeat split; vm_compute; reflexivity. Qed.

(** ** The validator *)

Lemma flat_map_bind {A B : Type} (f : A → list B) l : flat_map f l = l ≫= f.
Proof. induction l as [|x l IH]; [done|]. simpl. by rewrite IH. Qed.

Lemma fold_update_NoDup {K V E : Type} `{EqDecision K}
    (dflt : V) (g : E → V → V) (key : E → K) (es : list E) (d : list (K * V)) :
  NoDup d.*1 →
  NoDup (fold_left (λ d e, PyDict.update dflt (g e) (key e) d) es d).*1.
Proof.
  revert d. induction es as [|e es IH]; intros d Hd; simpl; [done|].
  by apply IH, update_keys_NoDup.
Qed.

Lemma find_ne_dflt {K V : Type} `{EqDecision K} (dflt : V) (d : list (K * V)) k :
  PyDict.find dflt d k ≠ dflt → (k, PyDict.find dflt d k) ∈ d.
Proof.
  induction d as [|[k0 v0] d IH]; simpl; [done|].
  case_decide as Hk; [subst; by left|]. intros H. right. by apply IH.
Qed.

Lemma length_filter_NoDup {A : Type} `{EqDecision A} (l : list A) x :
  NoDup l →
  length (filter (λ y, y = x) l) = if decide (x ∈ l) then 1 else 0.
Proof.
  induction 1 as [|y l Hy Hl IH].
  - by rewrite decide_False by apply not_elem_of_nil.
  - rewrite filter_cons. destruct (decide (y = x)) as [->|Hne].
    + rewrite decide_True by (by left). simpl. rewrite IH.
      by rewrite decide_False.
    + rewrite IH. destruct (decide (x ∈ l)) as [Hin|Hin].
      * by rewrite decide_True by (by right).
      * rewrite decide_False; [done|].
        intros [?|?]%elem_of_cons; congruence.
Qed.

Lemma length_filter_fmap {A B : Type} (f : A → B) (P : B → Prop)
    `{∀ y, Decision (P y)} (l : list A) :
  length (filter P (f <$> l)) = length (filter (λ x, P (f x)) l).
Proof.
  induction l as [|x l IH]; [done|].
  rewrite fmap_cons, !filter_cons. case_decide; simpl; by rewrite IH.
Qed.

Section Conflicts.
Context (name : ResourceName).
Implicit Types (es : list (string * Entry)) (d : list (string * list Creneau)).

Lemma grouper_find_from es d r :
  PyDict.find []
    (fold_left (λ d ge,
       PyDict.update [] (λ l, l ++ [e_creneau ge.2]) (ressource name ge) d)
     es d) r
  = PyDict.find [] d r
    ++ (e_creneau ∘ snd <$> filter (λ ge, ressource name ge = r) es).
Proof.
  revert d. induction es as [|e es IH]; intros d; cbn [fold_left].
  - by rewrite app_nil_r.
  - rewrite IH, find_update, filter_cons.
    destruct (decide (r = ressource name e)) as [->|Hne].
    + rewrite decide_True by done. by rewrite fmap_cons, <- app_assoc.
    + by rewrite decide_False by congruence.
Qed.

Lemma grouper_find es r :
  PyDict.find [] (grouper name es) r
  = e_creneau ∘ snd <$> filter (λ ge, ressource name ge = r) es.
Proof. unfold grouper. by rewrite grouper_find_from. Qed.

Lemma grouper_NoDup es : NoDup (grouper name es).*1.
Proof.
  unfold grouper.
  apply (fold_update_NoDup [] (λ (ge : string * Entry) l, l ++ [e_creneau ge.2])
           (ressource name)).
  constructor.
Qed.

Lemma grouper_snoc es ge :
  grouper name (es ++ [ge])
  = PyDict.update [] (λ l, l ++ [e_creneau ge.2]) (ressource name ge)
                  (grouper name es).
Proof. unfold grouper. by rewrite fold_left_app. Qed.

End Conflicts.

Lemma Counter_find_from slots (c : list (Creneau * nat)) slot :
  PyDict.find 0 (fold_left (λ c slot, PyDict.update 0 S slot c) slots c) slot
  = PyDict.find 0 c slot + length (filter (λ s, s = slot) slots).
Proof.
  revert c. induction slots as [|s slots IH]; intros c; cbn [fold_left].
  - simpl. lia.
  - rewrite IH, find_update, filter_cons.
    destruct (decide (slot = s)) as [->|Hne].
    + rewrite decide_True by done. simpl. lia.
    + by rewrite decide_False by congruence.
Qed.

Lemma Counter_find slots slot :
  PyDict.find 0 (Counter slots) slot = length (filter (λ s, s = slot) slots).
Proof. unfold Counter. by rewrite Counter_find_from. Qed.

Lemma Counter_NoDup slots : NoDup (Counter slots).*1.
Proof.
  unfold Counter.
  apply (fold_update_NoDup 0 (λ (_ : Creneau) n, S n) id). constructor.
Qed.

Lemma Counter_elem_of slots slot n :
  (slot, n) ∈ Counter slots
  ↔ n ≠ 0 ∧ n = length (filter (λ s, s = slot) slots).
Proof.
  split.
  - intros Hin. pose proof Hin as Hfind.
    apply (find_elem_of 0) in Hfind; [|apply Counter_NoDup].
    rewrite Counter_find in Hfind. split; [|done].
    apply (list_elem_of_fmap_2 fst) in Hin. simpl in Hin.
    unfold Counter in Hin.
    rewrite (fold_update_keys 0 (λ (_ : Creneau) n, S n) id) in Hin.
    simpl in Hin. rewrite filter_all in Hin by (intros; apply not_elem_of_nil).
    rewrite list_fmap_id in Hin.
    assert (slot ∈ slots) as Hslot.
    { clear -Hin. induction slots as [|s slots IH]; simpl in Hin.
      - by apply elem_of_nil in Hin.
      - apply elem_of_cons in Hin as [->|Hin]; [by left|].
        apply list_elem_of_filter in Hin as [_ Hin]. right. by apply IH. }
    subst n. intros Hz. apply length_zero_iff_nil in Hz.
    apply (filter_nil_not_elem_of _ _ slot) in Hz; done.
  - intros [Hn ->]. rewrite <- Counter_find. apply find_ne_dflt.
    by rewrite Counter_find.
Qed.

Section ConflictMessages.
Context (name : ResourceName) (es : list (string * Entry)).

Lemma count_simultanes r slot :
  length (filter (λ s, s = slot) (PyDict.find [] (grouper name es) r))
  = length (filter (λ ge, ressource name ge = r ∧ e_creneau ge.2 = slot) es).
Proof.
  rewrite grouper_find, length_filter_fmap, list_filter_filter.
  f_equal. apply list_filter_iff. intros ge. simpl. tauto.
Qed.

Lemma elem_of_conflits_messages m :
  m ∈ conflits_messages name (grouper name es)
  ↔ ∃ r slot n,
      m = ErreurConflit name r n slot
      ∧ 1 < n
      ∧ n = length (filter (λ ge, ressource name ge = r
                                  ∧ e_creneau ge.2 = slot) es).
Proof.
  unfold conflits_messages. rewrite elem_of_flat_map. split.
  - intros ([r slots] & Hrs & ([slot n] & Hsc & Hm)%elem_of_flat_map).
    simpl in *. case_decide as Hn; [|by apply elem_of_nil in Hm].
    apply list_elem_of_singleton in Hm as ->.
    apply (find_elem_of []) in Hrs; [|apply grouper_NoDup]. subst slots.
    apply Counter_elem_of in Hsc as [_ Hsc]. rewrite count_simultanes in Hsc.
    by exists r, slot, n.
  - intros (r & slot & n & -> & Hn & Hcount).
    rewrite <- count_simultanes in Hcount.
    exists (r, PyDict.find [] (grouper name es) r). split.
    + apply find_ne_dflt. intros Hnil. rewrite Hnil in Hcount. simpl in *. lia.
    + apply elem_of_flat_map. exists (slot, n). simpl. split.
      * apply Counter_elem_of. split; [lia|done].
      * rewrite decide_True by done. by left.
Qed.

Lemma conflits_messages_NoDup :
  NoDup (conflits_messages name (grouper name es)).
Proof.
  unfold conflits_messages. rewrite flat_map_bind. apply NoDup_bind.
  - intros [r1 s1] [r2 s2] m H1 H2 Hm1 Hm2. simpl in *.
    apply elem_of_flat_map in Hm1 as ([slot1 n1] & _ & Hm1).
    apply elem_of_flat_map in Hm2 as ([slot2 n2] & _ & Hm2).
    simpl in *. repeat case_decide; try (by apply elem_of_nil in Hm1);
      try (by apply elem_of_nil in Hm2).
    apply list_elem_of_singleton in Hm1 as ->.
    apply list_elem_of_singleton in Hm2 as [= -> _ _].
    apply (find_elem_of []) in H1, H2; try apply grouper_NoDup. congruence.
  - intros [r slots] _. simpl. rewrite flat_map_bind. apply NoDup_bind.
    + intros [slot1 n1] [slot2 n2] m _ _ Hm1 Hm2. simpl in *.
      repeat case_decide; try (by apply elem_of_nil in Hm1);
        try (by apply elem_of_nil in Hm2).
      apply list_elem_of_singleton in Hm1 as ->.
      by apply list_elem_of_singleton in Hm2 as [= -> ->].
    + intros [slot n] _. simpl. case_decide; [apply NoDup_singleton|constructor].
    + eapply NoDup_fmap_1, Counter_NoDup.
  - eapply NoDup_fmap_1, grouper_NoDup.
Qed.

(** One line for every resource and slot with more than one entry, none
    otherwise. *)
Lemma conflits_messages_count name' r n slot :
  length (filter (λ m, m = ErreurConflit name' r n slot)
                 (conflits_messages name (grouper name es)))
  = if decide (name' = name ∧ 1 < n
               ∧ n = length (filter (λ ge, ressource name ge = r
                                           ∧ e_creneau ge.2 = slot) es))
    then 1 else 0.
Proof.
  rewrite length_filter_NoDup by apply conflits_messages_NoDup.
  apply decide_ext. rewrite elem_of_conflits_messages. split.
  - intros (r' & slot' & n' & [= -> -> -> ->] & Hn & Hc). done.
  - intros (-> & Hn & Hc). by exists r, slot, n.
Qed.

End ConflictMessages.

Section ValidatorLoop.
Context (professeurs : list (string * list string))
        (salles : list (string * SalleInfo))
        (infos_matieres : list (string * string)).

Local Abbreviation inv := (verifier_inv professeurs salles infos_matieres).
Local Abbreviation step := (verifier_entry professeurs salles infos_matieres).

Lemma verifier_entry_total st ge :
  e_prof ge.2 ∈ PyDict.keys professeurs →
  e_matiere ge.2 ∈ PyDict.keys infos_matieres →
  e_salle ge.2 ∈ PyDict.keys salles →
  ∃ st', step st ge = Ok st'.
Proof.
  intros [ens Hens]%get_is_Some [requis Hreq]%get_is_Some
    [info Hinfo]%get_is_Some.
  unfold verifier_entry, getitem. rewrite Hens, Hreq, Hinfo. by eexists.
Qed.

Lemma verifier_entry_inv pre st ge st' :
  inv pre st → step st ge = Ok st' → inv (pre ++ [ge]) st'.
Proof.
  intros (Hn & Hp & Hs & Hg & Hout & Hvalid). unfold verifier_entry.
  intros (ens & Hens%getitem_Ok & (requis & Hreq%getitem_Ok
    & (info & Hinfo%getitem_Ok & [= <-])%bind_Ok)%bind_Ok)%bind_Ok.
  unfold verifier_inv.
  rewrite !grouper_snoc, flat_map_app, length_app. cbn [flat_map length].
  unfold erreurs_entree at 2. rewrite Hens, Hreq, Hinfo, app_nil_r.
  destruct (decide (e_matiere ge.2 ∉ ens)), (decide (type info ≠ requis));
    cbn [fail_with record_entry cours_assignes conflits_prof conflits_salle
         conflits_groupe sortie is_valid ressource];
    rewrite Hn, Hp, Hs, Hg, Hout, ?app_nil_r, <- ?app_assoc;
    (split; [lia|]); repeat (split; [done|]).
  - symmetry. apply bool_decide_eq_false. by intros [_ ?]%app_eq_nil.
  - symmetry. apply bool_decide_eq_false. by intros [_ ?]%app_eq_nil.
  - symmetry. apply bool_decide_eq_false. by intros [_ ?]%app_eq_nil.
  - by rewrite Hvalid, Hout.
Qed.

Lemma verifier_loop_inv es st :
  for_each step es
    {| is_valid := true; cours_assignes := 0; conflits_prof := [];
       conflits_salle := []; conflits_groupe := []; sortie := [] |} = Ok st →
  inv es st.
Proof.
  apply (for_each_prefix inv).
  - by repeat split.
  - intros pre ge s s'. apply verifier_entry_inv.
Qed.

End ValidatorLoop.

Section ValidatorReport.
Context (professeurs : list (string * list string))
        (salles : list (string * SalleInfo))
        (infos_matieres : list (string * string))
        (solution : Solution) (cours_planifies : list Cours).

Local Abbreviation es := (entries solution).
Local Abbreviation erreurs :=
  (flat_map (erreurs_entree professeurs salles infos_matieres)
            (entries solution)).
Local Abbreviation erreur_nombre :=
  (if decide (length (entries solution) ≠ length cours_planifies)
   then [ErreurNombre (length cours_planifies) (length (entries solution))]
   else []).
Local Abbreviation conflits :=
  (conflits_messages Professeur (grouper Professeur (entries solution))
   ++ conflits_messages Salle (grouper Salle (entries solution))
   ++ conflits_messages Groupe (grouper Groupe (entries solution))).

(** What is returned and printed, once the first loop has gone through. *)
Lemma verifier_solution_Ok valid messages :
  verifier_solution professeurs salles infos_matieres solution cours_planifies
  = Ok (valid, messages) →
  valid = bool_decide (erreurs = [] ∧ erreur_nombre = [] ∧ conflits = [])
  ∧ messages
    = erreurs ++ erreur_nombre ++ conflits
      ++ (if valid then [SolutionValide (length es)] else []).
Proof.
  unfold verifier_solution. intros (st & Hst & [= <- <-])%bind_Ok.
  apply verifier_loop_inv in Hst as (Hn & Hp & Hs & Hg & Hout & Hvalid).
  rewrite Hn.
  case_decide as Hnombre;
    cbn [fail_with is_valid sortie cours_assignes conflits_prof
         conflits_salle conflits_groupe];
    rewrite ?Hvalid, ?Hn, Hp, Hs, Hg, Hout.
  - split.
    + apply bool_decide_ext. split; [by intros [? _]|by intros (_ & ? & _)].
    + by rewrite <- !app_assoc.
  - split.
    + apply bool_decide_ext. rewrite bool_decide_eq_true. tauto.
    + done.
Qed.

Lemma erreurs_entree_pas_conflit ge m :
  m ∈ erreurs_entree professeurs salles infos_matieres ge →
  is_erreur m = true ∧ ∀ name r n slot, m ≠ ErreurConflit name r n slot.
Proof.
  unfold erreurs_entree. intros [Hm|Hm]%elem_of_app.
  - destruct (PyDict.get professeurs _); [|by apply elem_of_nil in Hm].
    case_decide; [|by apply elem_of_nil in Hm].
    by apply list_elem_of_singleton in Hm as ->.
  - destruct (PyDict.get infos_matieres _); [|by apply elem_of_nil in Hm].
    destruct (PyDict.get salles _); [|by apply elem_of_nil in Hm].
    case_decide; [|by apply elem_of_nil in Hm].
    by apply list_elem_of_singleton in Hm as ->.
Qed.

Lemma conflits_erreur m : m ∈ conflits → is_erreur m = true.
Proof.
  intros [H|[H|H]%elem_of_app]%elem_of_app;
    apply elem_of_conflits_messages in H as (? & ? & ? & -> & _); done.
Qed.

Lemma filter_pas_conflit (l : list Message) name r n slot :
  (∀ m, m ∈ l → m ≠ ErreurConflit name r n slot) →
  filter (λ m, m = ErreurConflit name r n slot) l = [].
Proof.
  intros Hl. induction l as [|m l IH]; [done|].
  rewrite filter_cons_False by (apply Hl; by left).
  apply IH. intros ??. apply Hl. by right.
Qed.

Lemma conflits_count name r n slot :
  length (filter (λ m, m = ErreurConflit name r n slot) conflits)
  = if decide (1 < n ∧ n = length (simultanes solution name r slot))
    then 1 else 0.
Proof.
  rewrite !filter_app, !length_app, !conflits_messages_count.
  unfold simultanes.
  destruct name; repeat case_decide; naive_solver lia.
Qed.

End ValidatorReport.

(** C3, as the program has it.  On a schedule whose teachers, subjects and
    rooms are all keys of the dictionaries it is given, the validator ends
    normally.  It returns only the validity flag and prints one line per
    violation, going on after the first: the competency and room-type lines
    of every entry, the line of the course count, and for every teacher,
    room or group with more than one entry in a slot exactly one conflict
    line, which carries the kind of resource, its name, the number of
    simultaneous entries and the slot, not the entries.  A valid schedule
    prints the success line alone. *)
Theorem verifier_solution_report
    professeurs salles infos_matieres solution cours_planifies :
  (references_connues professeurs salles infos_matieres solution →
   ∃ out, verifier_solution professeurs salles infos_matieres solution
            cours_planifies = Ok out)
  ∧ ∀ valid messages,
      verifier_solution professeurs salles infos_matieres solution
                        cours_planifies = Ok (valid, messages) →
      (valid = true → messages = [SolutionValide (length (entries solution))])
      ∧ (valid = false →
         messages ≠ [] ∧ Forall (λ m, is_erreur m = true) messages)
      ∧ (∀ ge m,
           ge ∈ entries solution →
           m ∈ erreurs_entree professeurs salles infos_matieres ge →
           m ∈ messages)
      ∧ (ErreurNombre (length cours_planifies) (length (entries solution))
           ∈ messages
         ↔ length (entries solution) ≠ length cours_planifies)
      ∧ ∀ name resource count slot,
          length (filter (λ m, m = ErreurConflit name resource count slot)
                         messages)
          = if decide (1 < count
                       ∧ count = length (simultanes solution name resource slot))
            then 1 else 0.
Proof.
  split.
  - intros Href. unfold verifier_solution.
    destruct (for_each_total
                (verifier_entry professeurs salles infos_matieres)
                (entries solution)
                {| is_valid := true; cours_assignes := 0;
                   conflits_prof := []; conflits_salle := [];
                   conflits_groupe := []; sortie := [] |}) as [st ->].
    + intros st ge (H1 & H2 & H3)%Href. by apply verifier_entry_total.
    + by eexists.
  - intros valid messages [Hvalid Hmsgs]%verifier_solution_Ok.
    assert (∀ m, m ∈ flat_map (erreurs_entree professeurs salles infos_matieres)
                       (entries solution) →
                 is_erreur m = true
                 ∧ ∀ name r n slot, m ≠ ErreurConflit name r n slot) as Herr.
    { intros m (ge & _ & Hm)%elem_of_flat_map.
      by eapply erreurs_entree_pas_conflit. }
    split; [|split; [|split; [|split]]].
    + intros ->. symmetry in Hvalid.
      apply bool_decide_eq_true in Hvalid as (H1 & H2 & H3).
      by rewrite Hmsgs, H1, H2, H3.
    + intros ->. rewrite Hmsgs, app_nil_r. split.
      * symmetry in Hvalid. apply bool_decide_eq_false in Hvalid.
        intros (H1 & (H2 & H3)%app_eq_nil)%app_eq_nil. by apply Hvalid.
      * rewrite Forall_app. split; [|rewrite Forall_app; split].
        -- rewrite Forall_forall. intros m Hm. by apply Herr.
        -- case_decide; by repeat constructor.
        -- rewrite Forall_forall. intros m Hm. by eapply conflits_erreur.
    + intros ge m Hge Hm. rewrite Hmsgs, elem_of_app. left.
      apply elem_of_flat_map. by exists ge.
    + rewrite Hmsgs, !elem_of_app. split.
      * intros [H|[H|[[H|[H|H]]|H]]].
        -- apply elem_of_flat_map in H as (ge & _ & H).
           unfold erreurs_entree in H.
           apply elem_of_app in H as [H|H];
             repeat (destruct (PyDict.get _ _); [|by apply elem_of_nil in H]);
             (case_decide; [|by apply elem_of_nil in H]);
             by apply list_elem_of_singleton in H.
        -- case_decide; [done|by apply elem_of_nil in H].
        -- by apply elem_of_conflits_messages in H as (? & ? & ? & ? & _).
        -- by apply elem_of_conflits_messages in H as (? & ? & ? & ? & _).
        -- by apply elem_of_conflits_messages in H as (? & ? & ? & ? & _).
        -- destruct valid; [|by apply elem_of_nil in H].
           by apply list_elem_of_singleton in H.
      * intros Hne. right. left. rewrite decide_True by done. by left.
    + intros name r n slot. rewrite Hmsgs, !filter_app, !length_app.
      rewrite (filter_pas_conflit
                 (flat_map (erreurs_entree professeurs salles infos_matieres)
                           (entries solution)))
        by (intros m Hm; by apply Herr).
      rewrite (filter_pas_conflit (if decide _ then _ else _))
        by (intros m Hm; case_decide;
            [by apply list_elem_of_singleton in Hm as ->
            |by apply elem_of_nil in Hm]).
      rewrite (filter_pas_conflit (if valid then _ else _))
        by (intros m Hm; destruct valid;
            [by apply list_elem_of_singleton in Hm as ->
            |by apply elem_of_nil in Hm]).
      rewrite <- !length_app, <- !filter_app. simpl. rewrite app_nil_r.
      apply conflits_count.
Qed.

Lemma verifier_solution_report_witness :
  length (simultanes Examples.conflit_math Salle "S1" ("Lundi", "8h")) = 2
  ∧ verifier_solution Examples.deux_profs Examples.une_salle
      Examples.deux_matieres Examples.conflit_math Examples.deux_cours
    = Ok (false, [ErreurConflit Salle "S1" 2 ("Lundi", "8h")])
  ∧ length (filter (λ m, m = ErreurConflit Salle "S1" 2 ("Lundi", "8h"))
                   [ErreurConflit Salle "S1" 2 ("Lundi", "8h")])
    = 1.
Proof.
  split; [vm_compute; reflexivity|].
  assert (verifier_solution Examples.deux_profs Examples.une_salle
            Examples.deux_matieres Examples.conflit_math Examples.deux_cours
          = Ok (false, [ErreurConflit Salle "S1" 2 ("Lundi", "8h")])) as Hrun
    by (vm_compute; reflexivity).
  split; [exact Hrun|].
  destruct (proj2 (verifier_solution_report _ _ _ _ _) _ _ Hrun)
    as (_ & _ & _ & _ & Hcount).
  rewrite Hcount. vm_compute. reflexivity.
Defined.

(** C3, as the specification has it, fails: the validator returns the same
    flag and prints the same single line for a room conflict between
    groups 6A and 6B in Math and for one between groups 5A and 5B in
    Physique, so the line does not name the entries in conflict; and on a
    schedule with a teacher it does not know it raises instead of
    returning. *)
Lemma conflict_line_is_anonymous :
  verifier_solution Examples.deux_profs Examples.une_salle
    Examples.deux_matieres Examples.conflit_math Examples.deux_cours
  = Ok (false, [ErreurConflit Salle "S1" 2 ("Lundi", "8h")])
  ∧ verifier_solution Examples.deux_profs Examples.une_salle
      Examples.deux_matieres Examples.conflit_physique Examples.deux_cours
    = Ok (false, [ErreurConflit Salle "S1" 2 ("Lundi", "8h")])
  ∧ en_conflit_de_salle Examples.conflit_math = [("6A", "Math"); ("6B", "Math")]
  ∧ en_conflit_de_salle Examples.conflit_physique
    = [("5A", "Physique"); ("5B", "Physique")]
  ∧ (¬ ∃ lire, nomme_les_entrees lire)
  ∧ verifier_solution [] Examples.une_salle Examples.deux_matieres
      Examples.conflit_math Examples.deux_cours
    = Raise (KeyError "Dupont").
Proof.
  assert (verifier_solution Examples.deux_profs Examples.une_salle
            Examples.deux_matieres Examples.conflit_math Examples.deux_cours
          = Ok (false, [ErreurConflit Salle "S1" 2 ("Lundi", "8h")])) as H1
    by (vm_compute; reflexivity).
  assert (verifier_solution Examples.deux_profs Examples.une_salle
            Examples.deux_matieres Examples.conflit_physique Examples.deux_cours
          = Ok (false, [ErreurConflit Salle "S1" 2 ("Lundi", "8h")])) as H2
    by (vm_compute; reflexivity).
  split; [done|]. split; [done|].
  split; [vm_compute; reflexivity|]. split; [vm_compute; reflexivity|].
  split; [|vm_compute; reflexivity].
  intros [lire Hlire].
  pose proof (Hlire _ _ _ _ _ _ H1) as E1.
  pose proof (Hlire _ _ _ _ _ _ H2) as E2.
  rewrite E1 in E2. vm_compute in E2. discriminate.
Qed.

(** * Further properties of the program *)

(** ** [validate_config] *)

(** X1. The three kinds of error of [validate_config] are reported exactly
    for: a subject taught by a teacher that is not a declared subject; a
    subject of a level's curriculum that no teacher teaches; a declared
    subject whose required room type is the type of no room. *)
Theorem validate_config_errors config :
  (∀ prof_nom matiere,
     MatiereInconnue prof_nom matiere ∈ validate_config config
     ↔ ∃ prof_info,
         (prof_nom, prof_info) ∈ professeurs config
         ∧ matiere ∈ matieres_enseignees prof_info
         ∧ matiere ∉ PyDict.keys (matieres config))
  ∧ (∀ matiere niveau,
       AucunProfesseur matiere niveau ∈ validate_config config
       ↔ ∃ cur,
           (niveau, cur) ∈ curriculum config
           ∧ matiere ∈ PyDict.keys (matieres_obligatoires cur)
           ∧ ∀ p, p ∈ professeurs config → matiere ∉ matieres_enseignees p.2)
  ∧ (∀ matiere requise,
       AucuneSalle matiere requise ∈ validate_config config
       ↔ ∃ matiere_info,
           (matiere, matiere_info) ∈ matieres config
           ∧ salle_requise matiere_info = requise
           ∧ ∀ s, s ∈ salles config → type s.2 ≠ requise).
Proof.
  assert (∀ matiere, profs_competents config matiere = []
            ↔ ∀ p, p ∈ professeurs config → matiere ∉ matieres_enseignees p.2)
    as Hcomp.
  { intros matiere. unfold profs_competents. split.
    - intros Hnil p Hp Hm.
      eapply (filter_nil_not_elem_of _ _ p); [exact Hnil|exact Hm|exact Hp].
    - intros Hall. induction (professeurs config) as [|p ps IH]; [done|].
      rewrite filter_cons_False by (apply Hall; by left).
      apply IH. intros ??. apply Hall. by right. }
  unfold validate_config. split; [|split].
  - intros p m. rewrite !elem_of_app, !elem_of_flat_map. split.
    + intros [([p' pi] & Hp & (m' & Hm & H)%elem_of_flat_map)
             |[(nc & _ & (m' & _ & H)%elem_of_flat_map)|(mi & _ & H)]].
      * simpl in *. case_decide as Hin; [|by apply elem_of_nil in H].
        apply list_elem_of_singleton in H as [= -> ->].
        exists pi. split; [done|]. split; [done|].
        by rewrite elem_of_list_to_set in Hin.
      * destruct (profs_competents config m'); [|by apply elem_of_nil in H].
        by apply list_elem_of_singleton in H.
      * case_decide; [|by apply elem_of_nil in H].
        by apply list_elem_of_singleton in H.
    + intros (pi & Hp & Hm & Hnot). left. exists (p, pi). split; [done|].
      apply elem_of_flat_map. exists m. split; [done|]. simpl.
      rewrite decide_True by (by rewrite elem_of_list_to_set). by left.
  - intros m niv. rewrite !elem_of_app, !elem_of_flat_map. split.
    + intros [(p' & _ & (m' & _ & H)%elem_of_flat_map)
             |[([niv' cur] & Hnc & (m' & Hm & H)%elem_of_flat_map)
              |(mi & _ & H)]].
      * case_decide; [|by apply elem_of_nil in H].
        by apply list_elem_of_singleton in H.
      * simpl in *.
        destruct (profs_competents config m') eqn:Hps;
          [|by apply elem_of_nil in H].
        apply list_elem_of_singleton in H as [= -> ->].
        exists cur. split; [done|]. split; [done|]. by apply Hcomp.
      * case_decide; [|by apply elem_of_nil in H].
        by apply list_elem_of_singleton in H.
    + intros (cur & Hnc & Hm & Hnone). right. left.
      exists (niv, cur). split; [done|].
      apply elem_of_flat_map. exists m. split; [done|]. simpl.
      apply Hcomp in Hnone. rewrite Hnone. by left.
  - intros m t. rewrite !elem_of_app, !elem_of_flat_map. split.
    + intros [(p' & _ & (m' & _ & H)%elem_of_flat_map)
             |[(nc & _ & (m' & _ & H)%elem_of_flat_map)|([m' mi] & Hmi & H)]].
      * case_decide; [|by apply elem_of_nil in H].
        by apply list_elem_of_singleton in H.
      * destruct (profs_competents config m'); [|by apply elem_of_nil in H].
        by apply list_elem_of_singleton in H.
      * simpl in *. case_decide as Hin; [|by apply elem_of_nil in H].
        apply list_elem_of_singleton in H as [= -> ->].
        exists mi. split; [done|]. split; [done|].
        intros s Hs Heq. apply Hin. apply elem_of_list_to_set.
        apply list_elem_of_fmap. by exists s.
    + intros (mi & Hmi & <- & Hnone). right. right.
      exists (m, mi). split; [done|]. simpl.
      rewrite decide_True; [by left|].
      intros (s & Hs & Hin)%elem_of_list_to_set%list_elem_of_fmap.
      by eapply Hnone.
Qed.

(** ** [generate_cours_from_config] *)

Lemma elem_of_groupe_order config gi g m :
  (g, m) ∈ groupe_order config gi
  ↔ nom gi = g
    ∧ ∃ cur nb,
        PyDict.get (curriculum config) (niveau gi) = Some cur
        ∧ (m, nb) ∈ matieres_obligatoires cur
        ∧ (0 < nb)%Z.
Proof.
  unfold groupe_order.
  destruct (PyDict.get (curriculum config) (niveau gi)) as [cur|].
  - rewrite elem_of_flat_map. split.
    + intros ([m' nb] & Hmn & [[= -> ->] Hnb]%elem_of_replicate).
      split; [done|]. exists cur, nb. split; [done|]. split; [done|].
      simpl in Hnb. lia.
    + intros (<- & cur' & nb & [= <-] & Hmn & Hnb).
      exists (m, nb). split; [done|].
      apply elem_of_replicate. split; [done|]. simpl. lia.
  - split; [by intros ?%elem_of_nil|by intros (_ & ? & ? & ? & _)].
Qed.

Lemma length_groupe_order config gi :
  length (groupe_order config gi)
  = match PyDict.get (curriculum config) (niveau gi) with
    | Some cur =>
        sum_list ((λ mn : string * Z, Z.to_nat mn.2)
                    <$> matieres_obligatoires cur)
    | None => 0
    end.
Proof.
  unfold groupe_order. destruct (PyDict.get _ _) as [cur|]; [|done].
  induction (matieres_obligatoires cur) as [|mn mo IH]; [done|].
  simpl. by rewrite length_app, length_replicate, IH.
Qed.

(** X2. A (group, subject) pair has a course instance exactly when the
    group is in the configuration, its level has a curriculum and the
    curriculum requires the subject a positive number of times: a level
    without curriculum, a count of zero and a negative count give nothing.
    The number of course instances is the sum of the counts, a negative
    count counting for zero. *)
Theorem generate_cours_pairs config :
  (∀ g m,
     (g, m) ∈ (generate_cours_from_config config).*1
     ↔ ∃ gi cur nb,
         gi ∈ groupes_eleves config
         ∧ nom gi = g
         ∧ PyDict.get (curriculum config) (niveau gi) = Some cur
         ∧ (m, nb) ∈ matieres_obligatoires cur
         ∧ (0 < nb)%Z)
  ∧ length (generate_cours_from_config config)
    = sum_list
        ((λ gi, match PyDict.get (curriculum config) (niveau gi) with
                | Some cur =>
                    sum_list ((λ mn : string * Z, Z.to_nat mn.2)
                                <$> matieres_obligatoires cur)
                | None => 0
                end) <$> groupes_eleves config).
Proof.
  rewrite generate_cours_spec, number_from_pairs, number_from_length.
  unfold expansion_order. split.
  - intros g m. rewrite elem_of_flat_map. split.
    + intros (gi & Hgi & (Hnom & cur & nb & ?)%elem_of_groupe_order).
      by exists gi, cur, nb.
    + intros (gi & cur & nb & Hgi & Hnom & ?). exists gi. split; [done|].
      apply elem_of_groupe_order. split; [done|]. by exists cur, nb.
  - induction (groupes_eleves config) as [|gi gs IH]; [done|].
    simpl. by rewrite length_app, length_groupe_order, IH.
Qed.

(** ** The feasibility filter is exact *)

Lemma fold_left_reach {A B : Type} (f : list B → A → list B) l acc k :
  (∀ acc y, k ∈ acc → k ∈ f acc y) →
  k ∈ acc ∨ (∃ y, y ∈ l ∧ ∀ acc, k ∈ f acc y) →
  k ∈ fold_left f l acc.
Proof.
  intros Hmono. revert acc. induction l as [|x l IH]; intros acc; simpl.
  - intros [?|(y & Hy & _)]; [done|by apply elem_of_nil in Hy].
  - intros [Hacc|(y & [->|Hy]%elem_of_cons & Hreach)]; apply IH.
    + left. by apply Hmono.
    + left. apply Hreach.
    + right. by exists y.
Qed.

Lemma for_each_reach {A B : Type} (body : list B → A → result (list B))
    l acc acc' k :
  for_each body l acc = Ok acc' →
  (∀ acc y acc1, body acc y = Ok acc1 → k ∈ acc → k ∈ acc1) →
  k ∈ acc ∨ (∃ y, y ∈ l ∧ ∀ acc acc1, body acc y = Ok acc1 → k ∈ acc1) →
  k ∈ acc'.
Proof.
  intros Hrun Hmono. revert acc Hrun.
  induction l as [|x l IH]; intros acc; simpl.
  - intros [= <-] [?|(y & Hy & _)]; [done|by apply elem_of_nil in Hy].
  - intros (acc1 & H1 & H2)%bind_Ok
      [Hacc|(y & [->|Hy]%elem_of_cons & Hreach)]; apply (IH acc1 H2).
    + left. by eapply Hmono.
    + left. by eapply Hreach.
    + right. by exists y.
Qed.

Section FilterComplete.
Context (config : Config).

Lemma vars_heures_mono prof_info mk acc key :
  key ∈ acc → key ∈ vars_heures config prof_info mk acc.
Proof.
  intros Hacc. unfold vars_heures. apply fold_left_reach; [|by left].
  intros acc' h Hin. case_decide; [done|].
  apply elem_of_add_key. by left.
Qed.

Lemma vars_heures_reach prof_info mk acc heure :
  heure ∈ heures (planning config) →
  heure ∉ heures_indisponibles (contraintes prof_info) →
  mk heure ∈ vars_heures config prof_info mk acc.
Proof.
  intros Hh Hdispo. unfold vars_heures. apply fold_left_reach.
  - intros acc' h Hin. case_decide; [done|].
    apply elem_of_add_key. by left.
  - right. exists heure. split; [done|]. intros acc'.
    rewrite decide_False by done. apply elem_of_add_key. by right.
Qed.

Lemma vars_jours_mono prof_info mk acc key :
  key ∈ acc → key ∈ vars_jours config prof_info mk acc.
Proof.
  intros Hacc. unfold vars_jours. apply fold_left_reach; [|by left].
  intros acc' j Hin. case_decide; [done|]. by apply vars_heures_mono.
Qed.

Lemma vars_jours_reach prof_info mk acc jour heure :
  jour ∈ jours (planning config) →
  heure ∈ heures (planning config) →
  jour ∉ jours_indisponibles (contraintes prof_info) →
  heure ∉ heures_indisponibles (contraintes prof_info) →
  mk jour heure ∈ vars_jours config prof_info mk acc.
Proof.
  intros Hj Hh Hjd Hhd. unfold vars_jours. apply fold_left_reach.
  - intros acc' j Hin. case_decide; [done|]. by apply vars_heures_mono.
  - right. exists jour. split; [done|]. intros acc'.
    rewrite decide_False by done.
    by apply (vars_heures_reach prof_info (mk jour)).
Qed.

Lemma vars_salles_mono c prof acc acc' key :
  vars_salles config c prof acc = Ok acc' → key ∈ acc → key ∈ acc'.
Proof.
  intros Hrun Hacc. unfold vars_salles in Hrun.
  eapply for_each_reach; [exact Hrun| |by left].
  intros acc1 salle acc2 (requis & _ & Hbody)%bind_Ok Hin.
  case_decide; injection Hbody as <-; [done|]. by apply vars_jours_mono.
Qed.

Lemma vars_profs_mono c acc acc' key :
  vars_profs config c acc = Ok acc' → key ∈ acc → key ∈ acc'.
Proof.
  intros Hrun Hacc. unfold vars_profs in Hrun.
  eapply for_each_reach; [exact Hrun| |by left].
  intros acc1 prof acc2 Hbody Hin. cbn beta in Hbody.
  destruct (decide (cours_matiere c ∉ matieres_enseignees prof.2));
    [by injection Hbody as <-|].
  by eapply vars_salles_mono.
Qed.

(** An eligible tuple of a course of the list gets its variable. *)
Lemma create_variables_complete cs keys c prof salle jour heure :
  create_variables config cs = Ok keys →
  c ∈ cs →
  jour ∈ jours (planning config) →
  heure ∈ heures (planning config) →
  eligible config (key_of c prof salle jour heure) →
  key_of c prof salle jour heure ∈ keys.
Proof.
  intros Hrun Hc Hj Hh (pi & si & mi & Hp & Hs & Hmi & Hcomp & Htype & Hjd & Hhd).
  simpl in *. unfold create_variables in Hrun.
  eapply for_each_reach;
    [exact Hrun|intros acc0 y acc1; apply vars_profs_mono|].
  right. exists c. split; [done|]. intros acc1 acc2 Hprofs.
  unfold vars_profs in Hprofs.
  eapply for_each_reach; [exact Hprofs| |].
  { intros acc3 p acc4 Hbody Hin. cbn beta in Hbody.
    destruct (decide (cours_matiere c ∉ matieres_enseignees p.2));
      [by injection Hbody as <-|].
    by eapply vars_salles_mono. }
  right. exists (prof, pi). split; [done|]. intros acc3 acc4. simpl.
  rewrite decide_False by (by intros H; apply H).
  intros Hsalles. unfold vars_salles in Hsalles.
  eapply for_each_reach; [exact Hsalles| |].
  { intros acc5 s acc6 (requis & _ & Hbody)%bind_Ok Hin.
    case_decide; injection Hbody as <-; [done|]. by apply vars_jours_mono. }
  right. exists (salle, si). split; [done|]. intros acc5 acc6.
  unfold getitem, infos_matieres_of. rewrite get_fmap, Hmi. simpl.
  rewrite decide_False by (by intros H; apply H).
  intros [= <-].
  by apply (vars_jours_reach pi
              (λ jour heure, key_of c prof salle jour heure)).
Qed.

End FilterComplete.

(** X3. The decision variables are exactly the feasible tuples: a key has
    a variable if and only if it is the key of a course of the list, its
    day and hour are on the planning grid and it satisfies the four
    eligibility rules.  No eligible tuple is left out. *)
Theorem create_variables_exact config keys key :
  create_variables config (generate_cours_from_config config) = Ok keys →
  key ∈ keys
  ↔ (k_groupe key, k_matiere key, k_cours_id key)
      ∈ generate_cours_from_config config
    ∧ k_jour key ∈ jours (planning config)
    ∧ k_heure key ∈ heures (planning config)
    ∧ eligible config key.
Proof.
  intros Hrun. split.
  - by apply create_variables_admis.
  - intros (Hc & Hj & Hh & Hel). destruct key as [g m id p s j h].
    exact (create_variables_complete config _ keys (g, m, id) p s j h
             Hrun Hc Hj Hh Hel).
Qed.

Lemma create_variables_exact_witness :
  {| k_groupe := "5A"; k_matiere := "Math"; k_cours_id := 3;
     k_prof := "Martin"; k_salle := "S1";
     k_jour := "Mardi"; k_heure := "8h" |}
  ∈ match create_variables Examples.college
            (generate_cours_from_config Examples.college) with
    | Ok keys => keys
    | Raise _ => []
    end.
Proof.
  refine (proj2 (create_variables_exact Examples.college _ _ _) _).
  - vm_compute. reflexivity.
  - split; [decide_by_compute|]. split; [decide_by_compute|].
    split; [decide_by_compute|].
    eexists _, _, _. simpl.
    split; [apply list_elem_of_further, list_elem_of_here|].
    split; [apply list_elem_of_here|].
    split; [reflexivity|].
    split; [decide_by_compute|]. split; [reflexivity|].
    split; decide_by_compute.
Defined.

(** ** The exclusivity constraints *)

Lemma elem_of_contraintes_ressource config proj rs keys (k : Constraint) :
  k ∈ contraintes_ressource config proj rs keys
  ↔ ∃ r jour heure,
      r ∈ rs
      ∧ jour ∈ jours (planning config)
      ∧ heure ∈ heures (planning config)
      ∧ filter (λ key, proj key = r ∧ k_jour key = jour ∧ k_heure key = heure)
               keys ≠ []
      ∧ k = AddAtMostOne
              (filter (λ key, proj key = r ∧ k_jour key = jour
                              ∧ k_heure key = heure) keys).
Proof.
  unfold contraintes_ressource. rewrite elem_of_flat_map. split.
  - intros (r & Hr & (j & Hj & (h & Hh & [Hne ->]%elem_of_add_if_any)
      %elem_of_flat_map)%elem_of_flat_map).
    by exists r, j, h.
  - intros (r & j & h & Hr & Hj & Hh & Hne & ->).
    exists r. split; [done|]. apply elem_of_flat_map.
    exists j. split; [done|]. apply elem_of_flat_map.
    exists h. split; [done|]. by apply elem_of_add_if_any.
Qed.

Lemma contraintes_cours_exactly cs keys vars :
  AddAtMostOne vars ∉ contraintes_cours cs keys.
Proof.
  unfold contraintes_cours.
  intros (c & _ & [_ H]%elem_of_add_if_any)%elem_of_flat_map. discriminate.
Qed.

Lemma build_model_exclusivity config cs model vars :
  build_model config cs = Ok model →
  AddAtMostOne vars ∈ constraints model
  ↔ vars ≠ []
    ∧ ∃ name r jour heure,
        r ∈ liste_ressources config name
        ∧ jour ∈ jours (planning config)
        ∧ heure ∈ heures (planning config)
        ∧ vars = filter (λ key, key_ressource name key = r
                                ∧ k_jour key = jour ∧ k_heure key = heure)
                        (variables model).
Proof.
  unfold build_model. intros (keys & Hkeys & [= <-])%bind_Ok. simpl.
  rewrite !elem_of_app, !elem_of_contraintes_ressource. split.
  - intros [H|[H|[H|H]]].
    + by apply contraintes_cours_exactly in H.
    + destruct H as (r & j & h & Hr & Hj & Hh & Hne & [= ->]).
      split; [done|]. by exists Professeur, r, j, h.
    + destruct H as (r & j & h & Hr & Hj & Hh & Hne & [= ->]).
      split; [done|]. by exists Salle, r, j, h.
    + destruct H as (r & j & h & Hr & Hj & Hh & Hne & [= ->]).
      split; [done|]. by exists Groupe, r, j, h.
  - intros (Hne & name & r & j & h & Hr & Hj & Hh & ->). right.
    destruct name; [left|right; left|right; right]; by exists r, j, h.
Qed.

(** X4. The model holds an at-most-one constraint over a list of variables
    exactly when the list is not empty and is the list of all variables of
    one teacher, one room or one group of the configuration at one slot of
    the planning grid. *)
Theorem exclusivity_constraints config cs model vars :
  build_model config cs = Ok model →
  AddAtMostOne vars ∈ constraints model
  ↔ vars ≠ []
    ∧ ∃ name r jour heure,
        r ∈ liste_ressources config name
        ∧ jour ∈ jours (planning config)
        ∧ heure ∈ heures (planning config)
        ∧ vars = filter (λ key, key_ressource name key = r
                                ∧ k_jour key = jour ∧ k_heure key = heure)
                        (variables model).
Proof. apply build_model_exclusivity. Qed.

Lemma exclusivity_constraints_witness :
  ∃ model,
    build_model Examples.deux_jours
      (generate_cours_from_config Examples.deux_jours) = Ok model
    ∧ AddAtMostOne
        (filter (λ key, key_ressource Salle key = "S1"
                        ∧ k_jour key = "Lundi" ∧ k_heure key = "8h")
                (variables model))
      ∈ constraints model.
Proof.
  destruct (build_model Examples.deux_jours
              (generate_cours_from_config Examples.deux_jours))
    as [model|e] eqn:Hmodel; [|vm_compute in Hmodel; discriminate].
  exists model. split; [reflexivity|].
  apply (exclusivity_constraints _ _ _ _ Hmodel).
  vm_compute in Hmodel. injection Hmodel as <-.
  split; [vm_compute; discriminate|].
  exists Salle, "S1", "Lundi", "8h".
  split; [decide_by_compute|]. split; [decide_by_compute|].
  split; [decide_by_compute|reflexivity].
Defined.

(** ** Decoding *)

Lemma entries_cons g l (solution : Solution) :
  entries ((g, l) :: solution) = ((λ e, (g, e)) <$> l) ++ entries solution.
Proof. reflexivity. Qed.

Lemma entries_update (solution : Solution) g e :
  entries (PyDict.update [] (λ l, l ++ [e]) g solution)
  ≡ₚ entries solution ++ [(g, e)].
Proof.
  induction solution as [|[g0 l0] solution IH]; cbn [PyDict.update].
  - done.
  - destruct (decide (g = g0)) as [->|Hne].
    + rewrite !entries_cons, fmap_app. simpl.
      rewrite <- !app_assoc. f_equiv. apply Permutation_app_comm.
    + rewrite !entries_cons, IH. by rewrite app_assoc.
Qed.

Section Decode.
Context (value : Key → bool).

(** The loop of [decode], from a schedule already begun. *)
Local Abbreviation decode_from keys solution :=
  (fold_left (λ (solution : Solution) key,
       if value key
       then PyDict.update [] (λ l, l ++ [entry_of_key key])
                          (k_groupe key) solution
       else solution) keys solution).

Lemma decode_from_entries keys (solution : Solution) :
  entries (decode_from keys solution)
  ≡ₚ entries solution
     ++ ((λ key, (k_groupe key, entry_of_key key))
           <$> filter (λ key, value key = true) keys).
Proof.
  revert solution. induction keys as [|key keys IH]; intros solution; simpl.
  - by rewrite app_nil_r.
  - rewrite IH, filter_cons. destruct (value key) eqn:Hv.
    + rewrite decide_True by done. rewrite entries_update, fmap_cons.
      by rewrite <- app_assoc.
    + by rewrite decide_False by done.
Qed.

Lemma decode_from_find keys (solution : Solution) g :
  PyDict.find [] (decode_from keys solution) g
  = PyDict.find [] solution g
    ++ (entry_of_key
          <$> filter (λ key, value key = true ∧ k_groupe key = g) keys).
Proof.
  revert solution. induction keys as [|key keys IH]; intros solution; simpl.
  - by rewrite app_nil_r.
  - rewrite IH, filter_cons. destruct (value key) eqn:Hv.
    + rewrite find_update. destruct (decide (g = k_groupe key)) as [->|Hne].
      * rewrite decide_True by done. by rewrite fmap_cons, <- app_assoc.
      * rewrite decide_False by (intros [_ ?]; congruence). done.
    + by rewrite decide_False by (by intros [? _]).
Qed.

Lemma decode_from_NoDup keys (solution : Solution) :
  NoDup solution.*1 → NoDup (decode_from keys solution).*1.
Proof.
  revert solution. induction keys as [|key keys IH]; intros solution Hd;
    simpl; [done|].
  apply IH. destruct (value key); [|done]. by apply update_keys_NoDup.
Qed.

End Decode.

(** X5. Decoding loses nothing and invents nothing: the entries of the
    decoded schedule are, up to the grouping by class, the variables the
    solver set to 1, each as one entry of its group; every group appears
    once, and the entries of a group are its variables at 1 in the order of
    the variables. *)
Theorem decode_entries value keys :
  entries (decode value keys)
  ≡ₚ (λ key, (k_groupe key, entry_of_key key))
       <$> filter (λ key, value key = true) keys
  ∧ NoDup (decode value keys).*1
  ∧ ∀ g, PyDict.find [] (decode value keys) g
         = entry_of_key
             <$> filter (λ key, value key = true ∧ k_groupe key = g) keys.
Proof.
  unfold decode. split; [|split].
  - by rewrite decode_from_entries.
  - apply decode_from_NoDup. constructor.
  - intros g. by rewrite decode_from_find.
Qed.

(** ** The whole run *)

Lemma afficher_salles_libres_runs solution config :
  sur_la_grille solution config →
  jours (planning config) ≠ [] →
  heures (planning config) ≠ [] →
  salles config ≠ [] →
  ∃ rapport,
    afficher_salles_libres solution config = Ok rapport
    ∧ Forall (λ s, est_pourcentage (s_taux s)) (r_salles rapport)
    ∧ est_pourcentage (r_taux_global rapport).
Proof.
  intros Hgrille Hjours Hheures Hsalles.
  pose proof (salles_occupees_sur_la_grille solution config Hgrille) as Hocc.
  pose proof (salles_occupees_length solution config Hgrille) as Hlen.
  pose proof (salles_occupees_total_le solution config Hgrille) as Htot.
  assert (length (jours (planning config)) * length (heures (planning config))
          ≠ 0) as Hnz.
  { apply Nat.neq_mul_0. split.
    - by destruct (jours (planning config)).
    - by destruct (heures (planning config)). }
  assert (length (salles config) ≠ 0) as Hnz' by (by destruct (salles config)).
  unfold afficher_salles_libres.
  destruct (mapM_total_ex
              (rapport_creneau solution (salles config)
                 (salles_occupees solution))
              (grille (planning config))) as [creneaux ->].
  { intros creneau _. apply rapport_creneau_total.
    refine (find_Forall (λ cs : Creneau * gset string,
             ∀ salle, salle ∈ cs.2 → salle ∈ PyDict.keys (salles config))
             ∅ _ creneau _ _).
    - eapply Forall_impl; [exact Hocc|]. intros cs [_ H]. exact H.
    - intros salle Hs. by apply elem_of_empty in Hs. }
  cbn [mbind result_bind].
  match goal with
  | |- context [mapM ?f (sorted ?l)] =>
      destruct (mapM_total_ex f (sorted l)) as [stats Hstats];
      [|rewrite Hstats;
        assert (Forall (λ s, est_pourcentage (s_taux s)) stats) as Hbounds;
        [eapply (mapM_Forall f); [exact Hstats|]|]]
  end.
  - intros salle _.
    edestruct pourcentage_Ok as (q & -> & _); [exact Hnz| |by eexists].
    rewrite occupation_par_salle_find. etrans; [apply length_filter|done].
  - intros salle s _ (q & Hq & [= <-])%bind_Ok. simpl.
    edestruct pourcentage_Ok as (q' & Hq' & Hb); [exact Hnz| |].
    2:{ rewrite Hq in Hq'. by injection Hq' as ->. }
    rewrite occupation_par_salle_find. etrans; [apply length_filter|done].
  - cbn [mbind result_bind].
    destruct (pourcentage_Ok (total_occupations (salles_occupees solution))
                (length (jours (planning config))
                 * length (heures (planning config)) * length (salles config)))
      as (tg & -> & Htg); [by apply Nat.neq_mul_0|done|].
    eexists. split; [done|]. by split.
Qed.

Lemma verifier_solution_runs professeurs salles infos_matieres solution cs :
  references_connues professeurs salles infos_matieres solution →
  ∃ out, verifier_solution professeurs salles infos_matieres solution cs
         = Ok out.
Proof.
  intros Href. unfold verifier_solution.
  destruct (for_each_total
              (verifier_entry professeurs salles infos_matieres)
              (entries solution)
              {| is_valid := true; cours_assignes := 0;
                 conflits_prof := []; conflits_salle := [];
                 conflits_groupe := []; sortie := [] |}) as [st ->].
  - intros st ge (H1 & H2 & H3)%Href. by apply verifier_entry_total.
  - by eexists.
Qed.

Lemma diagnostic_runs config :
  validate_config config = [] →
  ∃ diag, diagnostic config (generate_cours_from_config config) = Ok diag.
Proof.
  intros Hvalid. unfold diagnostic. apply mapM_total_ex. intros m Hm.
  apply elem_of_elements, elem_of_list_to_set in Hm.
  apply list_elem_of_fmap in Hm as (c & -> & Hc).
  destruct (generate_cours_matiere config c Hc) as (nc & Hnc & Hm).
  destruct (valid_curriculum config Hvalid nc _ Hnc Hm) as (p & Hp & Hens).
  destruct (valid_enseignee config Hvalid p _ Hp Hens) as [mi Hmi].
  eexists. by apply diagnostic_matiere_Ok.
Qed.

Section DecodedSchedule.
Context (config : Config) (cs : list Cours) (keys : list Key).
Context (Hadmis : admis config cs keys) (value : Key → bool).

Lemma decode_key ge :
  ge ∈ entries (decode value keys) →
  ∃ key, key ∈ keys ∧ value key = true
         ∧ ge = (k_groupe key, entry_of_key key).
Proof.
  intros Hge. unfold decode in Hge. rewrite decode_from_entries in Hge.
  simpl in Hge.
  apply list_elem_of_fmap in Hge as (key & -> & [Hv Hk]%list_elem_of_filter).
  by exists key.
Qed.

Lemma decode_sur_la_grille : sur_la_grille (decode value keys) config.
Proof.
  intros ge (key & Hkey & _ & ->)%decode_key. simpl.
  destruct (Hadmis key Hkey) as (_ & Hj & Hh & (pi & si & mi & _ & Hs & _)).
  split; [done|]. split; [done|].
  unfold PyDict.keys. by apply (list_elem_of_fmap_2 fst) in Hs.
Qed.

Lemma decode_references_connues :
  references_connues (professeurs_of config) (salles config)
    (infos_matieres_of config) (decode value keys).
Proof.
  intros ge (key & Hkey & _ & ->)%decode_key. simpl.
  destruct (Hadmis key Hkey)
    as (_ & _ & _ & (pi & si & mi & Hp & Hs & Hmi & _)).
  split; [|split].
  - unfold PyDict.keys, professeurs_of. rewrite <- list_fmap_compose.
    by apply (list_elem_of_fmap_2 fst) in Hp.
  - apply get_is_Some. unfold infos_matieres_of. rewrite get_fmap, Hmi.
    by eexists.
  - unfold PyDict.keys. by apply (list_elem_of_fmap_2 fst) in Hs.
Qed.

End DecodedSchedule.

(** With validation errors the run stops before the model is built and
    reports every error. *)
Lemma create_schedule_invalid (solve : Solver) config :
  validate_config config ≠ [] →
  create_schedule_from_config solve (Some config)
  = Ok (ConfigInvalide (validate_config config)).
Proof.
  intros Hne. unfold create_schedule_from_config. cbn zeta.
  by destruct (validate_config config).
Qed.

(** X6. On a configuration that passes validation and has at least one
    day, one hour and one room, the run ends without exception whatever
    the solver answers: either with the diagnostic and no schedule, or with
    a schedule whose entries all lie on the planning grid and in rooms of
    the configuration, for which every rate of the report is between 0 and
    100. *)
Theorem create_schedule_runs (solve : Solver) config :
  validate_config config = [] →
  jours (planning config) ≠ [] →
  heures (planning config) ≠ [] →
  salles config ≠ [] →
  (∃ status diag,
     create_schedule_from_config solve (Some config)
     = Ok (SansSolution status diag))
  ∨ (∃ solution rapport valide messages,
       create_schedule_from_config solve (Some config)
       = Ok (Planifie solution rapport valide messages)
       ∧ sur_la_grille solution config
       ∧ Forall (λ s, est_pourcentage (s_taux s)) (r_salles rapport)
       ∧ est_pourcentage (r_taux_global rapport)).
Proof.
  intros Hvalid Hjours Hheures Hsalles.
  destruct (build_model_total config Hvalid (generate_cours_from_config config))
    as (model & Hmodel & Hkeys).
  apply create_variables_admis in Hkeys.
  unfold create_schedule_from_config. rewrite Hvalid, Hmodel.
  cbn [mbind result_bind].
  case_decide as Hstatus.
  - right.
    set (solution :=
           decode (solve (parametres_solveur config) model).2 (variables model)).
    pose proof (decode_sur_la_grille config _ _ Hkeys
                  (solve (parametres_solveur config) model).2) as Hgrille.
    destruct (afficher_salles_libres_runs solution config)
      as (rapport & Hrapport & Hb1 & Hb2); [done..|].
    destruct (verifier_solution_runs (professeurs_of config) (salles config)
                (infos_matieres_of config) solution
                (generate_cours_from_config config)) as [out Hout].
    { apply (decode_references_connues config _ _ Hkeys). }
    fold solution. rewrite Hrapport. cbn [mbind result_bind].
    rewrite Hout. cbn [mbind result_bind].
    by exists solution, rapport, out.1, out.2.
  - left. destruct (diagnostic_runs config Hvalid) as [diag ->].
    by eexists _, _.
Qed.

Lemma create_schedule_runs_witness :
  ∃ solution rapport valide messages,
    create_schedule_from_config Examples.mardi_d_abord
      (Some Examples.deux_jours)
    = Ok (Planifie solution rapport valide messages)
    ∧ est_pourcentage (r_taux_global rapport).
Proof.
  destruct (create_schedule_runs Examples.mardi_d_abord Examples.deux_jours)
    as [(status & diag & Hrun)|(solution & rapport & valide & messages
                                & Hrun & _ & _ & Hglobal)].
  - vm_compute. reflexivity.
  - simpl. discriminate.
  - simpl. discriminate.
  - simpl. discriminate.
  - vm_compute in Hrun. discriminate.
  - by exists solution, rapport, valide, messages.
Defined.

(** ** Edge cases of the occupancy report *)

Lemma grille_nil p : jours p = [] ∨ heures p = [] → grille p = [].
Proof.
  unfold grille. intros [->| ->]; [done|].
  induction (jours p) as [|j js IH]; [done|]. exact IH.
Qed.


(** X7. With an empty planning grid (no day or no hour) the occupancy
    report raises [ZeroDivisionError] for every schedule, with or without
    rooms. *)
Theorem afficher_salles_libres_empty_grid solution config :
  jours (planning config) = [] ∨ heures (planning config) = [] →
  afficher_salles_libres solution config = Raise ZeroDivisionError.
Proof.
  intros Hempty. unfold afficher_salles_libres.
  rewrite (grille_nil _ Hempty). cbn [mapM mbind result_bind mret result_ret].
  assert (length (jours (planning config)) * length (heures (planning config))
          = 0) as ->.
  { destruct Hempty as [-> | ->]; simpl; lia. }
  destruct (sorted (PyDict.keys (salles config))) as [|salle l] eqn:Hsorted.
  - cbn [mapM mbind result_bind mret result_ret]. done.
  - cbn [mapM mbind result_bind mret result_ret]. done.
Qed.

Lemma afficher_salles_libres_empty_grid_witness :
  afficher_salles_libres Examples.emploi_inverse Examples.sans_heures
  = Raise ZeroDivisionError.
Proof.
  apply afficher_salles_libres_empty_grid. right. reflexivity.
Defined.

Lemma occupant_Some solution creneau salle :
  salle ∈ salles_du_creneau solution creneau →
  ∃ g e,
    occupant solution creneau salle = Some (g, e_matiere e, e_prof e)
    ∧ (g, e) ∈ entries solution
    ∧ e_creneau e = creneau
    ∧ e_salle e = salle.
Proof.
  unfold salles_du_creneau, occupant.
  intros (ge & Hs & [Hc Hin]%list_elem_of_filter)
    %elem_of_list_to_set%list_elem_of_fmap.
  simpl in Hs.
  destruct (filter (λ ge : string * Entry,
                      e_creneau ge.2 = creneau ∧ e_salle ge.2 = salle)
                   (entries solution)) as [|[g e] l] eqn:Hf.
  - exfalso. eapply (filter_nil_not_elem_of _ _ ge); [exact Hf| |exact Hin].
    done.
  - assert ((g, e) ∈ filter (λ ge : string * Entry,
                      e_creneau ge.2 = creneau ∧ e_salle ge.2 = salle)
                   (entries solution)) as Hhead by (rewrite Hf; by left).
    apply list_elem_of_filter in Hhead as [[Hc' Hs'] Hin'].
    exists g, e. by simpl.
Qed.

(** X8. In a report that is produced, the lines of the occupied rooms of a
    slot are the occupied rooms in sorted order, each with the type and the
    capacity of the room in the configuration and with an occupant: the
    group, subject and teacher of an entry of the schedule in that room at
    that slot.  No occupied room is shown without occupant. *)
Theorem lignes_occupees_occupant solution config rapport :
  afficher_salles_libres solution config = Ok rapport →
  ∀ r, r ∈ r_creneaux rapport →
    o_salle <$> c_lignes_occupees r = sorted (elements (c_salles_occupees r))
    ∧ ∀ ligne, ligne ∈ c_lignes_occupees r →
        (∃ info, PyDict.get (salles config) (o_salle ligne) = Some info
                 ∧ o_type ligne = type info
                 ∧ o_capacite ligne = capacite info)
        ∧ ∃ g e,
            o_occupant ligne = Some (g, e_matiere e, e_prof e)
            ∧ (g, e) ∈ entries solution
            ∧ e_creneau e = c_creneau r
            ∧ e_salle e = o_salle ligne.
Proof.
  unfold afficher_salles_libres.
  intros (creneaux & Hc%mapM_Ok & (stats & _ & (tg & _ & [= <-])
    %bind_Ok)%bind_Ok)%bind_Ok r Hr. cbn [r_creneaux] in Hr.
  apply list_elem_of_lookup in Hr as [i Hi].
  destruct (Forall2_lookup_r _ _ _ _ _ Hc Hi) as (creneau & _ & Hrun).
  unfold rapport_creneau in Hrun.
  apply bind_Ok in Hrun as (lignes & Hl%mapM_Ok & [= <-]). simpl.
  rewrite salles_occupees_find in Hl |- *.
  assert (∀ salle, salle ∈ sorted (elements (salles_du_creneau solution creneau))
                   → salle ∈ salles_du_creneau solution creneau) as Hin.
  { intros salle. by rewrite sorted_elem_of, elem_of_elements. }
  clear Hi Hc. revert Hl Hin.
  generalize (sorted (elements (salles_du_creneau solution creneau))).
  intros l Hl. induction Hl as [|salle ligne l lignes Hligne _ IH]; intros Hin.
  - split; [done|]. by intros ? ?%elem_of_nil.
  - destruct (IH (λ s Hs, Hin s (list_elem_of_further _ _ _ Hs)))
      as [IH1 IH2].
    apply bind_Ok in Hligne as (info & Hinfo%getitem_Ok & [= <-]).
    split; [by rewrite fmap_cons, IH1|].
    intros ligne [->|Hligne]%elem_of_cons; [|by apply IH2]. simpl.
    split; [by exists info|].
    apply occupant_Some, Hin. by left.
Qed.

Lemma lignes_occupees_occupant_witness :
  ∃ rapport,
    afficher_salles_libres Examples.emploi_inverse Examples.deux_jours
    = Ok rapport
    ∧ ∀ r, r ∈ r_creneaux rapport →
        o_salle <$> c_lignes_occupees r
        = sorted (elements (c_salles_occupees r)).
Proof.
  destruct (afficher_salles_libres Examples.emploi_inverse Examples.deux_jours)
    as [rapport|e] eqn:Hrun; [|vm_compute in Hrun; discriminate].
  exists rapport. split; [reflexivity|]. intros r Hr.
  exact (proj1 (lignes_occupees_occupant _ _ _ Hrun r Hr)).
Defined.

(** ** The exported statistics *)

Lemma export_stats_get (occupees : list (Creneau * gset string)) total l acc stats :
  for_each (λ acc salle,
      _ ← pourcentage
            (length (filter (λ cs : Creneau * gset string, salle ∈ cs.2)
                            occupees)) total;
      Ok (setitem salle
            (length (filter (λ cs : Creneau * gset string, salle ∈ cs.2)
                            occupees)) acc)) l acc = Ok stats →
  ∀ salle,
    PyDict.get stats salle
    = if decide (salle ∈ l)
      then Some (length (filter (λ cs : Creneau * gset string, salle ∈ cs.2)
                                occupees))
      else PyDict.get acc salle.
Proof.
  revert acc. induction l as [|s l IH]; intros acc; cbn [for_each].
  - intros [= <-] salle. by rewrite decide_False by apply not_elem_of_nil.
  - intros (acc1 & (q & _ & [= <-])%bind_Ok & Hrun)%bind_Ok salle.
    rewrite (IH _ Hrun salle), get_setitem.
    destruct (decide (salle ∈ l)) as [Hin|Hin].
    + by rewrite decide_True by (by right).
    + destruct (decide (salle = s)) as [->|Hne].
      * by rewrite decide_True by (by left).
      * rewrite decide_False; [done|].
        intros [?|?]%elem_of_cons; congruence.
Qed.

(** X9. When the report and the export are both produced, they agree on
    the occupation of every room: the export gives a room a count exactly
    when the report has a line for the room with that count. *)
Theorem export_occupation_agrees solution config rapport data :
  afficher_salles_libres solution config = Ok rapport →
  export_salles_libres_to_json solution config = Ok (Some data) →
  ∀ salle n,
    PyDict.get (x_occupation_par_salle data) salle = Some n
    ↔ ∃ s, s ∈ r_salles rapport
           ∧ s_salle s = salle ∧ s_nb_occupations s = n.
Proof.
  unfold afficher_salles_libres, export_salles_libres_to_json.
  intros (creneaux & _ & (lignes & Hl%mapM_Ok & (tg & _ & [= <-])
    %bind_Ok)%bind_Ok)%bind_Ok.
  intros Hexp.
  destruct solution as [|ge solution'] eqn:Hsol; [done|].
  rewrite <- Hsol in Hl, Hexp |- *.
  apply bind_Ok in Hexp as (dispo & _ & (stats & Hstats & [= <-])%bind_Ok).
  intros salle n. cbn [r_salles x_occupation_par_salle].
  rewrite (export_stats_get _ _ _ _ _ Hstats salle). cbn [PyDict.get].
  assert (∀ salle' s,
            (taux ← pourcentage
               (PyDict.find 0 (occupation_par_salle (salles_occupees solution))
                  salle')
               (length (jours (planning config))
                * length (heures (planning config)));
             Ok {| s_salle := salle';
                   s_nb_occupations :=
                     PyDict.find 0
                       (occupation_par_salle (salles_occupees solution)) salle';
                   s_taux := taux |}) = Ok s →
            s_salle s = salle'
            ∧ s_nb_occupations s
              = length (filter (λ cs : Creneau * gset string, salle' ∈ cs.2)
                               (salles_occupees solution))) as Hline.
  { intros salle' s (q & _ & [= <-])%bind_Ok. simpl.
    by rewrite occupation_par_salle_find. }
  split.
  - case_decide as Hin; [|done]. intros [= <-].
    apply sorted_elem_of, list_elem_of_lookup in Hin as [i Hi].
    destruct (Forall2_lookup_l _ _ _ _ _ Hl Hi) as (s & Hs & Hrun).
    apply Hline in Hrun as [H1 H2].
    exists s. split; [by eapply list_elem_of_lookup_2|done].
  - intros (s & [i Hi]%list_elem_of_lookup & <- & <-).
    destruct (Forall2_lookup_r _ _ _ _ _ Hl Hi) as (salle' & Hs & Hrun).
    apply Hline in Hrun as [-> ->].
    rewrite decide_True; [done|].
    apply list_elem_of_lookup_2 in Hs. by rewrite sorted_elem_of in Hs.
Qed.

Lemma export_occupation_agrees_witness :
  ∃ rapport data,
    afficher_salles_libres Examples.emploi_inverse Examples.deux_jours
    = Ok rapport
    ∧ export_salles_libres_to_json Examples.emploi_inverse Examples.deux_jours
      = Ok (Some data)
    ∧ PyDict.get (x_occupation_par_salle data) "S1" = Some 2.
Proof.
  destruct (afficher_salles_libres Examples.emploi_inverse Examples.deux_jours)
    as [rapport|e] eqn:Hrun; [|vm_compute in Hrun; discriminate].
  destruct (export_salles_libres_to_json Examples.emploi_inverse
              Examples.deux_jours)
    as [[data|]|e] eqn:Hexp; [|vm_compute in Hexp; discriminate..].
  exists rapport, data. split; [reflexivity|]. split; [reflexivity|].
  apply (export_occupation_agrees _ _ _ _ Hrun Hexp).
  vm_compute in Hrun. injection Hrun as <-.
  eexists. split; [apply list_elem_of_here|]. split; reflexivity.
Defined.

(** ** [export_schedule_to_json] *)

Lemma update_fresh {K V : Type} `{EqDecision K} (dflt : V) f k
    (d : list (K * V)) :
  k ∉ d.*1 → PyDict.update dflt f k d = d ++ [(k, f dflt)].
Proof.
  induction d as [|[k0 v0] d IH]; intros Hk; simpl; [done|].
  rewrite fmap_cons in Hk. apply not_elem_of_cons in Hk as [Hne Hk].
  rewrite decide_False by done. by rewrite IH.
Qed.

Lemma update_last {K V : Type} `{EqDecision K} (dflt : V) f k v
    (d : list (K * V)) :
  k ∉ d.*1 → PyDict.update dflt f k (d ++ [(k, v)]) = d ++ [(k, f v)].
Proof.
  induction d as [|[k0 v0] d IH]; intros Hk; simpl.
  - by rewrite decide_True.
  - rewrite fmap_cons in Hk. apply not_elem_of_cons in Hk as [Hne Hk].
    rewrite decide_False by done. by rewrite IH.
Qed.

Lemma for_each_Ok_elem {A S : Type} (body : S → A → result S) l s s' x :
  for_each body l s = Ok s' → x ∈ l → ∃ s1 s2, body s1 x = Ok s2.
Proof.
  revert s. induction l as [|y l IH]; intros s; simpl.
  - by intros _ ?%elem_of_nil.
  - intros (s1 & H1 & H2)%bind_Ok [->|Hx]%elem_of_cons; [by eauto|].
    by eapply IH.
Qed.

Section ExportSchedule.
Context (config : Config).

Lemma export_cours_Ok e x :
  export_cours config e = Ok x →
  entry_of_export x = e
  ∧ ∃ matiere_info,
      PyDict.get (matieres config) (e_matiere e) = Some matiere_info
      ∧ xc_emoji x = default EmptyString (emoji matiere_info).
Proof.
  unfold export_cours. intros (mi & Hmi%getitem_Ok & [= <-])%bind_Ok.
  split; [by destruct e|]. by exists mi.
Qed.

(** The loop over the courses of one group, the group being the last key
    of the document. *)
Lemma export_groupe_Ok g l (acc : list (string * list ExportCours)) l0 r :
  g ∉ acc.*1 →
  for_each (λ acc e,
      x ← export_cours config e;
      Ok (PyDict.update [] (λ l, l ++ [x]) g acc)) l (acc ++ [(g, l0)]) = Ok r →
  ∃ xs, mapM (export_cours config) l = Ok xs ∧ r = acc ++ [(g, l0 ++ xs)].
Proof.
  intros Hg. revert l0. induction l as [|e l IH]; intros l0; simpl.
  - intros [= <-]. exists []. by rewrite app_nil_r.
  - intros (acc1 & (x & Hx & [= <-])%bind_Ok & Hrun)%bind_Ok.
    rewrite update_last in Hrun by done.
    destruct (IH _ Hrun) as (xs & Hxs & ->).
    exists (x :: xs). rewrite Hx, Hxs. simpl. by rewrite <- app_assoc.
Qed.

Lemma export_groupes_Ok (solution : Solution) acc r :
  NoDup (acc.*1 ++ solution.*1) →
  for_each (λ acc (gl : string * list Entry),
      for_each (λ acc e,
          x ← export_cours config e;
          Ok (PyDict.update [] (λ l, l ++ [x]) gl.1 acc))
        gl.2 (setitem gl.1 [] acc)) solution acc = Ok r →
  ∃ out,
    r = acc ++ out
    ∧ Forall2 (λ (gl : string * list Entry) (gx : string * list ExportCours),
                 gx.1 = gl.1 ∧ mapM (export_cours config) gl.2 = Ok gx.2)
              solution out.
Proof.
  revert acc. induction solution as [|[g l] solution IH]; intros acc Hnd; simpl.
  - intros [= <-]. exists []. by rewrite app_nil_r.
  - intros (acc1 & Hg & Hrun)%bind_Ok.
    assert (g ∉ acc.*1) as Hfresh.
    { apply NoDup_app in Hnd as (_ & Hdisj & _). intros Hin.
      apply (Hdisj g Hin). by left. }
    unfold setitem in Hg. rewrite update_fresh in Hg by done.
    apply export_groupe_Ok in Hg as (xs & Hxs & ->); [|done].
    destruct (IH (acc ++ [(g, [] ++ xs)])) as (out & -> & Hout);
      [|exact Hrun|].
    { rewrite fmap_app. simpl. rewrite <- app_assoc. exact Hnd. }
    exists ((g, xs) :: out). split; [by rewrite <- app_assoc|].
    by constructor.
Qed.

End ExportSchedule.

(** X10. The exported timetable keeps the schedule whole: when the export
    is produced for a schedule (a dictionary: every group once), mapping
    every exported course back to its entry gives the schedule again, group
    by group and in order, and the emoji of an exported course is the one
    declared for its subject, the empty string when none is declared. *)
Theorem export_schedule_round_trip (solution : Solution) config emploi :
  NoDup solution.*1 →
  export_schedule_to_json solution config = Ok (Some emploi) →
  (λ gx : string * list ExportCours, (gx.1, entry_of_export <$> gx.2))
    <$> emploi = solution
  ∧ ∀ gx x, gx ∈ emploi → x ∈ gx.2 →
      ∃ matiere_info,
        PyDict.get (matieres config) (xc_matiere x) = Some matiere_info
        ∧ xc_emoji x = default EmptyString (emoji matiere_info).
Proof.
  intros Hnd Hexp. unfold export_schedule_to_json in Hexp.
  destruct solution as [|gl solution'] eqn:Hsol; [done|].
  rewrite <- Hsol in Hnd, Hexp |- *. clear Hsol gl solution'.
  apply bind_Ok in Hexp as (r & Hrun & [= <-]).
  apply export_groupes_Ok in Hrun as (out & -> & Hout); [|done].
  simpl. clear Hnd.
  induction Hout as [|[g l] [g' xs] solution out [Hg Hxs] _ [IH1 IH2]].
  - split; [done|]. by intros ?? ?%elem_of_nil.
  - simpl in Hg, Hxs. subst g'. apply mapM_Ok in Hxs.
    assert (entry_of_export <$> xs = l
            ∧ ∀ x, x ∈ xs →
                ∃ matiere_info,
                  PyDict.get (matieres config) (xc_matiere x) = Some matiere_info
                  ∧ xc_emoji x = default EmptyString (emoji matiere_info))
      as [Hback Hemoji].
    { clear -Hxs. induction Hxs as [|e x l xs Hx _ [IH1 IH2]].
      - split; [done|]. by intros ? ?%elem_of_nil.
      - apply export_cours_Ok in Hx as (Hback & mi & Hmi & Hemoji).
        split; [by rewrite fmap_cons, Hback, IH1|].
        intros x' [->|Hx']%elem_of_cons; [|by apply IH2].
        exists mi. split; [|done]. by rewrite <- Hback in Hmi. }
    split; [by rewrite fmap_cons, IH1; simpl; rewrite Hback|].
    intros gx x [->|Hgx]%elem_of_cons Hx; [by apply Hemoji|by eapply IH2].
Qed.

Lemma export_schedule_round_trip_witness :
  ∃ emploi,
    export_schedule_to_json Examples.emploi_inverse Examples.deux_jours
    = Ok (Some emploi)
    ∧ (λ gx : string * list ExportCours, (gx.1, entry_of_export <$> gx.2))
        <$> emploi = Examples.emploi_inverse.
Proof.
  destruct (export_schedule_to_json Examples.emploi_inverse
              Examples.deux_jours)
    as [[emploi|]|e] eqn:Hexp; [|vm_compute in Hexp; discriminate..].
  exists emploi. split; [reflexivity|].
  apply (export_schedule_round_trip _ _ _) with (2 := Hexp).
  decide_by_compute.
Defined.

(** X11. The export of the timetable is produced exactly when the subject
    of every entry of the schedule is a declared subject; otherwise the
    lookup of the emoji raises. *)
Theorem export_schedule_runs (solution : Solution) config :
  (∃ out, export_schedule_to_json solution config = Ok out)
  ↔ ∀ ge, ge ∈ entries solution →
          e_matiere ge.2 ∈ PyDict.keys (matieres config).
Proof.
  unfold export_schedule_to_json.
  destruct solution as [|gl solution'] eqn:Hsol.
  { split; [by intros _ ? ?%elem_of_nil|by eexists]. }
  rewrite <- Hsol. clear Hsol gl solution'. split.
  - intros [out (r & Hrun & _)%bind_Ok] ge Hge.
    unfold entries in Hge.
    apply elem_of_flat_map in Hge as (gl & Hgl & (e & -> & He)
      %list_elem_of_fmap). simpl.
    destruct (for_each_Ok_elem _ _ _ _ _ Hrun Hgl) as (s1 & s2 & Hbody).
    destruct (for_each_Ok_elem _ _ _ _ _ Hbody He) as (s3 & s4 & Hcours).
    apply bind_Ok in Hcours as (x & (mi & Hmi%getitem_Ok & _)%bind_Ok & _).
    apply get_is_Some. by eexists.
  - intros Hall.
    match goal with
    | |- ∃ _, (for_each ?body ?l ?s ≫= _) = _ =>
        destruct (for_each_total body l s) as [r ->]; [|by eexists]
    end.
    intros acc gl Hgl. apply for_each_total. intros acc' e He.
    destruct (proj2 (get_is_Some (matieres config) (e_matiere e)))
      as [mi Hmi].
    { apply (Hall (gl.1, e)). apply elem_of_flat_map. exists gl.
      split; [done|]. by apply list_elem_of_fmap_2. }
    unfold export_cours, getitem. rewrite Hmi. by eexists.
Qed.

(** ** The verdict of the validator *)

Section Verdict.
Context (professeurs : list (string * list string))
        (salles : list (string * SalleInfo))
        (infos_matieres : list (string * string))
        (solution : Solution) (cs : list Cours).

Lemma verifier_solution_lookups out ge :
  verifier_solution professeurs salles infos_matieres solution cs = Ok out →
  ge ∈ entries solution →
  is_Some (PyDict.get professeurs (e_prof ge.2))
  ∧ is_Some (PyDict.get infos_matieres (e_matiere ge.2))
  ∧ is_Some (PyDict.get salles (e_salle ge.2)).
Proof.
  unfold verifier_solution. intros (st & Hst & _)%bind_Ok Hge.
  destruct (for_each_Ok_elem _ _ _ _ _ Hst Hge) as (s1 & s2 & Hstep).
  unfold verifier_entry in Hstep.
  apply bind_Ok in Hstep as (ens & Hens%getitem_Ok & (requis & Hreq%getitem_Ok
    & (info & Hinfo%getitem_Ok & _)%bind_Ok)%bind_Ok).
  rewrite Hens, Hreq, Hinfo. by repeat split.
Qed.

Lemma erreurs_entree_nil ge :
  is_Some (PyDict.get professeurs (e_prof ge.2)) →
  is_Some (PyDict.get infos_matieres (e_matiere ge.2)) →
  is_Some (PyDict.get salles (e_salle ge.2)) →
  erreurs_entree professeurs salles infos_matieres ge = []
  ↔ entree_conforme professeurs salles infos_matieres ge.
Proof.
  intros [ens Hens] [requis Hreq] [info Hinfo].
  unfold erreurs_entree, entree_conforme. rewrite Hens, Hreq, Hinfo. split.
  - intros [H1 H2]%app_eq_nil. exists ens, requis, info.
    repeat (split; [done|]). split.
    + destruct (decide (e_matiere ge.2 ∉ ens)) as [|Hin]; [done|].
      by apply dec_stable.
    + destruct (decide (type info ≠ requis)) as [|Heq]; [done|].
      by apply dec_stable.
  - intros (ens' & requis' & info' & [= <-] & [= <-] & [= <-] & Hm & Ht).
    rewrite decide_False by (by intros H; apply H).
    rewrite decide_False by (by intros H; apply H). done.
Qed.

Lemma conflits_nil :
  conflits_messages Professeur (grouper Professeur (entries solution))
  ++ conflits_messages Salle (grouper Salle (entries solution))
  ++ conflits_messages Groupe (grouper Groupe (entries solution)) = []
  ↔ sans_conflit solution.
Proof.
  split.
  - intros Hnil name r slot. apply Nat.le_ngt. intros Hgt.
    assert (ErreurConflit name r (length (simultanes solution name r slot))
              slot
            ∈ conflits_messages name (grouper name (entries solution)))
      as Hin.
    { apply elem_of_conflits_messages. by eexists r, slot, _. }
    apply app_eq_nil in Hnil as [H1 [H2 H3]%app_eq_nil].
    destruct name; [rewrite H1 in Hin|rewrite H2 in Hin|rewrite H3 in Hin];
      by apply elem_of_nil in Hin.
  - intros Hsans.
    assert (∀ name, conflits_messages name (grouper name (entries solution))
                    = []) as Hnil.
    { intros name. apply elem_of_nil_inv. intros m
        (r & slot & n & -> & Hn & Hc)%elem_of_conflits_messages.
      specialize (Hsans name r slot). unfold simultanes in Hsans. lia. }
    by rewrite !Hnil.
Qed.

Lemma verifier_solution_valid valid messages :
  verifier_solution professeurs salles infos_matieres solution cs
  = Ok (valid, messages) →
  valid = true
  ↔ (∀ ge, ge ∈ entries solution →
           entree_conforme professeurs salles infos_matieres ge)
    ∧ length (entries solution) = length cs
    ∧ sans_conflit solution.
Proof.
  intros Hrun. pose proof Hrun as [-> _]%verifier_solution_Ok.
  rewrite bool_decide_eq_true, conflits_nil.
  assert (flat_map (erreurs_entree professeurs salles infos_matieres)
                   (entries solution) = []
          ↔ ∀ ge, ge ∈ entries solution →
                  entree_conforme professeurs salles infos_matieres ge) as ->.
  { split.
    - intros Hnil ge Hge.
      destruct (verifier_solution_lookups _ ge Hrun Hge) as (H1 & H2 & H3).
      apply erreurs_entree_nil; [done..|]. by eapply flat_map_nil.
    - intros Hall. apply elem_of_nil_inv.
      intros m (ge & Hge & Hm)%elem_of_flat_map.
      destruct (verifier_solution_lookups _ ge Hrun Hge) as (H1 & H2 & H3).
      apply erreurs_entree_nil in H3; [|done..].
      rewrite (proj2 H3 (Hall ge Hge)) in Hm. by apply elem_of_nil in Hm. }
  assert ((if decide (length (entries solution) ≠ length cs)
           then [ErreurNombre (length cs) (length (entries solution))]
           else []) = []
          ↔ length (entries solution) = length cs) as ->; [|done].
  case_decide as Hne; split; done.
Qed.

End Verdict.

(** X12. When the validator ends normally, it returns [True] exactly for
    the schedules in which every entry has a teacher who teaches the
    subject and a room of the type the subject requires, the number of
    entries is the number of courses to plan, and no teacher, room or group
    has two entries in the same slot. *)
Theorem verifier_solution_verdict
    professeurs salles infos_matieres solution cs valid messages :
  verifier_solution professeurs salles infos_matieres solution cs
  = Ok (valid, messages) →
  valid = true
  ↔ (∀ ge, ge ∈ entries solution →
           entree_conforme professeurs salles infos_matieres ge)
    ∧ length (entries solution) = length cs
    ∧ sans_conflit solution.
Proof. apply verifier_solution_valid. Qed.

Lemma verifier_solution_verdict_witness :
  ¬ sans_conflit Examples.conflit_math.
Proof.
  pose proof (verifier_solution_verdict Examples.deux_profs Examples.une_salle
                Examples.deux_matieres Examples.conflit_math
                Examples.deux_cours false
                [ErreurConflit Salle "S1" 2 ("Lundi", "8h")]) as H.
  intros Hsans. assert (false = true) as Habs; [|discriminate Habs].
  apply H; [vm_compute; reflexivity|].
  split; [|split; [vm_compute; reflexivity|exact Hsans]].
  apply Forall_forall.
  repeat (constructor;
          [eexists _, _, _; repeat split; try reflexivity; decide_by_compute|]).
  constructor.
Defined.

(** ** A satisfying assignment decodes into a valid schedule *)

Lemma get_elem_of_NoDup {V : Type} (d : list (string * V)) k v :
  NoDup (PyDict.keys d) → (k, v) ∈ d → PyDict.get d k = Some v.
Proof.
  unfold PyDict.keys. induction d as [|[k0 v0] d IH]; simpl; intros Hd Hin.
  - by apply elem_of_nil in Hin.
  - apply NoDup_cons in Hd as [Hk0 Hd].
    apply elem_of_cons in Hin as [[= -> ->]|Hin].
    + by rewrite decide_True.
    + case_decide as Hk; [|by apply IH]. subst.
      destruct Hk0. by apply (list_elem_of_fmap_2 fst) in Hin.
Qed.

Lemma filter_comm {A : Type} (P Q : A → Prop)
    `{∀ x, Decision (P x)} `{∀ x, Decision (Q x)} (l : list A) :
  filter P (filter Q l) = filter Q (filter P l).
Proof.
  rewrite !list_filter_filter. apply list_filter_iff. intros x. tauto.
Qed.

Lemma length_filter_split {A : Type} (P : A → Prop) `{∀ x, Decision (P x)}
    (l : list A) :
  length l = length (filter P l) + length (filter (λ x, ¬ P x) l).
Proof. by rewrite <- length_app, filter_app_complement. Qed.

Lemma sum_list_ones {A : Type} (f : A → nat) (l : list A) :
  (∀ x, x ∈ l → f x = 1) → sum_list (f <$> l) = length l.
Proof.
  induction l as [|x l IH]; intros Hf; [done|].
  rewrite fmap_cons. cbn [sum_list sum_list_with length].
  rewrite Hf by (by left). rewrite IH; [done|].
  intros ??. apply Hf. by right.
Qed.

(** Counting a list by an index that takes each of its values once. *)
Lemma length_by_index {A I : Type} `{EqDecision I} (f : A → I)
    (l : list A) (ids : list I) :
  NoDup ids →
  (∀ x, x ∈ l → f x ∈ ids) →
  length l = sum_list ((λ i, length (filter (λ x, f x = i) l)) <$> ids).
Proof.
  intros Hnd. revert l. induction Hnd as [|i ids Hi Hnd IH]; intros l Hl.
  - destruct l as [|x l]; [done|].
    specialize (Hl x (list_elem_of_here _ _)). by apply elem_of_nil in Hl.
  - rewrite fmap_cons. cbn [sum_list sum_list_with].
    rewrite (length_filter_split (λ x, f x = i) l). f_equal.
    rewrite (IH (filter (λ x, ¬ f x = i) l)).
    + f_equal. apply list_fmap_ext. intros k j Hj.
      apply list_elem_of_lookup_2 in Hj. f_equal. rewrite list_filter_filter. apply list_filter_iff.
      intros x. split; [tauto|]. intros Hx. split; [done|]. congruence.
    + intros x [Hne Hx]%list_elem_of_filter.
      pose proof (Hl x Hx) as Hin.
      apply elem_of_cons in Hin as [?|?]; done.
Qed.

Lemma generate_cours_groupe config c :
  c ∈ generate_cours_from_config config →
  cours_groupe c ∈ nom <$> groupes_eleves config.
Proof.
  intros Hc. apply (list_elem_of_fmap_2 fst) in Hc.
  rewrite generate_cours_spec, number_from_pairs in Hc.
  destruct c as [[g m] id]. simpl in *.
  apply elem_of_flat_map in Hc as (gi & Hgi & [<- _]%elem_of_groupe_order).
  unfold cours_groupe. simpl. by apply list_elem_of_fmap_2.
Qed.

Lemma generate_cours_ids_NoDup config :
  NoDup (cours_ident <$> generate_cours_from_config config).
Proof.
  rewrite generate_cours_spec.
  change (cours_ident <$> number_from 0 (expansion_order config))
    with ((number_from 0 (expansion_order config)).*2).
  rewrite number_from_ids. apply NoDup_seq.
Qed.

Lemma model_admis config model :
  build_model config (generate_cours_from_config config) = Ok model →
  admis config (generate_cours_from_config config) (variables model).
Proof.
  unfold build_model. intros (keys & Hkeys & [= <-])%bind_Ok. simpl.
  by apply create_variables_admis.
Qed.

Section Satisfying.
Context (config : Config) (model : CpModel) (value : Key → bool).
Context (Hprofs : NoDup (PyDict.keys (professeurs config)))
        (Hsalles : NoDup (PyDict.keys (salles config)))
        (Hmodel : build_model config (generate_cours_from_config config)
                  = Ok model)
        (Hsat : ∀ c, c ∈ constraints model → satisfait value c).

Lemma decode_conforme ge :
  ge ∈ entries (decode value (variables model)) →
  entree_conforme (professeurs_of config) (salles config)
    (infos_matieres_of config) ge.
Proof.
  intros (key & Hkey & _ & ->)%(decode_key (variables model)).
  destruct (model_admis _ _ Hmodel key Hkey)
    as (_ & _ & _ & (pi & si & mi & Hp & Hs & Hmi & Hcomp & Htype & _)).
  exists (matieres_enseignees pi), (salle_requise mi), si. simpl.
  unfold professeurs_of, infos_matieres_of. rewrite !get_fmap, Hmi.
  rewrite (get_elem_of_NoDup _ _ _ Hprofs Hp).
  rewrite (get_elem_of_NoDup _ _ _ Hsalles Hs). done.
Qed.

Lemma decode_length_filter (P : string * Entry → Prop)
    `{∀ ge, Decision (P ge)} :
  length (filter P (entries (decode value (variables model))))
  = length (filter (λ key, value key = true)
              (filter (λ key, P (k_groupe key, entry_of_key key))
                      (variables model))).
Proof.
  unfold decode. rewrite decode_from_entries. simpl.
  rewrite length_filter_fmap. by rewrite filter_comm.
Qed.

Lemma key_ressource_liste name key :
  key ∈ variables model →
  key_ressource name key ∈ liste_ressources config name.
Proof.
  intros Hkey.
  destruct (model_admis _ _ Hmodel key Hkey)
    as (Hc & _ & _ & (pi & si & mi & Hp & Hs & _)).
  destruct name; simpl.
  - by apply (list_elem_of_fmap_2 fst) in Hp.
  - by apply (list_elem_of_fmap_2 fst) in Hs.
  - by apply generate_cours_groupe in Hc.
Qed.

Lemma decode_sans_conflit : sans_conflit (decode value (variables model)).
Proof.
  intros name r [j h]. unfold simultanes. rewrite decode_length_filter.
  trans (length (filter (λ key, value key = true)
                   (filter (λ key, key_ressource name key = r
                                   ∧ k_jour key = j ∧ k_heure key = h)
                           (variables model)))).
  { apply Nat.eq_le_incl. f_equal. f_equal.
    apply list_filter_iff. intros key.
    unfold e_creneau. destruct name; simpl; split.
    all: try (intros [? [= ? ?]]; done).
    all: intros (? & ? & ?); split; [done|]; by f_equal. }
  remember (filter (λ key, key_ressource name key = r
                           ∧ k_jour key = j ∧ k_heure key = h)
                   (variables model)) as V eqn:HV.
  destruct V as [|key0 V']; [simpl; lia|].
  apply (Hsat (AddAtMostOne (key0 :: V'))).
  apply (build_model_exclusivity _ _ _ _ Hmodel).
  split; [done|].
  assert (key0 ∈ key0 :: V') as Hkey0 by (by left).
  rewrite HV in Hkey0.
  apply list_elem_of_filter in Hkey0 as [(Hr & Hj & Hh) Hkey0].
  destruct (model_admis _ _ Hmodel key0 Hkey0) as (_ & Hjour & Hheure & _).
  exists name, r, j, h. subst r j h.
  split; [by apply key_ressource_liste|]. by repeat split.
Qed.

Lemma decode_length :
  (∀ c, c ∈ generate_cours_from_config config →
        ∃ key, key ∈ variables model ∧ k_cours_id key = cours_ident c) →
  length (entries (decode value (variables model)))
  = length (generate_cours_from_config config).
Proof.
  intros Hcand.
  assert (length (entries (decode value (variables model)))
          = length (filter (λ key, value key = true) (variables model))) as ->.
  { unfold decode. rewrite decode_from_entries. simpl.
    by rewrite length_fmap. }
  rewrite (length_by_index k_cours_id _
             (cours_ident <$> generate_cours_from_config config)).
  - rewrite <- list_fmap_compose. apply sum_list_ones. intros c Hc. simpl.
    rewrite filter_comm.
    apply (Hsat (AddExactlyOne
                   (filter (λ key, k_cours_id key = cours_ident c)
                           (variables model)))).
    apply (build_model_coverage _ _ _ _ Hmodel).
    split; [|by exists c].
    destruct (Hcand c Hc) as (key & Hkey & Hid).
    intros Hnil. eapply (filter_nil_not_elem_of _ _ key); [exact Hnil| |done].
    done.
  - apply generate_cours_ids_NoDup.
  - intros key [_ Hkey]%list_elem_of_filter.
    destruct (model_admis _ _ Hmodel key Hkey) as (Hc & _).
    apply list_elem_of_fmap. by eexists (_, _, _).
Qed.

End Satisfying.

(** X13. The encoding is sound.  Let the teachers and the rooms of the
    configuration be dictionaries (every name once).  If an assignment
    satisfies every constraint of the model built for the configuration,
    and every course of the list has at least one candidate, then the
    schedule decoded from the assignment passes the validator: it returns
    [True] and prints the success line alone. *)
Theorem satisfying_assignment_valid config model value :
  NoDup (PyDict.keys (professeurs config)) →
  NoDup (PyDict.keys (salles config)) →
  build_model config (generate_cours_from_config config) = Ok model →
  (∀ c, c ∈ constraints model → satisfait value c) →
  (∀ c, c ∈ generate_cours_from_config config →
        ∃ key, key ∈ variables model ∧ k_cours_id key = cours_ident c) →
  verifier_solution (professeurs_of config) (salles config)
    (infos_matieres_of config) (decode value (variables model))
    (generate_cours_from_config config)
  = Ok (true,
        [SolutionValide (length (generate_cours_from_config config))]).
Proof.
  intros Hprofs Hsalles Hmodel Hsat Hcand.
  pose proof (model_admis config model Hmodel) as Hadmis.
  destruct (verifier_solution_runs (professeurs_of config) (salles config)
              (infos_matieres_of config) (decode value (variables model))
              (generate_cours_from_config config)) as [[valid messages] Hrun].
  { by apply (decode_references_connues config _ _ Hadmis). }
  assert (valid = true) as ->.
  { apply (verifier_solution_valid _ _ _ _ _ _ _ Hrun). split; [|split].
    - intros ge. by apply (decode_conforme config model).
    - by apply decode_length.
    - by apply (decode_sans_conflit config). }
  rewrite Hrun. do 2 f_equal.
  pose proof Hrun as [Hv ->]%verifier_solution_Ok.
  symmetry in Hv. apply bool_decide_eq_true in Hv as (-> & -> & ->).
  simpl. by rewrite (decode_length config model value Hmodel Hsat Hcand).
Qed.

Lemma satisfying_assignment_valid_witness :
  verifier_solution (professeurs_of Examples.deux_jours)
    (salles Examples.deux_jours) (infos_matieres_of Examples.deux_jours)
    (decode (Examples.mardi_d_abord
               (parametres_solveur Examples.deux_jours)
               {| variables := []; constraints := [] |}).2
       (variables
          (match build_model Examples.deux_jours
                   (generate_cours_from_config Examples.deux_jours) with
           | Ok model => model
           | Raise _ => {| variables := []; constraints := [] |}
           end)))
    (generate_cours_from_config Examples.deux_jours)
  = Ok (true,
        [SolutionValide
           (length (generate_cours_from_config Examples.deux_jours))]).
Proof.
  apply satisfying_assignment_valid.
  - decide_by_compute.
  - decide_by_compute.
  - vm_compute. reflexivity.
  - apply Forall_forall. decide_by_compute.
  - intros c Hc. apply Exists_exists. revert c Hc.
    apply Forall_forall. decide_by_compute.
Defined.

(** ** What validation ensures for the candidates *)

Lemma valid_salle config matiere matiere_info :
  validate_config config = [] →
  (matiere, matiere_info) ∈ matieres config →
  ∃ s, s ∈ salles config ∧ type s.2 = salle_requise matiere_info.
Proof.
  intros Hvalid Hin. unfold validate_config in Hvalid.
  apply app_eq_nil in Hvalid as [_ [_ H3]%app_eq_nil].
  pose proof (flat_map_nil _ _ H3 _ Hin) as H. simpl in H.
  case_decide as Htype; [done|].
  apply elem_of_list_to_set, list_elem_of_fmap in Htype as (s & Hs & Hin').
  by exists s.
Qed.

(** X14. On a configuration that passes validation, a course of the list
    has a decision variable for every teacher who teaches its subject and
    every day and hour of the grid at which that teacher is available, in
    some room of the required type: a course is left without candidate
    only when no competent teacher is available on the grid. *)
Theorem candidate_of_available_teacher config c prof prof_info jour heure :
  validate_config config = [] →
  c ∈ generate_cours_from_config config →
  (prof, prof_info) ∈ professeurs config →
  cours_matiere c ∈ matieres_enseignees prof_info →
  jour ∈ jours (planning config) →
  jour ∉ jours_indisponibles (contraintes prof_info) →
  heure ∈ heures (planning config) →
  heure ∉ heures_indisponibles (contraintes prof_info) →
  ∃ keys salle,
    create_variables config (generate_cours_from_config config) = Ok keys
    ∧ key_of c prof salle jour heure ∈ keys.
Proof.
  intros Hvalid Hc Hp Hcomp Hj Hjd Hh Hhd.
  destruct (create_variables_total config Hvalid
              (generate_cours_from_config config)) as [keys Hkeys].
  destruct (valid_enseignee config Hvalid (prof, prof_info) _ Hp Hcomp)
    as [mi Hmi].
  destruct (valid_salle config _ mi Hvalid (get_elem_of _ _ _ Hmi))
    as ([salle si] & Hs & Htype).
  exists keys, salle. split; [done|].
  apply (create_variables_complete config _ keys c prof salle jour heure Hkeys);
    try done.
  by exists prof_info, si, mi.
Qed.

Lemma candidate_of_available_teacher_witness :
  ∃ keys salle,
    create_variables Examples.college
      (generate_cours_from_config Examples.college) = Ok keys
    ∧ key_of ("6A", "Info", 2) "Martin" salle "Mardi" "8h" ∈ keys.
Proof.
  eapply (candidate_of_available_teacher Examples.college
            ("6A", "Info", 2) "Martin" _ "Mardi" "8h").
  - vm_compute. reflexivity.
  - decide_by_compute.
  - apply list_elem_of_further, list_elem_of_here.
  - decide_by_compute.
  - decide_by_compute.
  - decide_by_compute.
  - decide_by_compute.
  - decide_by_compute.
Defined.

(** ** The rooms' counts add up to the total *)

Lemma length_filter_elem_of (s : gset string) (l : list string) :
  NoDup l → (∀ x, x ∈ s → x ∈ l) →
  length (filter (λ x, x ∈ s) l) = size s.
Proof.
  intros Hl Hs. unfold size, set_size. simpl.
  apply Permutation_length, NoDup_Permutation.
  - by apply NoDup_filter.
  - apply NoDup_elements.
  - intros x. rewrite list_elem_of_filter, elem_of_elements. naive_solver.
Qed.

Lemma sum_occupations (d : list (Creneau * gset string)) (l : list string) :
  NoDup l →
  Forall (λ cs : Creneau * gset string, ∀ x, x ∈ cs.2 → x ∈ l) d →
  sum_list ((λ salle,
               length (filter (λ cs : Creneau * gset string, salle ∈ cs.2) d))
              <$> l)
  = total_occupations d.
Proof.
  intros Hl Hd. induction Hd as [|[k s] d Hs Hd IH].
  - simpl. induction l as [|x l IHl]; [done|].
    apply NoDup_cons in Hl as [_ Hl]. rewrite fmap_cons. simpl. by apply IHl.
  - rewrite total_occupations_cons, <- IH.
    rewrite <- (length_filter_elem_of s l Hl Hs).
    rewrite <- (sum_list_ones (λ _, 1) (filter (λ x, x ∈ s) l)) by done.
    clear. induction l as [|x l IHl]; [done|].
    rewrite !fmap_cons, !filter_cons. cbn [sum_list sum_list_with snd].
    destruct (decide (x ∈ s)).
    + rewrite fmap_cons. cbn [sum_list sum_list_with length]. rewrite IHl.
      unfold id. lia.
    + rewrite IHl. unfold id. lia.
Qed.

(** X15. In the report of a schedule whose entries lie on the planning
    grid and in rooms of the configuration (a dictionary: every room
    once), the occupations of the rooms add up to the numerator of the
    global rate. *)
Theorem occupations_add_up solution config rapport :
  NoDup (PyDict.keys (salles config)) →
  sur_la_grille solution config →
  afficher_salles_libres solution config = Ok rapport →
  sum_list (s_nb_occupations <$> r_salles rapport)
  = r_total_occupations rapport.
Proof.
  intros Hnd Hgrille. unfold afficher_salles_libres.
  intros (creneaux & _ & (stats & Hstats%mapM_Ok & (tg & _ & [= <-])
    %bind_Ok)%bind_Ok)%bind_Ok.
  cbn [r_salles r_total_occupations].
  rewrite <- (sum_occupations (salles_occupees solution)
                (sorted (PyDict.keys (salles config)))).
  - induction Hstats as [|salle s l stats Hs _ IH]; [done|].
    rewrite !fmap_cons. cbn [sum_list sum_list_with]. rewrite IH. f_equal.
    apply bind_Ok in Hs as (q & _ & [= <-]). simpl.
    apply occupation_par_salle_find.
  - unfold sorted. by rewrite merge_sort_Permutation.
  - eapply Forall_impl;
      [apply (salles_occupees_sur_la_grille solution config Hgrille)|].
    intros cs [_ H] x Hx. apply sorted_elem_of. by apply H.
Qed.

Lemma occupations_add_up_witness :
  ∃ rapport,
    afficher_salles_libres Examples.emploi_inverse Examples.deux_jours
    = Ok rapport
    ∧ sum_list (s_nb_occupations <$> r_salles rapport)
      = r_total_occupations rapport.
Proof.
  destruct (afficher_salles_libres Examples.emploi_inverse Examples.deux_jours)
    as [rapport|e] eqn:Hrun; [|vm_compute in Hrun; discriminate].
  exists rapport. split; [reflexivity|].
  apply (occupations_add_up Examples.emploi_inverse Examples.deux_jours).
  - decide_by_compute.
  - apply sur_la_grille_Forall. decide_by_compute.
  - exact Hrun.
Defined.
